(** * DashTable: the dataset view pipeline of [dash-table.js]

    A shallow embedding of [js_dash_table/assets/dash-table.js]: the built-in
    filter routine [TABLE_FILTERS.default] and the methods of [TableState]
    that keep the three dataset tiers (original, filtered, virtual), the sort
    specification, the page number and the two selection sets.

    Conventions of the embedding.
    - A JavaScript string is a [string]: a sequence of code units below 256.
    - A JavaScript number is a binary64 [float]; array lengths, page numbers
      and row or column indices, which the code only ever uses as integers,
      are [Z], [nat] or [N].
    - A row is an object with own enumerable properties, kept in insertion
      order (the order of [Object.keys] for names that are not array
      indices).  Rows live in a store and the tiers hold references, because
      [slice] and [filter] copy the array and share the row objects.
    - A thrown exception is a [None] / [Throws] result. *)

From Stdlib Require Import Ascii String DecimalString DecimalN OrdersEx.
From Stdlib Require Import ZArith NArith Lia Bool Floats.
From Stdlib Require Import List Permutation Sorted RelationClasses.
Import ListNotations.

Local Open Scope string_scope.
Local Open Scope list_scope.

(* ================================================================== *)
(** * JavaScript values                                                 *)
(* ================================================================== *)

Module Js.

(** The primitive values a row property can hold. *)
Inductive value : Type :=
| Undefined
| Null
| Bool (b : bool)
| Num (f : float)
| Str (s : string).

(** ** White space

    [WhiteSpace] and [LineTerminator] code units below 256: TAB, LF, VT,
    FF, CR, SP and NBSP.  They are what [\s], [\S], [trim] and
    [StringToNumber] look at. *)
Definition is_space (c : ascii) : bool :=
  let n := nat_of_ascii c in
  ((9 <=? n) && (n <=? 13) || (n =? 32) || (n =? 160))%nat.

Fixpoint trimStart (s : string) : string :=
  match s with
  | String c r => if is_space c then trimStart r else s
  | EmptyString => EmptyString
  end.

(** [trimEnd] keeps a character when it is not a space or when something
    that is kept follows it. *)
Fixpoint trimEnd (s : string) : string :=
  match s with
  | String c r =>
      match trimEnd r with
      | EmptyString => if is_space c then EmptyString else String c EmptyString
      | r' => String c r'
      end
  | EmptyString => EmptyString
  end.

(** [String.prototype.trim]. *)
Definition trim (s : string) : string := trimEnd (trimStart s).

(** ** Numbers from strings: [StringToNumber] *)

(** Value of a digit in a base up to 16; [None] for another character. *)
Definition digit_value (base : Z) (c : ascii) : option Z :=
  let n := Z.of_nat (nat_of_ascii c) in
  let v := if ((48 <=? n) && (n <=? 57))%Z then Some (n - 48)%Z
           else if ((97 <=? n) && (n <=? 102))%Z then Some (n - 87)%Z
           else if ((65 <=? n) && (n <=? 70))%Z then Some (n - 55)%Z
           else None in
  match v with
  | Some d => if (d <? base)%Z then Some d else None
  | None => None
  end.

(** Reads the longest prefix of digits of [base]: the value read so far,
    how many digits were read, and the rest. *)
Fixpoint read_digits (base : Z) (acc : Z) (count : nat) (s : string)
  : Z * nat * string :=
  match s with
  | String c r =>
      match digit_value base c with
      | Some d => read_digits base (acc * base + d)%Z (S count) r
      | None => (acc, count, s)
      end
  | EmptyString => (acc, count, s)
  end.

(** The binary64 nearest to [num / den] (ties to even), [num >= 0] and
    [den > 0]: the quotient is taken with enough extra bits and a sticky
    bit, and rounded once. *)
Definition round_ratio (neg : bool) (num den : Z) : float :=
  if (num =? 0)%Z then (if neg then neg_zero else zero)
  else
    let s := Z.max 0 (Z.log2 den - Z.log2 num + 60)%Z in
    let q := (Z.shiftl num s / den)%Z in
    let sticky := if (Z.shiftl num s mod den =? 0)%Z then 0%Z else 1%Z in
    let m := (2 * q + sticky)%Z in
    SF2Prim (binary_normalize prec emax (if neg then Z.opp m else m)
               (- s - 1)%Z neg).

(** The number [m * 10 ^ e10], for [m >= 0]. *)
Definition decimal_to_float (neg : bool) (m e10 : Z) : float :=
  if (0 <=? e10)%Z then round_ratio neg (m * 10 ^ e10)%Z 1%Z
  else round_ratio neg m (10 ^ (- e10))%Z.

(** The number of an integer. *)
Definition of_Z (z : Z) : float :=
  round_ratio (z <? 0)%Z (Z.abs z) 1%Z.

(** [ExponentPart]: [e] or [E], an optional sign, digits.  The result is
    the exponent, and the rest must be empty. *)
Definition read_exponent (s : string) : option Z :=
  match s with
  | EmptyString => Some 0%Z
  | String c r =>
      if (c =? "e")%char || (c =? "E")%char then
        let '(neg, r1) :=
          match r with
          | String "-" r' => (true, r')
          | String "+" r' => (false, r')
          | _ => (false, r)
          end in
        match read_digits 10%Z 0%Z 0 r1 with
        | (_, O, _) => None
        | (e, _, EmptyString) => Some (if neg then (- e)%Z else e)
        | _ => None
        end
      else None
  end.

(** [StrUnsignedDecimalLiteral] without [Infinity]: digits, an optional
    fraction, an optional exponent; or a dot and digits. *)
Definition read_unsigned_decimal (neg : bool) (s : string) : option float :=
  let '(ip, ni, r) := read_digits 10%Z 0%Z 0 s in
  let '(m, nf, r') :=
    match r with
    | String "." r1 => read_digits 10%Z ip 0 r1
    | _ => (ip, O, r)
    end in
  match ni, nf with
  | O, O => None
  | _, _ =>
      match read_exponent r' with
      | Some e => Some (decimal_to_float neg m (e - Z.of_nat nf))
      | None => None
      end
  end.

Definition read_decimal (s : string) : option float :=
  let '(neg, r) :=
    match s with
    | String "-" r' => (true, r')
    | String "+" r' => (false, r')
    | _ => (false, s)
    end in
  if (r =? "Infinity")%string then Some (if neg then neg_infinity else infinity)
  else read_unsigned_decimal neg r.

(** [NonDecimalIntegerLiteral]: [0x], [0o] or [0b] and digits, no sign. *)
Definition read_non_decimal (s : string) : option float :=
  match s with
  | String "0" (String p r) =>
      let base :=
        if (p =? "x")%char || (p =? "X")%char then Some 16%Z
        else if (p =? "o")%char || (p =? "O")%char then Some 8%Z
        else if (p =? "b")%char || (p =? "B")%char then Some 2%Z
        else None in
      match base with
      | Some b =>
          match read_digits b 0%Z 0 r with
          | (_, O, _) => None
          | (v, _, EmptyString) => Some (of_Z v)
          | _ => None
          end
      | None => None
      end
  | _ => None
  end.

(** [StringToNumber]: white space is trimmed, the empty string is [+0],
    and what is not a numeric literal is [NaN]. *)
Definition StringToNumber (s : string) : float :=
  let t := trim s in
  if (t =? "")%string then zero
  else match read_non_decimal t with
       | Some f => f
       | None => match read_decimal t with
                 | Some f => f
                 | None => nan
                 end
       end.

(** [ToNumber] on primitives. *)
Definition ToNumber (v : value) : float :=
  match v with
  | Undefined => nan
  | Null => zero
  | Bool b => if b then one else zero
  | Num f => f
  | Str s => StringToNumber s
  end.

(** ** Comparison operators *)

(** [IsLessThan(x, y)]: [Some true], [Some false], or [None] for the
    "undefined" answer given when a side is [NaN].  Two strings are
    compared by code units, anything else as numbers. *)
Definition IsLessThan (x y : value) : option bool :=
  match x, y with
  | Str a, Str b => Some (String.ltb a b)
  | _, _ =>
      let nx := ToNumber x in
      let ny := ToNumber y in
      if is_nan nx || is_nan ny then None else Some (nx <? ny)%float
  end.

(** [x < y], [x > y], [x <= y] and [x >= y]. *)
Definition lt (x y : value) : bool :=
  match IsLessThan x y with Some true => true | _ => false end.
Definition gt (x y : value) : bool := lt y x.
Definition le (x y : value) : bool :=
  match IsLessThan y x with Some false => true | _ => false end.
Definition ge (x y : value) : bool :=
  match IsLessThan x y with Some false => true | _ => false end.

(** [x === y]. *)
Definition strict_eq (x y : value) : bool :=
  match x, y with
  | Undefined, Undefined => true
  | Null, Null => true
  | Bool a, Bool b => Bool.eqb a b
  | Num a, Num b => (a =? b)%float
  | Str a, Str b => (a =? b)%string
  | _, _ => false
  end.

(** ** Objects *)

(** A row: own enumerable properties in insertion order. *)
Definition object := list (string * value).

(** [o[k]]: the value of the own property, [undefined] when the object
    has none by the name.  Rows are plain objects; a name that every
    object inherits a property by ([constructor], [toString], ...) reads
    as the inherited value in the code and is outside this model. *)
Fixpoint get (o : object) (k : string) : value :=
  match o with
  | [] => Undefined
  | (k', v) :: r => if (k' =? k)%string then v else get r k
  end.

(** [o[k] = v]: an existing property keeps its place, a new one goes
    last. *)
Fixpoint set (o : object) (k : string) (v : value) : object :=
  match o with
  | [] => [(k, v)]
  | (k', v') :: r =>
      if (k' =? k)%string then (k', v) :: r else (k', v') :: set r k v
  end.

(** [Object.keys(o)]. *)
Definition keys (o : object) : list string := map fst o.

End Js.

(* ================================================================== *)
(** * Arrays                                                            *)
(* ================================================================== *)

Module Array.

Section Generic.
Context {A : Type}.

(** [a.splice(start, deleteCount)] without inserted items: a negative
    [start] counts from the end, and both ends are clamped. *)
Definition splice (start : Z) (deleteCount : Z) (a : list A) : list A :=
  let len := Z.of_nat (length a) in
  let from := if (start <? 0)%Z then Z.max (len + start) 0
              else Z.min start len in
  let count := Z.min (Z.max deleteCount 0) (len - from) in
  firstn (Z.to_nat from) a ++ skipn (Z.to_nat (from + count)) a.

(** [a.findIndex(p)]. *)
Fixpoint findIndex (p : A -> bool) (a : list A) : option nat :=
  match a with
  | [] => None
  | x :: r => if p x then Some O
              else match findIndex p r with
                   | Some i => Some (S i)
                   | None => None
                   end
  end.

(** The index as the number JavaScript returns: -1 when nothing is
    found. *)
Definition index_number (i : option nat) : Z :=
  match i with Some n => Z.of_nat n | None => (-1)%Z end.

(** [a.filter(p)] for a callback that may throw: the exception of the
    first call that throws leaves the whole [filter]. *)
Fixpoint filter (p : A -> option bool) (a : list A) : option (list A) :=
  match a with
  | [] => Some []
  | x :: r =>
      match p x with
      | None => None
      | Some b =>
          match filter p r with
          | None => None
          | Some r' => Some (if b then x :: r' else r')
          end
      end
  end.

(** [a.sort(cmp)].  The language standard requires a stable sort, and
    for a comparator that is consistent on the elements every stable
    sort returns the same array; the model is the stable insertion sort:
    an element moves past the elements the comparator puts strictly
    before it.  For a comparator that is not consistent the standard
    leaves the order to the engine: the model then gives one of the
    arrays an engine may return, and what is proved of the order of a
    sorted array is proved for consistent comparators. *)
Fixpoint insert (cmp : A -> A -> Z) (x : A) (a : list A) : list A :=
  match a with
  | [] => [x]
  | y :: r => if (0 <? cmp x y)%Z then y :: insert cmp x r else x :: a
  end.

Definition sort (cmp : A -> A -> Z) (a : list A) : list A :=
  fold_right (insert cmp) [] a.

End Generic.

(** [ToString] of an index: its decimal digits (the form of every
    integer below ten to the 21st). *)
Definition index_to_string (n : N) : string :=
  NilEmpty.string_of_uint (N.to_uint n).

(** The comparator of [a.sort()] called without one: the elements are
    compared as strings, by code units. *)
Definition SortCompare (x y : N) : Z :=
  let xs := index_to_string x in
  let ys := index_to_string y in
  if String.ltb xs ys then (-1)%Z
  else if String.ltb ys xs then 1%Z
  else 0%Z.

(** [a.indexOf(x)] on an array of indices. *)
Definition indexOf (x : N) (a : list N) : option nat :=
  findIndex (N.eqb x) a.

(** [a.includes(x)] on an array of strings. *)
Definition includes (x : string) (a : list string) : bool :=
  existsb (String.eqb x) a.

(** [a.toString()] on an array of strings: the elements joined with a
    comma. *)
Definition toString (a : list string) : string := String.concat "," a.

End Array.

(* ================================================================== *)
(** * The table state and its operations                                *)
(* ================================================================== *)

Module DashTable.

(** ** Rows in the store *)

(** A reference to a row object, and the store the references point
    into.  A reference the store does not hold reads as an object
    without properties. *)
Definition ref := nat.
Definition store := list Js.object.

Definition deref (h : store) (r : ref) : Js.object := nth r h [].

Fixpoint store_set (h : store) (r : ref) (o : Js.object) : store :=
  match h, r with
  | [], _ => []
  | _ :: t, O => o :: t
  | x :: t, S r' => x :: store_set t r' o
  end.

(** [item[k] = v] on the row behind a reference. *)
Definition assign (h : store) (r : ref) (k : string) (v : Js.value) : store :=
  store_set h r (Js.set (deref h r) k v).

(** The rows of a tier, by value. *)
Definition rows (h : store) (tier : list ref) : list Js.object :=
  map (deref h) tier.

(** ** Filter routines *)

(** What calling a filter routine gives: an exception, or the store as
    the routine left it and the array it returned. *)
Inductive outcome : Type :=
| Throws
| Returns (h : store) (result : list ref).

Definition filterFunc := string -> store -> list ref -> outcome.

(** *** The tokens of [filter.match]

    The pattern is global and has two alternatives, tried in this order
    at each position: a double quote, any characters other than a double
    quote, and a double quote; or a run of characters that are not white
    space. *)

Definition dquote : ascii := ascii_of_nat 34.
Definition squote : ascii := ascii_of_nat 39.

(** The text up to the next double quote, when there is one. *)
Fixpoint quoted_body (s : string) : option string :=
  match s with
  | EmptyString => None
  | String c r =>
      if (c =? dquote)%char then Some EmptyString
      else match quoted_body r with
           | Some b => Some (String c b)
           | None => None
           end
  end.

(** The longest run of characters that are not white space. *)
Fixpoint nonspace_run (s : string) : string :=
  match s with
  | EmptyString => EmptyString
  | String c r => if Js.is_space c then EmptyString else String c (nonspace_run r)
  end.

(** The match of the pattern at the start of [s], which starts with a
    character that is not white space: a double-quoted segment with its
    quotes when the first alternative applies, the run of [\S] if not. *)
Definition match_at (s : string) : string :=
  match s with
  | String c r =>
      if (c =? dquote)%char then
        match quoted_body r with
        | Some b => String dquote (b ++ String dquote EmptyString)%string
        | None => nonspace_run s
        end
      else nonspace_run s
  | EmptyString => EmptyString
  end.

(** All matches, left to right; [skip] counts the characters of the
    current match that are still to be passed over. *)
Fixpoint scan (skip : nat) (s : string) : list string :=
  match s with
  | EmptyString => []
  | String c r =>
      match skip with
      | S k => scan k r
      | O =>
          if Js.is_space c then scan O r
          else let tok := match_at s in
               tok :: scan (String.length tok - 1) r
      end
  end.

(** [String.prototype.match] with a global pattern answers [null] when
    nothing matches. *)
Definition match_tokens (filter : string) : option (list string) :=
  match scan O filter with
  | [] => None
  | splits => Some splits
  end.

(** [key.replace] with the pattern for a single or double quote at the
    start or at the end, each replaced by nothing: a leading quote goes,
    and then a trailing one. *)
Definition is_quote (c : ascii) : bool :=
  ((c =? dquote) || (c =? squote))%char.

Fixpoint drop_last_quote (s : string) : string :=
  match s with
  | EmptyString => EmptyString
  | String c EmptyString => if is_quote c then EmptyString else s
  | String c r => String c (drop_last_quote r)
  end.

Definition strip_quotes (key : string) : string :=
  match key with
  | String c r => if is_quote c then drop_last_quote r else drop_last_quote key
  | EmptyString => EmptyString
  end.

(** The [switch] of the callback: the answer for one row, or the
    exception for an operation that is none of the cases. *)
Definition test_item (operation : string) (field : Js.value) (value : string)
  : option bool :=
  if (operation =? ">")%string then Some (Js.gt field (Js.Str value))
  else if (operation =? ">=")%string then Some (Js.ge field (Js.Str value))
  else if (operation =? "<")%string then Some (Js.lt field (Js.Str value))
  else if (operation =? "<=")%string then Some (Js.le field (Js.Str value))
  else if ((operation =? "=") || (operation =? "=="))%string
    then Some (Js.strict_eq field (Js.Str value))
  else if ((operation =? "!=") || (operation =? "!=="))%string
    then Some (negb (Js.strict_eq field (Js.Str value)))
  else None.

(** [TABLE_FILTERS.default]. *)
Definition TABLE_FILTERS_default : filterFunc :=
  fun filter h data =>
    match match_tokens filter with
    | None => Throws (* [splits] is [null]: reading its length throws *)
    | Some splits =>
        if (length splits <? 3)%nat then Throws
        else if (3 <? length splits)%nat then Throws
        else
          match splits with
          | [key; operation; value] =>
              let key := strip_quotes key in
              match Array.filter
                      (fun item => test_item operation (Js.get (deref h item) key) value)
                      data with
              | Some result => Returns h result
              | None => Throws
              end
          | _ => Throws
          end
    end.

(** The registry [TABLE_FILTERS]: its [default] entry, which is a
    routine, and the namespaces registered beside it, each a table of
    routines by action name. *)
Record registry : Type := {
  reg_default : filterFunc;
  reg_namespaces : list (string * list (string * filterFunc))
}.

Fixpoint lookup {A : Type} (k : string) (l : list (string * A)) : option A :=
  match l with
  | [] => None
  | (k', v) :: r => if (k' =? k)%string then Some v else lookup k r
  end.

(** [namespace[action] || namespace.default || TABLE_FILTERS.default],
    where [namespace] is [TABLE_FILTERS[filter_namespace] || {}]. *)
Definition resolve_filter (reg : registry) (namespace action : string) : filterFunc :=
  match lookup namespace (reg_namespaces reg) with
  | Some space =>
      match lookup action space with
      | Some f => f
      | None =>
          match lookup "default" space with
          | Some f => f
          | None => reg_default reg
          end
      end
  | None => reg_default reg
  end.

(** ** Configuration and state *)

(** An entry of the sort specification; [order] may be missing. *)
Record sorter : Type := {
  key : string;
  order : option string
}.

Record column : Type := {
  col_id : string;
  col_name : string;
  col_visible : bool;
  col_selectable : bool;
  col_format_namespace : string;
  col_format : string
}.

(** [this.config], with [columns.original] and [columns.virtual]. *)
Record config : Type := {
  page : Z;
  page_size : Z;
  sort_by : list sorter;
  sort_mode : string;
  row_selectable : option string;
  row_index_key : string;
  selected_rows : list N;
  column_selectable : option string;
  selected_columns : list N;
  filter_namespace : string;
  filter_action : string;
  format_namespace : string;
  format : string;
  columns_original : list column;
  columns_virtual : list column;
  config_filter : option string
}.

(** The table state: the configuration, the store and the three tiers
    of [this.data], the memo [lastVirtualization] (empty, or the filter
    text and the sort pairs of the last pass), the two dirty flags, and
    whether the filter input carries the class ["invalid"]. *)
Record state : Type := {
  cfg : config;
  heap : store;
  original : list ref;
  filtered : list ref;
  virtual : list ref;
  lastVirtualization : option (string * list (string * option string));
  pendingConfigChange : bool;
  pendingHeaderChange : bool;
  invalid : bool
}.

Definition with_page (v : Z) (c : config) : config :=
  {| page := v; page_size := page_size c; sort_by := sort_by c;
     sort_mode := sort_mode c; row_selectable := row_selectable c;
     row_index_key := row_index_key c; selected_rows := selected_rows c;
     column_selectable := column_selectable c;
     selected_columns := selected_columns c;
     filter_namespace := filter_namespace c; filter_action := filter_action c;
     format_namespace := format_namespace c; format := format c;
     columns_original := columns_original c;
     columns_virtual := columns_virtual c; config_filter := config_filter c |}.

Definition with_sort_by (v : list sorter) (c : config) : config :=
  {| page := page c; page_size := page_size c; sort_by := v;
     sort_mode := sort_mode c; row_selectable := row_selectable c;
     row_index_key := row_index_key c; selected_rows := selected_rows c;
     column_selectable := column_selectable c;
     selected_columns := selected_columns c;
     filter_namespace := filter_namespace c; filter_action := filter_action c;
     format_namespace := format_namespace c; format := format c;
     columns_original := columns_original c;
     columns_virtual := columns_virtual c; config_filter := config_filter c |}.

Definition with_selected_rows (v : list N) (c : config) : config :=
  {| page := page c; page_size := page_size c; sort_by := sort_by c;
     sort_mode := sort_mode c; row_selectable := row_selectable c;
     row_index_key := row_index_key c; selected_rows := v;
     column_selectable := column_selectable c;
     selected_columns := selected_columns c;
     filter_namespace := filter_namespace c; filter_action := filter_action c;
     format_namespace := format_namespace c; format := format c;
     columns_original := columns_original c;
     columns_virtual := columns_virtual c; config_filter := config_filter c |}.

Definition with_selected_columns (v : list N) (c : config) : config :=
  {| page := page c; page_size := page_size c; sort_by := sort_by c;
     sort_mode := sort_mode c; row_selectable := row_selectable c;
     row_index_key := row_index_key c; selected_rows := selected_rows c;
     column_selectable := column_selectable c;
     selected_columns := v;
     filter_namespace := filter_namespace c; filter_action := filter_action c;
     format_namespace := format_namespace c; format := format c;
     columns_original := columns_original c;
     columns_virtual := columns_virtual c; config_filter := config_filter c |}.

Definition with_columns_virtual (v : list column) (c : config) : config :=
  {| page := page c; page_size := page_size c; sort_by := sort_by c;
     sort_mode := sort_mode c; row_selectable := row_selectable c;
     row_index_key := row_index_key c; selected_rows := selected_rows c;
     column_selectable := column_selectable c;
     selected_columns := selected_columns c;
     filter_namespace := filter_namespace c; filter_action := filter_action c;
     format_namespace := format_namespace c; format := format c;
     columns_original := columns_original c;
     columns_virtual := v; config_filter := config_filter c |}.

Definition with_cfg (v : config) (s : state) : state :=
  {| cfg := v; heap := heap s; original := original s;
     filtered := filtered s; virtual := virtual s;
     lastVirtualization := lastVirtualization s;
     pendingConfigChange := pendingConfigChange s;
     pendingHeaderChange := pendingHeaderChange s; invalid := invalid s |}.

Definition with_heap (v : store) (s : state) : state :=
  {| cfg := cfg s; heap := v; original := original s;
     filtered := filtered s; virtual := virtual s;
     lastVirtualization := lastVirtualization s;
     pendingConfigChange := pendingConfigChange s;
     pendingHeaderChange := pendingHeaderChange s; invalid := invalid s |}.

Definition with_filtered (v : list ref) (s : state) : state :=
  {| cfg := cfg s; heap := heap s; original := original s;
     filtered := v; virtual := virtual s;
     lastVirtualization := lastVirtualization s;
     pendingConfigChange := pendingConfigChange s;
     pendingHeaderChange := pendingHeaderChange s; invalid := invalid s |}.

Definition with_virtual (v : list ref) (s : state) : state :=
  {| cfg := cfg s; heap := heap s; original := original s;
     filtered := filtered s; virtual := v;
     lastVirtualization := lastVirtualization s;
     pendingConfigChange := pendingConfigChange s;
     pendingHeaderChange := pendingHeaderChange s; invalid := invalid s |}.

Definition with_lastVirtualization
    (v : option (string * list (string * option string))) (s : state) : state :=
  {| cfg := cfg s; heap := heap s; original := original s;
     filtered := filtered s; virtual := virtual s;
     lastVirtualization := v;
     pendingConfigChange := pendingConfigChange s;
     pendingHeaderChange := pendingHeaderChange s; invalid := invalid s |}.

Definition with_pendingConfigChange (v : bool) (s : state) : state :=
  {| cfg := cfg s; heap := heap s; original := original s;
     filtered := filtered s; virtual := virtual s;
     lastVirtualization := lastVirtualization s;
     pendingConfigChange := v;
     pendingHeaderChange := pendingHeaderChange s; invalid := invalid s |}.

Definition with_pendingHeaderChange (v : bool) (s : state) : state :=
  {| cfg := cfg s; heap := heap s; original := original s;
     filtered := filtered s; virtual := virtual s;
     lastVirtualization := lastVirtualization s;
     pendingConfigChange := pendingConfigChange s;
     pendingHeaderChange := v; invalid := invalid s |}.

Definition with_invalid (v : bool) (s : state) : state :=
  {| cfg := cfg s; heap := heap s; original := original s;
     filtered := filtered s; virtual := virtual s;
     lastVirtualization := lastVirtualization s;
     pendingConfigChange := pendingConfigChange s;
     pendingHeaderChange := pendingHeaderChange s; invalid := v |}.

(** ** Pagination *)

(** [x | 0]: the integer wrapped to 32 bits, signed. *)
Definition to_int32 (z : Z) : Z := ((z + 2 ^ 31) mod 2 ^ 32 - 2 ^ 31)%Z.

(** [TableState.getLastPage].  The quotient of two integers truncates
    as [| 0] does; a page size of zero gives a quotient that [| 0] turns
    into 0 and a remainder that is [NaN], which differs from 0. *)
Definition getLastPage (st : state) : Z :=
  let pageSize := page_size (cfg st) in
  let len := Z.of_nat (length (virtual st)) in
  let pageCount := if (len =? pageSize)%Z then 1%Z
                   else to_int32 (Z.quot len pageSize) in
  let pageCount :=
    if (pageSize =? 0)%Z || negb (Z.rem len pageSize =? 0)%Z
    then (pageCount + 1)%Z else pageCount in
  (pageCount - 1)%Z.

(** ** Selections *)

(** [TableState.updateSelections]: [mode] is [None] when the caller
    gives none, and then counts as ["multi"]. *)
Definition updateSelections (selected : list N) (index : N) (mode : option string)
  : list N :=
  let mode := match mode with Some m => m | None => "multi" end in
  let includes := Array.indexOf index selected in
  let selected :=
    match includes with
    | Some i => Array.splice (Z.of_nat i) 1 selected
    | None =>
        let selected :=
          if negb (mode =? "multi")%string
          then Array.splice 0 (Z.of_nat (length selected)) selected
          else selected in
        if Array.includes mode ["single"; "multi"] then selected ++ [index]
        else selected
    end in
  Array.sort Array.SortCompare selected.

(** ** Sorting *)

(** [TableState.clickColumn] on the header of the virtual column at
    [index]; reading the name of a column that does not exist throws. *)
Definition clickColumn (index : nat) (st : state) : option state :=
  match nth_error (columns_virtual (cfg st)) index with
  | None => None
  | Some col =>
      let k := col_name col in
      let sortBy := sort_by (cfg st) in
      let includes := Array.findIndex (fun s => (key s =? k)%string) sortBy in
      let sortBy :=
        match includes with
        | Some i =>
            match nth_error sortBy i with
            | Some s =>
                if match order s with
                   | Some o => (o =? "desc")%string
                   | None => false
                   end
                then
                  (* [sortBy.indexOf(includes)] looks for the number
                     [includes] among the sorter objects: no element is
                     strictly equal to it, and the answer is -1. *)
                  Array.splice (Array.index_number None) 1 sortBy
                else
                  firstn i sortBy
                    ++ {| key := key s; order := Some "desc" |}
                    :: skipn (S i) sortBy
            | None => sortBy
            end
        | None =>
            let sortBy :=
              if (sort_mode (cfg st) =? "single")%string
              then Array.splice 0 (Z.of_nat (length sortBy)) sortBy
              else sortBy in
            sortBy ++ [{| key := k; order := Some "asc" |}]
        end in
      Some (with_pendingHeaderChange true
              (with_pendingConfigChange true
                 (with_cfg (with_sort_by sortBy (cfg st)) st)))
  end.

(** The comparator of [TableState.sortData]: the first key on which the
    two rows differ decides, by its order; an order that is missing or
    empty counts as ["asc"], and any order other than ["asc"] reverses. *)
Fixpoint compare_rows (sortBy : list sorter) (first second : Js.object) : Z :=
  match sortBy with
  | [] => 0%Z
  | s :: rest =>
      let k := key s in
      let o := match order s with
               | Some EmptyString | None => "asc"
               | Some o => o
               end in
      if Js.lt (Js.get first k) (Js.get second k)
      then (if (o =? "asc")%string then (-1)%Z else 1%Z)
      else if Js.gt (Js.get first k) (Js.get second k)
      then (if (o =? "asc")%string then 1%Z else (-1)%Z)
      else compare_rows rest first second
  end.

(** [TableState.sortData]: the virtual tier is sorted in place. *)
Definition sortData (sortBy : list sorter) (st : state) : state :=
  with_virtual
    (Array.sort (fun a b => compare_rows sortBy (deref (heap st) a) (deref (heap st) b))
       (virtual st))
    st.

(** ** Columns and row identity *)

(** The descriptor made up for a key that has no configured column. *)
Definition default_column (c : config) (columnName : string) : column :=
  {| col_id := columnName; col_name := columnName;
     col_visible := true; col_selectable := true;
     col_format_namespace := format_namespace c; col_format := format c |}.

(** [columnsByName[columnName]], for the object [Object.fromEntries]
    builds from the configured columns: the last column of a name is the
    one kept. *)
Definition columnsByName (columns : list column) (columnName : string)
  : option column :=
  find (fun c => (col_name c =? columnName)%string) (rev columns).

(** [item[rowIndexKey] = index] for the items from position [index] on. *)
Fixpoint assign_indexes (h : store) (rowIndexKey : string) (index : nat)
    (items : list ref) : store :=
  match items with
  | [] => h
  | item :: rest =>
      assign_indexes
        (assign h item rowIndexKey (Js.Num (Js.of_Z (Z.of_nat index))))
        rowIndexKey (S index) rest
  end.

(** The loop of [updateColumns] over the entries of the filtered tier:
    the keys of the first row, whether that row carries the identity key
    (the loop then stops), and the store after the identities were
    assigned. *)
Definition scan_filtered (h : store) (rowIndexKey : string) (items : list ref)
  : list string * bool * store :=
  match items with
  | [] => ([], false, h)
  | item :: _ =>
      let newColumns := Js.keys (deref h item) in
      let indexPreserved :=
        negb (Js.strict_eq (Js.get (deref h item) rowIndexKey) Js.Undefined) in
      if indexPreserved then (newColumns, true, h)
      else (newColumns, false, assign_indexes h rowIndexKey 0 items)
  end.

(** The loop over a copy of the selected columns: an index whose former
    column name is not among the final names is spliced out, and the
    header is marked. *)
Fixpoint prune_columns (originalColumns finalColumns : list string)
    (copy : list N) (selected : list N) (pendingHeader : bool)
  : list N * bool :=
  match copy with
  | [] => (selected, pendingHeader)
  | columnIndex :: rest =>
      let kept :=
        match nth_error originalColumns (N.to_nat columnIndex) with
        | Some name => Array.includes name finalColumns
        | None => false
        end in
      if kept then prune_columns originalColumns finalColumns rest selected pendingHeader
      else prune_columns originalColumns finalColumns rest
             (Array.splice
                (Array.index_number (Array.indexOf columnIndex selected)) 1 selected)
             true
  end.

(** [TableState.updateColumns]. *)
Definition updateColumns (useOriginal : bool) (st : state) : state :=
  let c := cfg st in
  let originalColumns := map col_name (columns_virtual c) in
  let '(virtualColumns, indexPreserved, h) :=
    if useOriginal then (columns_original c, true, heap st)
    else
      let rowIndexKey := row_index_key c in
      let '(newColumns, indexPreserved, h) :=
        scan_filtered (heap st) rowIndexKey (filtered st) in
      let newColumns :=
        match newColumns with
        | [] => map col_name (columns_original c)
        | _ => newColumns
        end in
      (flat_map
         (fun columnName =>
            if (columnName =? rowIndexKey)%string then []
            else [match columnsByName (columns_original c) columnName with
                  | Some col => col
                  | None => default_column c columnName
                  end])
         newColumns,
       indexPreserved, h) in
  let finalColumns := map col_name virtualColumns in
  let '(selectedColumns, pendingHeader) :=
    prune_columns originalColumns finalColumns
      (selected_columns c) (selected_columns c) (pendingHeaderChange st) in
  let pendingHeader :=
    if negb (Array.toString originalColumns =? Array.toString finalColumns)%string
    then true else pendingHeader in
  let c := with_selected_columns selectedColumns (with_columns_virtual virtualColumns c) in
  let st := with_pendingHeaderChange pendingHeader (with_cfg c (with_heap h st)) in
  if negb indexPreserved
  then with_pendingConfigChange true (with_cfg (with_selected_rows [] (cfg st)) st)
  else st.

(** ** The recompute cycle *)

Section Recompute.

(** The registry of filter routines in force. *)
Variable TABLE_FILTERS : registry.

(** The filter stage of [updateData], entered when the memoised filter
    text is not the trimmed text: [filter] is the trimmed text,
    [newFilter] the first cell of the new memo and [newSort] the
    second. *)
Definition filter_pass (filter newFilter : string)
    (newSort : list (string * option string)) (st : state) : state :=
  let originalLength := length (filtered st) in
  let '(st, useOriginal, newFilter) :=
    if (filter =? "")%string
    then (with_invalid false (with_filtered (original st) st), true, newFilter)
    else
      let filterFunc :=
        resolve_filter TABLE_FILTERS
          (filter_namespace (cfg st)) (filter_action (cfg st)) in
      match filterFunc filter (heap st) (original st) with
      | Returns h result =>
          (with_invalid false (with_filtered result (with_heap h st)), false, filter)
      | Throws =>
          (with_invalid true (with_filtered (original st) st), true, "")
      end in
  let st := updateColumns useOriginal st in
  let st :=
    if negb (originalLength =? length (filtered st))%nat
    then with_pendingConfigChange true (with_cfg (with_page 0 (cfg st)) st)
    else st in
  with_lastVirtualization (Some (newFilter, newSort)) st.

(** Whether [this.lastVirtualization[0] !== filter]: the cell is
    [undefined] while the memo is the empty array. *)
Definition filter_changed (st : state) (filter : string) : bool :=
  match lastVirtualization st with
  | Some (last, _) => negb (last =? filter)%string
  | None => true
  end.

(** [TableState.updateData].  The new memo is a fresh array, never
    identical to the stored one, so the outer test always passes. *)
Definition updateData (st : state) : state :=
  let newFilter := match config_filter (cfg st) with
                   | Some f => f
                   | None => ""
                   end in
  let newSort := map (fun s => (key s, order s)) (sort_by (cfg st)) in
  let filter := Js.trim newFilter in
  let st :=
    if filter_changed st filter
    then filter_pass filter newFilter newSort st
    else st in
  let st := with_virtual (filtered st) st in
  if negb (length (sort_by (cfg st)) =? 0)%nat
  then sortData (sort_by (cfg st)) st
  else st.

End Recompute.

(** The registry as the file installs it: the built-in routine and no
    namespace. *)
Definition TABLE_FILTERS : registry :=
  {| reg_default := TABLE_FILTERS_default; reg_namespaces := [] |}.

End DashTable.

(* ================================================================== *)
(** * Vocabulary of the properties                                      *)
(* ================================================================== *)

Module Spec.
Import DashTable.

Section Order.
Context {A : Type} (cmp : A -> A -> Z).

(** The comparator does not put [a] strictly after [b]. *)
Definition not_after (a b : A) : Prop := (0 <? cmp a b)%Z = false.

(** An occurrence of [x] stands before an occurrence of [y]. *)
Inductive before (x y : A) : list A -> Prop :=
| before_here l : In y l -> before x y (x :: l)
| before_later a l : before x y l -> before x y (a :: l).

(** The comparator is consistent on the elements of [l], as the
    language standard has it: to compare equal is an equivalence, and to
    compare before is transitive, as is to compare after.  The standard
    fixes what [sort] returns for such a comparator only. *)
Definition consistent (l : list A) : Prop :=
  forall a b c, In a l -> In b l -> In c l ->
    cmp a a = 0%Z
    /\ (cmp a b = 0%Z -> cmp b a = 0%Z)
    /\ (cmp a b = 0%Z -> cmp b c = 0%Z -> cmp a c = 0%Z)
    /\ ((cmp a b < 0)%Z -> (cmp b c < 0)%Z -> (cmp a c < 0)%Z)
    /\ ((0 < cmp a b)%Z -> (0 < cmp b c)%Z -> (0 < cmp a c)%Z).

(** An array is ordered by the comparator: no element stands before an
    element that the comparator puts strictly before it. *)
Definition ordered (l : list A) : Prop := StronglySorted not_after l.

(** [l'] keeps the elements of [l] that compare equal in the order they
    have in [l]. *)
Definition stable (l l' : list A) : Prop :=
  forall a b, before a b l -> cmp a b = 0%Z -> before a b l'.

End Order.

(** [this.config.filter || ""]. *)
Definition filter_text (st : state) : string :=
  match config_filter (cfg st) with
  | Some f => f
  | None => ""
  end.

(** The text the filter stage works on. *)
Definition trimmed (st : state) : string := Js.trim (filter_text st).

(** The routine the configuration of a state selects in a registry. *)
Definition configured (reg : registry) (st : state) : filterFunc :=
  resolve_filter reg (filter_namespace (cfg st)) (filter_action (cfg st)).

(** The state between the two stages of [updateData]: after the filter
    stage, which runs when the memoised text is not the trimmed text, and
    before the sort stage. *)
Definition after_filter (reg : registry) (st : state) : state :=
  if filter_changed st (trimmed st)
  then filter_pass reg (trimmed st) (filter_text st)
         (map (fun s => (key s, order s)) (sort_by (cfg st))) st
  else st.

(** The identity a row carries under the Row Identity Key. *)
Definition identity (st : state) (r : ref) : Js.value :=
  Js.get (deref (heap st) r) (row_index_key (cfg st)).

(** The first row of a tier does not carry the identity key; an empty
    tier has no row that carries it. *)
Definition first_row_lacks_identity (h : store) (k : string) (tier : list ref)
  : Prop :=
  match tier with
  | [] => True
  | item :: _ => Js.get (deref h item) k = Js.Undefined
  end.

(** The two valid selection modes; a caller that names none gets
    ["multi"]. *)
Definition multi_mode (mode : option string) : Prop :=
  mode = None \/ mode = Some "multi".

Definition single_mode (mode : option string) : Prop :=
  mode = Some "single".

(** The same index toggled twice. *)
Definition toggle_twice (selected : list N) (index : N) (mode : option string)
  : list N :=
  updateSelections (updateSelections selected index mode) index mode.

(** Whether a sorter sorts ascending: its order, or ["asc"] when the
    order is missing or empty, is ["asc"]. *)
Definition ascending (s : sorter) : bool :=
  match order s with
  | Some EmptyString | None => true
  | Some o => (o =? "asc")%string
  end.

(** Values the host comparison orders among themselves: strings, by
    code units, and numbers with what converts to one ([null], booleans),
    none of them [NaN]. *)
Definition is_string (v : Js.value) : bool :=
  match v with Js.Str _ => true | _ => false end.

Definition is_number (v : Js.value) : bool :=
  match v with
  | Js.Str _ => false
  | _ => negb (is_nan (Js.ToNumber v))
  end.

(** Under the key [k] the rows of a tier all carry strings, or all carry
    numbers. *)
Definition comparable_column (h : store) (tier : list ref) (k : string) : bool :=
  forallb (fun r => is_string (Js.get (deref h r) k)) tier
  || forallb (fun r => is_number (Js.get (deref h r) k)) tier.

(** They do so under every key of a sort specification. *)
Definition comparable_columns (h : store) (tier : list ref) (sortBy : list sorter)
  : bool :=
  forallb (fun s => comparable_column h tier (key s)) sortBy.

(** The comparator of [sortData] on the rows behind references. *)
Definition compare_refs (sortBy : list sorter) (h : store) (a b : ref) : Z :=
  compare_rows sortBy (deref h a) (deref h b).

(** The sort specification after a click on the header of the virtual
    column at [index]. *)
Definition clicked (st : state) (index : nat) : option (list sorter) :=
  option_map (fun st' => sort_by (cfg st')) (clickColumn index st).

(** Where a column is in the sort specification. *)
Definition found (st : state) (col : column) : option nat :=
  Array.findIndex (fun s => (key s =? col_name col)%string) (sort_by (cfg st)).

(** The operations of the default grammar. *)
Definition known_operation (operation : string) : bool :=
  existsb (String.eqb operation) [">"; ">="; "<"; "<="; "="; "=="; "!="; "!=="].

End Spec.

(* ================================================================== *)
(** * Concrete tables                                                   *)
(* ================================================================== *)

Module Examples.
Import DashTable.

Set Warnings "-inexact-float".

(** The configuration of a table that is given an empty array of
    columns and nothing else: the [defaults] of the constructor, with the
    array made into the original and the virtual list.  (Without
    [columns] the default of the constructor is an object that has no
    such lists; see [construct].) *)
Definition defaults : config :=
  {| page := 0; page_size := 10; sort_by := []; sort_mode := "single";
     row_selectable := Some "multi"; row_index_key := "row_index";
     selected_rows := []; column_selectable := Some "multi";
     selected_columns := []; filter_namespace := "default";
     filter_action := "native"; format_namespace := "default";
     format := "default"; columns_original := []; columns_virtual := [];
     config_filter := None |}.

Definition with_config_filter (v : option string) (c : config) : config :=
  {| page := page c; page_size := page_size c; sort_by := sort_by c;
     sort_mode := sort_mode c; row_selectable := row_selectable c;
     row_index_key := row_index_key c; selected_rows := selected_rows c;
     column_selectable := column_selectable c;
     selected_columns := selected_columns c;
     filter_namespace := filter_namespace c; filter_action := filter_action c;
     format_namespace := format_namespace c; format := format c;
     columns_original := columns_original c;
     columns_virtual := columns_virtual c; config_filter := v |}.

(** The state the constructor hands to the first update, for a
    configuration that gives its columns, as an array or as the object
    of the lists, and for data that comes with its original rows only:
    the rows given as [data.original], empty filtered and virtual tiers,
    an empty memo and both flags set.  A configuration without [columns]
    keeps the default of the constructor, an object without a virtual
    list, on which [updateColumns] throws; a configuration here holds
    its two lists, and [Controller.constructor] says which tables get a
    state. *)
Definition construct (c : config) (h : DashTable.store) (rows : list ref) : state :=
  {| cfg := c; heap := h; original := rows; filtered := []; virtual := [];
     lastVirtualization := None; pendingConfigChange := true;
     pendingHeaderChange := true; invalid := false |}.

(** The dataset of the scenarios: two rows, neither with an identity. *)
Definition row_a : Js.object := [("Name", Js.Str "a"); ("Percentage", Js.Num 0.5)].
Definition row_b : Js.object := [("Name", Js.Str "b"); ("Percentage", Js.Num 0.99)].
Definition dataset : DashTable.store := [row_a; row_b].

(** A table over the dataset with a filter text, with row 1 selected and
    page 3 shown. *)
Definition table (text : option string) : state :=
  construct
    (with_page 3 (with_selected_rows [1%N] (with_config_filter text defaults)))
    dataset [0; 1]%nat.

(** The table filtered by a percentage once, and then given another
    percentage to filter by while page 5 is shown. *)
Definition table_filtered : state :=
  updateData TABLE_FILTERS (table (Some "Percentage > .6")).

Definition table_refiltered : state :=
  with_cfg
    (with_page 5 (with_config_filter (Some "Percentage > .7") (cfg table_filtered)))
    table_filtered.

(** The same table over no rows at all. *)
Definition empty_table (text : option string) : state :=
  construct (with_config_filter text defaults) [] [].

(** A table of 25 rows, all in the virtual tier. *)
Definition table_25 : state :=
  with_virtual (seq 0 25) (construct defaults (repeat row_a 25) (seq 0 25)).

(** A table sorted by column A descending, then column B ascending. *)
Definition column_named (n : string) : column := default_column defaults n.

Definition sorted_table : state :=
  construct
    (with_sort_by
       [{| key := "A"; order := Some "desc" |}; {| key := "B"; order := Some "asc" |}]
       (with_columns_virtual [column_named "A"; column_named "B"] defaults))
    [] [].

(** Three rows named c, a and b, and a sort by name, descending. *)
Definition names : DashTable.store :=
  [[("Name", Js.Str "c")]; [("Name", Js.Str "a")]; [("Name", Js.Str "b")]].

(** Rows named b and a with a row between them that has no name, and a
    sort by name, ascending. *)
Definition names_with_gap : DashTable.store :=
  [[("Name", Js.Str "b")]; []; [("Name", Js.Str "a")]].

Definition table_with_gap : state :=
  construct (with_sort_by [{| key := "Name"; order := Some "asc" |}] defaults)
    names_with_gap [0; 1; 2]%nat.

Definition table_by_name_desc : state :=
  construct (with_sort_by [{| key := "Name"; order := Some "desc" |}] defaults)
    names [0; 1; 2]%nat.

End Examples.

(* ================================================================== *)
(** * Pages, buttons and events                                         *)
(* ================================================================== *)

Module Controller.
Import DashTable.

(** [a.slice(start, end)]: a negative bound counts from the end, and
    both bounds are clamped to the array. *)
Definition slice {A : Type} (start finish : Z) (a : list A) : list A :=
  let len := Z.of_nat (length a) in
  let from := if (start <? 0)%Z then Z.max (len + start) 0
              else Z.min start len in
  let final := if (finish <? 0)%Z then Z.max (len + finish) 0
               else Z.min finish len in
  firstn (Z.to_nat (Z.max (final - from) 0)) (skipn (Z.to_nat from) a).

(** [TableState.getPaginatedItem]: the element of the virtual tier at the
    position, [undefined] ([None]) when there is none. *)
Definition getPaginatedItem (st : state) (index : Z) : option ref :=
  let i := (page (cfg st) * page_size (cfg st) + index)%Z in
  if (i <? 0)%Z then None else nth_error (virtual st) (Z.to_nat i).

(** The rows [TableState.getRows] renders: the slice of the virtual tier
    for the page, where a page size of zero counts as 10. *)
Definition viewableData (st : state) : list ref :=
  let page := page (cfg st) in
  let pageSize := if (page_size (cfg st) =? 0)%Z then 10%Z
                  else page_size (cfg st) in
  let firstRow := (page * pageSize)%Z in
  slice firstRow (firstRow + pageSize) (virtual st).

(** The table shown at another page. *)
Definition at_page (k : Z) (st : state) : state :=
  with_cfg (with_page k (cfg st)) st.

(** The pages of a table: from page 0 to the last page. *)
Definition pages (st : state) : list Z :=
  map Z.of_nat (seq 0 (Z.to_nat (getLastPage st + 1))).

(** [TableState.clickButton]: [isPrev] and [isNext] say whether the
    target carries the class of the previous and of the next button. *)
Definition clickButton (isPrev isNext : bool) (st : state) : state :=
  let page0 := page (cfg st) in
  let page1 :=
    if isPrev && (0 <? page0)%Z then (page0 - 1)%Z
    else if isNext && (page0 <? getLastPage st)%Z then (page0 + 1)%Z
    else page0 in
  if negb (page1 =? page0)%Z
  then with_pendingConfigChange true (with_cfg (with_page page1 (cfg st)) st)
  else st.

(** What [TableState.updatePageIndicator] writes: whether each button is
    disabled, and the numbers of the texts [first-last] and [of total]. *)
Record indicator : Type := {
  prev_disabled : bool;
  next_disabled : bool;
  first_shown : Z;
  last_shown : Z;
  total : Z
}.

Definition updatePageIndicator (st : state) : indicator :=
  let page := page (cfg st) in
  let pageSize := page_size (cfg st) in
  let len := Z.of_nat (length (virtual st)) in
  let first := (page * pageSize + 1)%Z in
  let last := Z.min (first + pageSize - 1) len in
  {| prev_disabled := (page =? 0)%Z;
     next_disabled := (page =? getLastPage st)%Z;
     first_shown := first; last_shown := last; total := len |}.

(** The page shown is a page of the table, or page 0 when the table has
    no page. *)
Definition page_in_range (st : state) : Prop :=
  (0 <= page (cfg st) <= Z.max 0 (getLastPage st))%Z.

(** The virtual tier has as many rows as the filtered tier. *)
Definition tiers_aligned (st : state) : Prop :=
  length (virtual st) = length (filtered st).

(** ** Filter texts *)

(** A text between double quotes. *)
Definition quoted (s : string) : string :=
  String dquote (s ++ String dquote EmptyString)%string.

(** A text without a double quote in it. *)
Fixpoint quote_free (s : string) : bool :=
  match s with
  | EmptyString => true
  | String c r => negb (c =? dquote)%char && quote_free r
  end.

(** A text without white space in it. *)
Fixpoint space_free (s : string) : bool :=
  match s with
  | EmptyString => true
  | String c r => negb (Js.is_space c) && space_free r
  end.

(** A word as one writes it without quotes: not empty, without white
    space, and not starting with a double quote. *)
Definition plain_word (s : string) : bool :=
  match s with
  | EmptyString => false
  | String c _ => negb (c =? dquote)%char && space_free s
  end.

(** The three parts of a filter text, separated by a space. *)
Definition filter_of (k operation value : string) : string :=
  (k ++ " " ++ operation ++ " " ++ value)%string.

(** The test of the default routine on one row, for three tokens. *)
Definition keeps (k operation value : string) (h : store) (item : ref) : bool :=
  match test_item operation (Js.get (deref h item) (strip_quotes k)) value with
  | Some true => true
  | _ => false
  end.

(** ** Columns *)

(** Whether a selected column index stays selected in [updateColumns]:
    the name the column at this index had is among the final names. *)
Definition survives (originalColumns finalColumns : list string)
    (columnIndex : N) : bool :=
  match nth_error originalColumns (N.to_nat columnIndex) with
  | Some name => Array.includes name finalColumns
  | None => false
  end.

(** The names the filtered path of [updateColumns] makes columns of: the
    keys of the first filtered row, and the configured names when there
    is no row or the row has no key. *)
Definition first_row_keys (st : state) : list string :=
  match filtered st with
  | item :: _ =>
      let newColumns := Js.keys (deref (heap st) item) in
      match newColumns with
      | [] => map col_name (columns_original (cfg st))
      | _ => newColumns
      end
  | [] => map col_name (columns_original (cfg st))
  end.

(** The names every object inherits a property by: read from an object
    that has no property of its own by the name, they give the inherited
    value and not [undefined]. *)
Definition inherited_names : list string :=
  ["constructor"; "__proto__"; "hasOwnProperty"; "isPrototypeOf";
   "propertyIsEnumerable"; "toLocaleString"; "toString"; "valueOf";
   "__defineGetter__"; "__defineSetter__"; "__lookupGetter__";
   "__lookupSetter__"].

(** Names that are none of the inherited ones. *)
Definition own_names (names : list string) : Prop :=
  Forall (fun n => Array.includes n inherited_names = false) names.

(** Every reference of a tier points into the store. *)
Definition in_store (h : store) (tier : list ref) : Prop :=
  Forall (fun r => (r < length h)%nat) tier.

(** ** Indices in component ids *)

(** The index of a header or checkbox component, as [getColumns] and
    [getRows] write it: the index of the table, a dash, and the position
    of the column or of the row on the page. *)
Definition make_index (tableIndex : string) (position : N) : string :=
  (tableIndex ++ "-" ++ Array.index_to_string position)%string.

Definition is_decimal_digit (c : ascii) : bool :=
  let n := nat_of_ascii c in ((48 <=? n) && (n <=? 57))%nat.

(** A string of decimal digits. *)
Fixpoint all_digits (s : string) : bool :=
  match s with
  | EmptyString => true
  | String c r => is_decimal_digit c && all_digits r
  end.

(** The last element of the split of a string at the runs of characters
    that are not decimal digits: what follows the last such character. *)
Fixpoint last_field (field : string) (s : string) : string :=
  match s with
  | EmptyString => field
  | String c r =>
      if is_decimal_digit c then last_field (field ++ String c EmptyString)%string r
      else last_field EmptyString r
  end.

(** [parseInt(s)] without a radix, with [None] for [NaN]: white space
    goes, then a sign, then [0x] or [0X] selects base 16, and the longest
    run of digits is the value (exact here; JavaScript rounds an integer
    of more than 53 bits). *)
Definition parseInt (s : string) : option Z :=
  let s := Js.trimStart s in
  let '(negative, s) :=
    match s with
    | String "-" r => (true, r)
    | String "+" r => (false, r)
    | _ => (false, s)
    end in
  let '(radix, s) :=
    match s with
    | String "0" (String "x" r) => (16%Z, r)
    | String "0" (String "X" r) => (16%Z, r)
    | _ => (10%Z, s)
    end in
  match Js.read_digits radix 0 0 s with
  | (_, O, _) => None
  | (v, _, _) => Some (if negative then (- v)%Z else v)
  end.

(** The index an event handler reads from the id of its target. *)
Definition event_index (id_index : string) : option Z :=
  parseInt (last_field EmptyString id_index).

(** [TableState.clickColumn] from the index string of the target: the
    column at a position that is not a number or not in the array is
    [undefined], and reading its name throws. *)
Definition clickColumn_event (id_index : string) (st : state) : option state :=
  match event_index id_index with
  | Some i => if (i <? 0)%Z then None else clickColumn (Z.to_nat i) st
  | None => None
  end.

(** A header clicked several times in a row. *)
Fixpoint clicks (n : nat) (index : nat) (st : state) : option state :=
  match n with
  | O => Some st
  | S n' =>
      match clickColumn index st with
      | Some st' => clicks n' index st'
      | None => None
      end
  end.

(** The sort specification of a state that may be missing. *)
Definition spec_of (st : option state) : option (list sorter) :=
  option_map (fun st' => sort_by (cfg st')) st.

(** ** The constructor *)

(** What a configuration gives as [columns]: an array, of which the
    constructor makes the original list and a copy as the virtual list,
    or an object, which is taken as it is, with the lists it has.  The
    default of the constructor is the object without lists. *)
Inductive columns_given : Type :=
| ColumnsArray (columns : list column)
| ColumnsObject (original virtual : option (list column)).

Definition columns_default : columns_given := ColumnsObject None None.

Definition with_columns (original virtual : list column) (c : config) : config :=
  {| page := page c; page_size := page_size c; sort_by := sort_by c;
     sort_mode := sort_mode c; row_selectable := row_selectable c;
     row_index_key := row_index_key c; selected_rows := selected_rows c;
     column_selectable := column_selectable c;
     selected_columns := selected_columns c;
     filter_namespace := filter_namespace c; filter_action := filter_action c;
     format_namespace := format_namespace c; format := format c;
     columns_original := original; columns_virtual := virtual;
     config_filter := config_filter c |}.

(** The constructor of [TableState] up to its first update, for data
    that comes with its original rows only; [c] holds the rest of the
    configuration.  There is no state ([None]) when the configuration
    has not both lists of columns: reading the list that is missing
    throws a [TypeError], in the constructor or in [updateColumns] during
    the first update, which therefore shows nothing. *)
Definition constructor (given : columns_given) (c : config) (h : store)
    (rows : list ref) : option state :=
  match given with
  | ColumnsArray columns =>
      Some (Examples.construct (with_columns columns columns c) h rows)
  | ColumnsObject (Some original) (Some virtual) =>
      Some (Examples.construct (with_columns original virtual c) h rows)
  | ColumnsObject _ _ => None
  end.

(** ** The update cycle *)

(** The end of [updateData]: the virtual tier becomes a copy of the
    filtered tier, sorted when there is a sort specification. *)
Definition sort_stage (st : state) : state :=
  let st := with_virtual (filtered st) st in
  if negb (length (sort_by (cfg st)) =? 0)%nat
  then sortData (sort_by (cfg st)) st
  else st.

(** A registry whose routine throws on every text. *)
Definition failing : registry :=
  {| reg_default := fun _ _ _ => Throws; reg_namespaces := [] |}.

Section Events.
Variable TABLE_FILTERS : registry.

(** [TableState.update], on the state: the recompute, and each dirty
    flag cleared when its artifact is handed over.  The handing over, the
    page indicator and the highlights write to the page only. *)
Definition update (st : state) : state :=
  let st := updateData TABLE_FILTERS st in
  let st := if pendingConfigChange st
            then with_pendingConfigChange false st else st in
  if pendingHeaderChange st then with_pendingHeaderChange false st else st.

(** [TableState.onFilterChange] with the value of the input. *)
Definition onFilterChange (value : string) (st : state) : state :=
  update
    (with_pendingConfigChange true
       (with_cfg (Examples.with_config_filter (Some value) (cfg st)) st)).

(** [TableState.onClick] on a button. *)
Definition onClick_button (isPrev isNext : bool) (st : state) : state :=
  let st := clickButton isPrev isNext st in
  if pendingConfigChange st || pendingHeaderChange st then update st else st.

(** [TableState.onClick] on a column header. *)
Definition onClick_column (id_index : string) (st : state) : option state :=
  match clickColumn_event id_index st with
  | Some st =>
      Some (if pendingConfigChange st || pendingHeaderChange st
            then update st else st)
  | None => None
  end.

End Events.

(** A table with columns A and B and no sort specification, in
    single-sort mode. *)
Definition unsorted_table : state :=
  Examples.construct
    (with_columns_virtual
       [Examples.column_named "A"; Examples.column_named "B"] Examples.defaults)
    [] [].

(** The table of 25 rows after its first update, then shown at page 2. *)
Definition table_25_at_page_2 : state :=
  at_page 2
    (update TABLE_FILTERS
       (Examples.construct Examples.defaults (repeat Examples.row_a 25) (seq 0 25))).

(** The table filtered once, where the row that passed got its identity,
    with that row selected and another percentage to filter by. *)
Definition table_reselected : state :=
  with_cfg (with_selected_rows [0%N] (cfg Examples.table_refiltered))
    Examples.table_refiltered.

(** The table with both rows in the filtered tier, the second one
    first. *)
Definition table_swapped : state :=
  with_filtered [1; 0]%nat (Examples.table None).

(** The table of 25 rows with a page size of zero. *)
Definition table_25_unpaged : state :=
  with_cfg
    {| page := 0; page_size := 0; sort_by := []; sort_mode := "single";
       row_selectable := Some "multi"; row_index_key := "row_index";
       selected_rows := []; column_selectable := Some "multi";
       selected_columns := []; filter_namespace := "default";
       filter_action := "native"; format_namespace := "default";
       format := "default"; columns_original := []; columns_virtual := [];
       config_filter := None |}
    Examples.table_25.

End Controller.

(* ================================================================== *)
(** * Comparisons                                                       *)
(* ================================================================== *)

Module JsFacts.

Lemma SFltb_asym (x y : spec_float) : SFltb x y = true -> SFltb y x = false.
Proof.
  unfold SFltb, SFcompare.
  destruct x as [sx|sx| |sx mx ex], y as [sy|sy| |sy my ey];
    try destruct sx; try destruct sy; simpl; try congruence.
  - rewrite (Z.compare_antisym ex ey).
    destruct (ex ?= ey)%Z; simpl; try congruence.
    change (PosDef.Pos.compare_cont Eq my mx)
      with (Pos.compare_cont (CompOpp Eq) my mx).
    rewrite <- (Pos.compare_cont_antisym mx my Eq).
    destruct (Pos.compare_cont Eq mx my); simpl; congruence.
  - rewrite (Z.compare_antisym ex ey).
    destruct (ex ?= ey)%Z; simpl; try congruence.
    change (PosDef.Pos.compare_cont Eq my mx)
      with (Pos.compare_cont (CompOpp Eq) my mx).
    rewrite <- (Pos.compare_cont_antisym mx my Eq).
    destruct (Pos.compare_cont Eq mx my); simpl; congruence.
Qed.

Lemma float_ltb_asym (x y : float) :
  (x <? y)%float = true -> (y <? x)%float = false.
Proof. rewrite !ltb_spec. apply SFltb_asym. Qed.

Lemma string_ltb_asym (a b : string) :
  String.ltb a b = true -> String.ltb b a = false.
Proof.
  unfold String.ltb. rewrite (String.compare_antisym a b).
  destruct (String.compare b a); simpl; congruence.
Qed.

(** [x < y] and [y < x] never hold together. *)
Lemma lt_asym (x y : Js.value) : Js.lt x y = true -> Js.lt y x = false.
Proof.
  assert (Hnum : forall a b : float,
             match (if is_nan a || is_nan b then None else Some (a <? b)%float) with
             | Some true => true | _ => false end = true ->
             match (if is_nan b || is_nan a then None else Some (b <? a)%float) with
             | Some true => true | _ => false end = false).
  { intros a b. rewrite (orb_comm (is_nan b)).
    destruct (is_nan a || is_nan b); [discriminate|].
    destruct (a <? b)%float eqn:E; [|discriminate].
    now rewrite (float_ltb_asym _ _ E). }
  unfold Js.lt, Js.IsLessThan.
  destruct x, y; try apply Hnum.
  destruct (String.ltb s s0) eqn:E; [|discriminate].
  now rewrite (string_ltb_asym _ _ E).
Qed.

(** ** Numbers in order *)

Ltac order_cases :=
  repeat match goal with
    | H : context [Z.compare ?a ?b] |- _ =>
        destruct (Z.compare_spec a b); simpl in H; try discriminate H
    | |- context [Z.compare ?a ?b] =>
        destruct (Z.compare_spec a b); simpl
    | H : context [PosDef.Pos.compare_cont Eq ?a ?b] |- _ =>
        change (PosDef.Pos.compare_cont Eq a b) with (Pos.compare a b) in *;
        destruct (Pos.compare_spec a b); simpl in H; try discriminate H
    | |- context [PosDef.Pos.compare_cont Eq ?a ?b] =>
        change (PosDef.Pos.compare_cont Eq a b) with (Pos.compare a b) in *;
        destruct (Pos.compare_spec a b); simpl
    end.

(** Among numbers, none of them [NaN], [z] is not below [x] when it is
    not below [y] and [y] is not below [x]. *)
Lemma SFnlt_trans (x y z : spec_float) :
  x <> S754_nan -> y <> S754_nan -> z <> S754_nan ->
  SFltb y x = false -> SFltb z y = false -> SFltb z x = false.
Proof.
  unfold SFltb, SFcompare.
  destruct x as [sx|sx| |sx mx ex], y as [sy|sy| |sy my ey],
           z as [sz|sz| |sz mz ez];
    simpl; try congruence; intros _ _ _;
    try destruct sx; try destruct sy; try destruct sz; simpl;
    try congruence; intros H1 H2;
    order_cases; subst; try reflexivity; try discriminate; try assumption;
    try lia.
Qed.

Lemma not_nan_spec (x : float) : is_nan x = false -> Prim2SF x <> S754_nan.
Proof.
  unfold is_nan. rewrite eqb_spec. intros H E. rewrite E in H. discriminate.
Qed.

Lemma float_nlt_trans (x y z : float) :
  is_nan x = false -> is_nan y = false -> is_nan z = false ->
  (y <? x)%float = false -> (z <? y)%float = false -> (z <? x)%float = false.
Proof.
  intros Hx Hy Hz. rewrite !ltb_spec.
  apply SFnlt_trans; now apply not_nan_spec.
Qed.

End JsFacts.

(* ================================================================== *)
(** * The sort of arrays                                                *)
(* ================================================================== *)

Module SortFacts.
Import Spec.

Section Insertion.
Context {A : Type} (cmp : A -> A -> Z).

Lemma insert_perm (x : A) (l : list A) :
  Permutation (Array.insert cmp x l) (x :: l).
Proof.
  induction l as [|y r IH]; simpl.
  - reflexivity.
  - destruct (0 <? cmp x y)%Z.
    + rewrite IH. apply perm_swap.
    + reflexivity.
Qed.

Lemma sort_perm (l : list A) : Permutation (Array.sort cmp l) l.
Proof.
  induction l as [|x r IH]; simpl.
  - constructor.
  - rewrite insert_perm. now constructor.
Qed.

Lemma insert_head (x : A) (l : list A) :
  HdRel (not_after cmp) x l -> Array.insert cmp x l = x :: l.
Proof.
  destruct l as [|y r]; simpl; [reflexivity|].
  intros H. apply HdRel_inv in H. unfold not_after in H. now rewrite H.
Qed.

(** An array in which no element is put after its successor is left as
    it is. *)
Lemma sort_sorted_id (l : list A) :
  Sorted (not_after cmp) l -> Array.sort cmp l = l.
Proof.
  induction 1 as [|x l Hs IH Hd]; simpl.
  - reflexivity.
  - rewrite IH. now apply insert_head.
Qed.

Lemma sort_indifferent (l : list A) :
  (forall a b, not_after cmp a b) -> Array.sort cmp l = l.
Proof.
  intros H. apply sort_sorted_id.
  induction l as [|x r IH]; constructor; [assumption|].
  destruct r; constructor. apply H.
Qed.

Lemma before_insert_old (x y z : A) (l : list A) :
  before x y l -> before x y (Array.insert cmp z l).
Proof.
  induction 1 as [l Hy | a l Hb IH]; simpl.
  - destruct (0 <? cmp z x)%Z.
    + apply before_here.
      apply (Permutation_in _ (Permutation_sym (insert_perm z l))). now right.
    + apply before_later. now apply before_here.
  - destruct (0 <? cmp z a)%Z.
    + now apply before_later.
    + apply before_later. now apply before_later.
Qed.

Lemma before_insert_new (x y : A) (l : list A) :
  In y l -> not_after cmp x y -> before x y (Array.insert cmp x l).
Proof.
  induction l as [|a r IH]; simpl; [tauto|].
  intros [->|Hy] Hxy.
  - unfold not_after in Hxy. rewrite Hxy. apply before_here. now left.
  - destruct (0 <? cmp x a)%Z.
    + apply before_later. now apply IH.
    + apply before_here. now right.
Qed.

(** Stability: an element that stands before another one and is not put
    after it by the comparator still stands before it in the result. *)
Lemma sort_stable (x y : A) (l : list A) :
  before x y l -> not_after cmp x y -> before x y (Array.sort cmp l).
Proof.
  induction 1 as [l Hy | a l Hb IH]; simpl; intros Hxy.
  - apply before_insert_new; [|assumption].
    apply (Permutation_in _ (Permutation_sym (sort_perm l))). assumption.
  - apply before_insert_old. now apply IH.
Qed.

(** What the next lemmas ask of the comparator: it never puts two
    elements each strictly after the other. *)
Hypothesis cmp_asym :
  forall a b, (0 <? cmp a b)%Z = true -> (0 <? cmp b a)%Z = false.

Lemma insert_sorted (x : A) (l : list A) :
  Sorted (not_after cmp) l -> Sorted (not_after cmp) (Array.insert cmp x l).
Proof.
  induction 1 as [|y l Hs IH Hd]; simpl.
  - repeat constructor.
  - destruct (0 <? cmp x y)%Z eqn:E.
    + constructor; [assumption|].
      destruct l as [|z r]; simpl in *.
      * constructor. now apply cmp_asym.
      * destruct (0 <? cmp x z)%Z.
        -- constructor. now apply HdRel_inv in Hd.
        -- constructor. now apply cmp_asym.
    + constructor; [now constructor|]. now constructor.
Qed.

Lemma sort_sorted (l : list A) : Sorted (not_after cmp) (Array.sort cmp l).
Proof.
  induction l as [|x r IH]; simpl; [constructor|]. now apply insert_sorted.
Qed.

Lemma sort_idempotent (l : list A) :
  Array.sort cmp (Array.sort cmp l) = Array.sort cmp l.
Proof. apply sort_sorted_id, sort_sorted. Qed.

(** For a total order the sorted arrangement is unique. *)
Hypothesis cmp_trans :
  forall a b c, not_after cmp a b -> not_after cmp b c -> not_after cmp a c.
Hypothesis cmp_eq :
  forall a b, not_after cmp a b -> not_after cmp b a -> a = b.

Lemma sorted_perm_unique (l l' : list A) :
  Sorted (not_after cmp) l -> Sorted (not_after cmp) l' ->
  Permutation l l' -> l = l'.
Proof.
  intros Hl Hl'.
  apply Sorted_StronglySorted in Hl; [|exact cmp_trans].
  apply Sorted_StronglySorted in Hl'; [|exact cmp_trans].
  revert l' Hl'. induction Hl as [|a l Hs IH Ha]; intros l' Hl' Hp.
  - now apply Permutation_nil in Hp.
  - destruct Hl' as [|b l' Hs' Hb].
    + apply Permutation_sym, Permutation_nil in Hp. discriminate.
    + assert (a = b) as <-.
      { assert (Hin : In a (b :: l'))
          by (apply (Permutation_in _ Hp); now left).
        assert (Hin' : In b (a :: l))
          by (apply (Permutation_in _ (Permutation_sym Hp)); now left).
        destruct Hin as [->|Hin]; [reflexivity|].
        destruct Hin' as [->|Hin']; [reflexivity|].
        rewrite Forall_forall in Ha, Hb.
        apply cmp_eq; auto. }
      f_equal. apply IH; [assumption|]. now apply Permutation_cons_inv in Hp.
Qed.

Lemma sort_of_perm (l l' : list A) :
  Permutation l l' -> Array.sort cmp l = Array.sort cmp l'.
Proof.
  intros Hp. apply sorted_perm_unique; try apply sort_sorted.
  rewrite !sort_perm. assumption.
Qed.

End Insertion.

(** ** Consistent comparators *)

Section Consistent.
Context {A : Type} (cmp : A -> A -> Z).

(** The comparator answers with opposite signs for two elements taken in
    the one order and in the other. *)
Hypothesis cmp_antisym : forall a b, cmp b a = (- cmp a b)%Z.

Lemma consistent_incl (l l' : list A) :
  incl l' l -> consistent cmp l -> consistent cmp l'.
Proof. intros Hi Hc a b c Ha Hb Hc'. apply Hc; now apply Hi. Qed.

Lemma not_after_trans (l : list A) (a b c : A) :
  consistent cmp l -> In a l -> In b l -> In c l ->
  not_after cmp a b -> not_after cmp b c -> not_after cmp a c.
Proof.
  unfold not_after. intros Hc Ha Hb Hc'. rewrite !Z.ltb_ge. intros Hab Hbc.
  destruct (Hc a b c Ha Hb Hc') as (_ & _ & Heq & Hlt & _).
  destruct (Hc b c a Hb Hc' Ha) as (_ & _ & _ & Hlt1 & _).
  destruct (Hc c a b Hc' Ha Hb) as (_ & _ & _ & Hlt2 & _).
  pose proof (cmp_antisym a b). pose proof (cmp_antisym b c).
  pose proof (cmp_antisym a c). lia.
Qed.

(** A comparator that never puts a third element after the first when it
    puts neither the second after the first nor the third after the
    second is consistent. *)
Lemma transitive_consistent (l : list A) :
  (forall a b c, In a l -> In b l -> In c l ->
     not_after cmp a b -> not_after cmp b c -> not_after cmp a c) ->
  consistent cmp l.
Proof.
  unfold not_after. intros Ht a b c Ha Hb Hc.
  pose proof (cmp_antisym a a). pose proof (cmp_antisym a b).
  pose proof (cmp_antisym b c). pose proof (cmp_antisym a c).
  pose proof (Ht a b c Ha Hb Hc) as T1. pose proof (Ht c b a Hc Hb Ha) as T2.
  pose proof (Ht b c a Hb Hc Ha) as T3. pose proof (Ht c a b Hc Ha Hb) as T4.
  pose proof (Ht a c b Ha Hc Hb) as T5. pose proof (Ht b a c Hb Ha Hc) as T6.
  rewrite !Z.ltb_ge in *. repeat split; lia.
Qed.

Lemma insert_ordered (l rest : list A) (x : A) :
  consistent cmp l -> In x l -> incl rest l ->
  ordered cmp rest -> ordered cmp (Array.insert cmp x rest).
Proof.
  intros Hc Hx Hi Ho. unfold ordered in *.
  induction Ho as [|y r Hs IH Hy]; simpl.
  - repeat constructor.
  - assert (Hyl : In y l) by (apply Hi; now left).
    assert (Hrl : incl r l) by (intros z Hz; apply Hi; now right).
    destruct (0 <? cmp x y)%Z eqn:E.
    + constructor; [now apply IH|].
      rewrite Forall_forall in *. intros z Hz.
      apply (Permutation_in _ (insert_perm cmp x r)) in Hz.
      destruct Hz as [<-|Hz]; [|now apply Hy].
      unfold not_after. rewrite (cmp_antisym x y). lia.
    + constructor; [now constructor|].
      constructor; [exact E|].
      rewrite Forall_forall in *. intros z Hz.
      apply (not_after_trans l x y z); auto.
Qed.

Lemma sort_ordered_in (l tier : list A) :
  consistent cmp l -> incl tier l -> ordered cmp (Array.sort cmp tier).
Proof.
  intros Hc. induction tier as [|x r IH]; intros Hi; simpl.
  - constructor.
  - apply (insert_ordered l); auto.
    + apply Hi. now left.
    + intros z Hz. apply (Permutation_in _ (sort_perm cmp r)) in Hz.
      apply Hi. now right.
    + apply IH. intros z Hz. apply Hi. now right.
Qed.

(** On a consistent comparator the sort leaves the array ordered. *)
Lemma sort_ordered (l : list A) :
  consistent cmp l -> ordered cmp (Array.sort cmp l).
Proof. intros Hc. apply (sort_ordered_in l); [exact Hc|apply incl_refl]. Qed.

Lemma sort_is_stable (l : list A) : stable cmp l (Array.sort cmp l).
Proof.
  intros a b Hb Hc. apply sort_stable; [exact Hb|].
  unfold not_after. now rewrite Hc.
Qed.

Lemma before_In (a b : A) (l : list A) : before a b l -> In a l /\ In b l.
Proof.
  induction 1 as [l Hy|x l Hb [IHa IHb]]; simpl; auto.
Qed.

Lemma before_either (a b : A) (l : list A) :
  In a l -> In b l -> a <> b -> before a b l \/ before b a l.
Proof.
  induction l as [|x r IH]; simpl; [tauto|].
  intros [->|Ha] [->|Hb] Hne; try congruence.
  - left. now apply before_here.
  - right. now apply before_here.
  - destruct (IH Ha Hb Hne); [left|right]; now apply before_later.
Qed.

Lemma before_once (a b : A) (l : list A) :
  NoDup l -> before a b l -> before b a l -> False.
Proof.
  induction 1 as [|x r Hx Hnd IH]; intros H1 H2.
  - inversion H1.
  - inversion H1 as [? Hb|? ? Hb]; subst; inversion H2 as [? Ha|? ? Ha]; subst.
    + contradiction.
    + apply before_In in Ha. tauto.
    + apply before_In in Hb. tauto.
    + auto.
Qed.

Lemma before_trans (a b c : A) (l : list A) :
  NoDup l -> before a b l -> before b c l -> before a c l.
Proof.
  induction 1 as [|x r Hx Hnd IH]; intros H1 H2.
  - inversion H1.
  - inversion H1 as [? Hb|? ? Hb]; subst; inversion H2 as [? Hc|? ? Hc]; subst.
    + contradiction.
    + apply before_here. apply before_In in Hc. tauto.
    + apply before_In in Hb. tauto.
    + apply before_later. auto.
Qed.

(** In an ordered array the comparator puts no element after one that
    stands behind it. *)
Lemma ordered_before (a b : A) (l : list A) :
  ordered cmp l -> before a b l -> not_after cmp a b.
Proof.
  unfold ordered. induction 1 as [|x r Hs IH Hx]; intros Hb.
  - inversion Hb.
  - inversion Hb as [? Hin|? ? Hb']; subst; [|auto].
    rewrite Forall_forall in Hx. now apply Hx.
Qed.

(** There is one way only to be ordered and stable: whatever sorts
    stably, it returns the same array. *)
Lemma stable_ordered_unique_pair (l1 l2 : list A) :
  NoDup l1 -> Permutation l1 l2 -> ordered cmp l1 -> ordered cmp l2 ->
  (forall a b, a <> b -> cmp a b = 0%Z -> before a b l1 -> before a b l2) ->
  l1 = l2.
Proof.
  unfold ordered. intros Hnd Hp Ho1. revert l2 Hp.
  induction Ho1 as [|x r1 Hs IH Hx]; intros l2 Hp Ho2 Ht.
  - now apply Permutation_nil in Hp.
  - destruct Ho2 as [|y r2 Hs2 Hy].
    + apply Permutation_sym, Permutation_nil in Hp. discriminate.
    + assert (Hnd2 : NoDup (y :: r2)) by (apply (Permutation_NoDup Hp Hnd)).
      inversion Hnd as [|? ? Hxr Hndr]; subst.
      inversion Hnd2 as [|? ? Hyr Hndr2]; subst.
      assert (x = y) as <-.
      { assert (Hxin : In x (y :: r2))
          by (apply (Permutation_in _ Hp); now left).
        assert (Hyin : In y (x :: r1))
          by (apply (Permutation_in _ (Permutation_sym Hp)); now left).
        destruct Hxin as [E|Hxin]; [now symmetry|].
        destruct Hyin as [E|Hyin]; [exact E|].
        exfalso.
        rewrite Forall_forall in Hx, Hy.
        pose proof (Hx y Hyin) as Hxy. pose proof (Hy x Hxin) as Hyx.
        unfold not_after in Hxy, Hyx. rewrite Z.ltb_ge in Hxy, Hyx.
        rewrite (cmp_antisym x y) in Hyx.
        assert (Hne : x <> y) by (intros ->; contradiction).
        assert (Hb : before x y (y :: r2)).
        { apply Ht; [exact Hne|lia|now apply before_here]. }
        inversion Hb as [? Hin|? ? Hb']; subst; [congruence|].
        apply before_In in Hb'. tauto. }
      f_equal. apply IH; auto.
      * now apply Permutation_cons_inv in Hp.
      * intros a b Hne Hc Hb.
        assert (Hb2 : before a b (x :: r2))
          by (apply Ht; auto; now apply before_later).
        inversion Hb2 as [? Hin|? ? Hb']; subst; [|exact Hb'].
        apply before_In in Hb. tauto.
Qed.

Lemma stable_ordered_unique (l l1 l2 : list A) :
  NoDup l -> Permutation l1 l -> Permutation l2 l ->
  ordered cmp l1 -> ordered cmp l2 ->
  stable cmp l l1 -> stable cmp l l2 -> l1 = l2.
Proof.
  intros Hnd Hp1 Hp2 Ho1 Ho2 Hs1 Hs2.
  assert (Hnd1 : NoDup l1) by (apply (Permutation_NoDup (Permutation_sym Hp1) Hnd)).
  apply stable_ordered_unique_pair; auto.
  - now rewrite Hp1, Hp2.
  - intros a b Hne Hc Hb.
    destruct (before_In _ _ _ Hb) as [Ha Hb'].
    apply (Permutation_in _ Hp1) in Ha, Hb'.
    destruct (before_either a b l Ha Hb' Hne) as [H|H]; [now apply Hs2|].
    exfalso. apply (before_once a b l1 Hnd1 Hb). apply Hs1; [exact H|].
    rewrite (cmp_antisym a b). lia.
Qed.

End Consistent.
End SortFacts.

(* ================================================================== *)
(** * Selections                                                        *)
(* ================================================================== *)

Module SelectionFacts.
Import Spec DashTable SortFacts.

Lemma splice_at {A : Type} (k : nat) (l : list A) :
  (k < length l)%nat ->
  Array.splice (Z.of_nat k) 1 l = firstn k l ++ skipn (S k) l.
Proof.
  intros H. unfold Array.splice.
  assert ((Z.of_nat k <? 0)%Z = false) as -> by lia.
  rewrite (Z.min_l (Z.of_nat k)) by lia.
  rewrite (Z.max_l 1 0) by lia.
  rewrite (Z.min_l 1) by lia.
  rewrite Nat2Z.id. replace (Z.to_nat (Z.of_nat k + 1)) with (S k) by lia.
  reflexivity.
Qed.

Lemma splice_all {A : Type} (l : list A) :
  Array.splice 0 (Z.of_nat (length l)) l = [].
Proof.
  unfold Array.splice. change (0 <? 0)%Z with false. cbv iota.
  replace (Z.min 0 (Z.of_nat (length l))) with 0%Z by lia.
  replace (Z.min (Z.max (Z.of_nat (length l)) 0) (Z.of_nat (length l) - 0))
    with (Z.of_nat (length l)) by lia.
  simpl. rewrite Nat2Z.id. apply skipn_all.
Qed.

Lemma splice_last {A : Type} (l : list A) :
  Array.splice (-1) 1 l = removelast l.
Proof.
  unfold Array.splice. change (-1 <? 0)%Z with true. cbv iota.
  destruct l as [|a r _] using rev_ind; [reflexivity|].
  rewrite removelast_last, length_app. simpl length.
  replace (Z.max (Z.of_nat (length r + 1) + -1) 0)
    with (Z.of_nat (length r)) by lia.
  replace (Z.min (Z.max 1 0) (Z.of_nat (length r + 1) - Z.of_nat (length r)))
    with 1%Z by lia.
  rewrite Nat2Z.id.
  replace (Z.to_nat (Z.of_nat (length r) + 1)) with (length r + 1)%nat by lia.
  rewrite firstn_app, Nat.sub_diag, firstn_all. simpl firstn. rewrite app_nil_r.
  rewrite skipn_all2; [apply app_nil_r|]. rewrite length_app. simpl. lia.
Qed.

Lemma findIndex_Some {A : Type} (p : A -> bool) (l : list A) (k : nat) :
  Array.findIndex p l = Some k ->
  exists x, nth_error l k = Some x /\ p x = true
            /\ forall y, In y (firstn k l) -> p y = false.
Proof.
  revert k. induction l as [|a r IH]; simpl; intros k H; [discriminate|].
  destruct (p a) eqn:E.
  - injection H as <-. exists a. simpl. tauto.
  - destruct (Array.findIndex p r) as [i|]; [|discriminate].
    injection H as <-. destruct (IH i eq_refl) as (x & Hn & Hp & Hf).
    exists x. simpl. repeat split; auto.
    intros y [<-|Hy]; auto.
Qed.

Lemma findIndex_None {A : Type} (p : A -> bool) (l : list A) :
  Array.findIndex p l = None <-> forall y, In y l -> p y = false.
Proof.
  induction l as [|a r IH]; simpl.
  - split; [tauto|reflexivity].
  - destruct (p a) eqn:E.
    + split; [discriminate|]. intros H. rewrite (H a) in E by auto. discriminate.
    + destruct (Array.findIndex p r).
      * split; [discriminate|]. intros H.
        assert (Some n = None) by (apply IH; auto). discriminate.
      * split; [|reflexivity]. intros _ y [<-|Hy]; auto. now apply IH.
Qed.

Lemma indexOf_Some (x : N) (l : list N) (k : nat) :
  Array.indexOf x l = Some k ->
  (k < length l)%nat /\ l = firstn k l ++ x :: skipn (S k) l
  /\ ~ In x (firstn k l).
Proof.
  intros H. apply findIndex_Some in H. destruct H as (y & Hn & Hp & Hf).
  apply N.eqb_eq in Hp. subst y.
  split; [apply nth_error_Some; congruence|]. split.
  - clear Hf. revert k Hn.
    induction l as [|a r IH]; intros [|k] Hn; simpl in *; try discriminate.
    + now injection Hn as ->.
    + f_equal. now apply IH.
  - intros Hin. apply Hf in Hin. rewrite N.eqb_refl in Hin. discriminate.
Qed.

Lemma indexOf_None (x : N) (l : list N) :
  Array.indexOf x l = None <-> ~ In x l.
Proof.
  unfold Array.indexOf. rewrite findIndex_None. split.
  - intros H Hin. apply H in Hin. rewrite N.eqb_refl in Hin. discriminate.
  - intros H y Hy. apply N.eqb_neq. congruence.
Qed.

(** ** The order of [sort()] on indices *)

Lemma compare_same (a b : string) : String.compare a b = String_as_OT.compare a b.
Proof. revert b; induction a; destruct b; simpl; auto. Qed.

Lemma index_to_string_inj (x y : N) :
  Array.index_to_string x = Array.index_to_string y -> x = y.
Proof.
  unfold Array.index_to_string. intros H.
  assert (E : Some (N.to_uint x) = Some (N.to_uint y)).
  { rewrite <- !NilEmpty.usu. now rewrite H. }
  injection E as E.
  rewrite <- (Unsigned.of_to x), <- (Unsigned.of_to y). now rewrite E.
Qed.

(** The default comparator puts [x] strictly after [y] exactly when the
    digits of [y] come before the digits of [x]. *)
Lemma SortCompare_pos (x y : N) :
  (0 <? Array.SortCompare x y)%Z
  = String.ltb (Array.index_to_string y) (Array.index_to_string x).
Proof.
  unfold Array.SortCompare, String.ltb.
  rewrite (String.compare_antisym (Array.index_to_string x)).
  destruct (String.compare (Array.index_to_string y) (Array.index_to_string x));
    reflexivity.
Qed.

Lemma SortCompare_asym (a b : N) :
  (0 <? Array.SortCompare a b)%Z = true -> (0 <? Array.SortCompare b a)%Z = false.
Proof.
  rewrite !SortCompare_pos. apply JsFacts.string_ltb_asym.
Qed.

Lemma string_ltb_false (a b : string) :
  String.ltb b a = false <-> (String_as_OT.lt a b \/ a = b).
Proof.
  unfold String.ltb. rewrite compare_same.
  destruct (String_as_OT.compare_spec b a) as [E|E|E]; split;
    try congruence; auto.
  intros [H| ->]; exfalso.
  - eapply (StrictOrder_Irreflexive a). now transitivity b.
  - now apply (StrictOrder_Irreflexive b).
Qed.

Lemma SortCompare_trans (a b c : N) :
  not_after Array.SortCompare a b -> not_after Array.SortCompare b c ->
  not_after Array.SortCompare a c.
Proof.
  unfold not_after. rewrite !SortCompare_pos, !string_ltb_false.
  intros [H1|H1] [H2|H2]; try (rewrite H1 in *); try (rewrite <- H2 in *); auto.
  left. now transitivity (Array.index_to_string b).
Qed.

Lemma SortCompare_eq (a b : N) :
  not_after Array.SortCompare a b -> not_after Array.SortCompare b a -> a = b.
Proof.
  unfold not_after. rewrite !SortCompare_pos, !string_ltb_false.
  intros [H1|H1] [H2|H2]; try (now apply index_to_string_inj).
  exfalso. eapply (StrictOrder_Irreflexive (Array.index_to_string a)).
  now transitivity (Array.index_to_string b).
Qed.

Lemma default_sort_perm (l : list N) :
  Permutation (Array.sort Array.SortCompare l) l.
Proof. apply sort_perm. Qed.

Lemma default_sort_of_perm (l l' : list N) :
  Permutation l l' ->
  Array.sort Array.SortCompare l = Array.sort Array.SortCompare l'.
Proof.
  apply sort_of_perm.
  - exact SortCompare_asym.
  - exact SortCompare_trans.
  - exact SortCompare_eq.
Qed.

(** ** One toggle *)

Lemma toggle_present (sel : list N) (i : N) (mode : option string) (k : nat) :
  Array.indexOf i sel = Some k ->
  updateSelections sel i mode
  = Array.sort Array.SortCompare (firstn k sel ++ skipn (S k) sel).
Proof.
  intros H. unfold updateSelections. rewrite H.
  rewrite splice_at; [reflexivity|]. now apply indexOf_Some in H.
Qed.

Lemma toggle_absent_multi (sel : list N) (i : N) (mode : option string) :
  multi_mode mode -> ~ In i sel ->
  updateSelections sel i mode = Array.sort Array.SortCompare (sel ++ [i]).
Proof.
  intros Hm H. apply indexOf_None in H. unfold updateSelections. rewrite H.
  destruct Hm as [-> | ->]; reflexivity.
Qed.

Lemma toggle_absent_single (sel : list N) (i : N) :
  ~ In i sel -> updateSelections sel i (Some "single") = [i].
Proof.
  intros H. apply indexOf_None in H. unfold updateSelections. rewrite H.
  simpl negb. cbv iota. rewrite splice_all. reflexivity.
Qed.

(** ** Two toggles *)

(** In multi mode two toggles give the sort of a rearrangement of a
    duplicate-free set. *)
Lemma toggle_twice_multi (sel : list N) (i : N) (mode : option string) :
  multi_mode mode -> NoDup sel ->
  exists rearranged,
    Permutation rearranged sel
    /\ toggle_twice sel i mode = Array.sort Array.SortCompare rearranged.
Proof.
  intros Hm Hnd. unfold toggle_twice.
  destruct (Array.indexOf i sel) as [k|] eqn:E.
  - rewrite (toggle_present _ _ _ _ E).
    apply indexOf_Some in E. destruct E as (Hk & Hsel & Hfirst).
    assert (Hperm : Permutation (i :: firstn k sel ++ skipn (S k) sel) sel).
    { rewrite Permutation_middle, <- Hsel. reflexivity. }
    set (rest := firstn k sel ++ skipn (S k) sel) in *.
    assert (Hnot : ~ In i rest).
    { intros Hin. apply (Permutation_NoDup (Permutation_sym Hperm)) in Hnd.
      inversion Hnd; contradiction. }
    rewrite toggle_absent_multi; [|assumption|].
    + exists (Array.sort Array.SortCompare rest ++ [i]). split; [|reflexivity].
      rewrite default_sort_perm, <- Hperm. symmetry. apply Permutation_cons_append.
    + intros Hin. apply Hnot. now apply (Permutation_in _ (default_sort_perm rest)).
  - apply indexOf_None in E.
    rewrite (toggle_absent_multi _ _ _ Hm E).
    set (once := Array.sort Array.SortCompare (sel ++ [i])).
    assert (Hin : In i once).
    { apply (Permutation_in _ (Permutation_sym (default_sort_perm _))).
      apply in_or_app. right. now left. }
    destruct (Array.indexOf i once) as [k|] eqn:E'.
    + rewrite (toggle_present _ _ _ _ E').
      apply indexOf_Some in E'. destruct E' as (Hk & Honce & _).
      exists (firstn k once ++ skipn (S k) once). split; [|reflexivity].
      apply (Permutation_cons_inv (a := i)).
      rewrite Permutation_middle, <- Honce. unfold once.
      rewrite default_sort_perm. symmetry. apply Permutation_cons_append.
    + apply indexOf_None in E'. contradiction.
Qed.

(** In single mode two toggles leave the toggled index alone when it
    was selected, and nothing when it was not. *)
Lemma toggle_twice_single (sel : list N) (i : N) :
  NoDup sel ->
  toggle_twice sel i (Some "single")
  = match Array.indexOf i sel with Some _ => [i] | None => [] end.
Proof.
  intros Hnd. unfold toggle_twice.
  destruct (Array.indexOf i sel) as [k|] eqn:E.
  - rewrite (toggle_present _ _ _ _ E).
    apply indexOf_Some in E. destruct E as (Hk & Hsel & Hfirst).
    apply toggle_absent_single. intros Hin.
    apply (Permutation_in _ (default_sort_perm _)) in Hin.
    rewrite Hsel in Hnd. apply NoDup_remove_2 in Hnd. contradiction.
  - apply indexOf_None in E. rewrite (toggle_absent_single _ _ E).
    assert (Hi : Array.indexOf i [i] = Some 0%nat).
    { unfold Array.indexOf. cbn [Array.findIndex]. now rewrite N.eqb_refl. }
    now rewrite (toggle_present _ _ _ _ Hi).
Qed.

(** C8, as amended.  For a selection without duplicates, two toggles of
    the same index in multi mode give back the same indices, and the very
    same array when it was in the order the toggle leaves; in single mode
    they give back the selection exactly when it was empty or held the
    toggled index alone. *)
Theorem toggle_twice_restores (sel : list N) (i : N) (mode : option string) :
  NoDup sel ->
  (multi_mode mode ->
     Permutation (toggle_twice sel i mode) sel
     /\ (Array.sort Array.SortCompare sel = sel -> toggle_twice sel i mode = sel))
  /\ (single_mode mode ->
     (toggle_twice sel i mode = sel <-> sel = [] \/ sel = [i])).
Proof.
  intros Hnd. split.
  - intros Hm. destruct (toggle_twice_multi sel i mode Hm Hnd) as (x & Hp & ->).
    split.
    + now rewrite default_sort_perm.
    + intros <-. now apply default_sort_of_perm.
  - intros ->. rewrite (toggle_twice_single _ _ Hnd).
    destruct (Array.indexOf i sel) as [k|] eqn:E.
    + split; [intros <-; now right|].
      intros [-> | ->]; [discriminate|reflexivity].
    + apply indexOf_None in E. split; [intros <-; now left|].
      intros [-> | ->]; [reflexivity|]. exfalso. apply E. now left.
Qed.

(** The amended C8 at work: the indices 1, 10 and 2, in the order the
    toggle leaves, and index 10 toggled twice in multi mode. *)
Lemma toggle_twice_restores_witness :
  toggle_twice [1; 10; 2]%N 10%N (Some "multi") = [1; 10; 2]%N.
Proof.
  destruct (toggle_twice_restores [1; 10; 2]%N 10%N (Some "multi")) as [Hmulti _].
  - repeat constructor; simpl; intuition discriminate.
  - destruct Hmulti as [_ Hsame].
    + right. reflexivity.
    + apply Hsame. reflexivity.
Defined.

(** C8 as stated fails in single mode: with row 1 selected, row 2
    toggled twice leaves nothing selected. *)
Lemma toggle_twice_single_loses_selection :
  toggle_twice [1%N] 2%N (Some "single") = [].
Proof. reflexivity. Qed.

(** C9.  After every toggle the selection is in the order of the
    decimal digits of its indices, which is not the ascending order:
    index 10 toggled into the selection of index 2 comes first, where
    the claim has it last. *)
Theorem toggle_orders_by_digits (sel : list N) (i : N) (mode : option string) :
  Sorted (not_after Array.SortCompare) (updateSelections sel i mode)
  /\ not_after Array.SortCompare 10%N 2%N
  /\ updateSelections [2%N] 10%N (Some "multi") = [10%N; 2%N].
Proof.
  repeat apply conj; try reflexivity.
  unfold updateSelections. apply sort_sorted. exact SortCompare_asym.
Qed.

End SelectionFacts.

(* ================================================================== *)
(** * Pagination                                                        *)
(* ================================================================== *)

Module PageFacts.
Import DashTable.

Lemma to_int32_small (z : Z) : (- 2 ^ 31 <= z < 2 ^ 31)%Z -> to_int32 z = z.
Proof. intros H. unfold to_int32. rewrite Z.mod_small; lia. Qed.

(** With rows in the virtual tier, a positive page size and a quotient
    within 32 bits, the last page is the number of pages minus one. *)
Lemma getLastPage_nonempty (st : state) :
  let n := Z.of_nat (length (virtual st)) in
  let p := page_size (cfg st) in
  (0 < p)%Z -> (0 < n)%Z -> (n / p < 2 ^ 31)%Z ->
  getLastPage st = ((n + p - 1) / p - 1)%Z.
Proof.
  cbv zeta. intros Hp Hn Hq. unfold getLastPage.
  set (n := Z.of_nat (length (virtual st))) in *.
  set (p := page_size (cfg st)) in *.
  assert ((p =? 0)%Z = false) as -> by lia. simpl orb.
  rewrite Z.rem_mod_nonneg by lia. rewrite Z.quot_div_nonneg by lia.
  assert (Hdiv : (0 <= n / p)%Z) by (apply Z.div_pos; lia).
  rewrite to_int32_small by lia.
  pose proof (Z.div_mod n p ltac:(lia)) as Hnm.
  pose proof (Z.mod_pos_bound n p Hp) as Hb.
  destruct (n =? p)%Z eqn:Enp.
  - apply Z.eqb_eq in Enp. rewrite Enp, Z.mod_same by lia. simpl.
    replace (p + p - 1)%Z with (1 * p + (p - 1))%Z by lia.
    rewrite Z.div_add_l by lia. rewrite Z.div_small by lia. reflexivity.
  - destruct (n mod p =? 0)%Z eqn:Er; simpl.
    + apply Z.eqb_eq in Er.
      replace (n + p - 1)%Z with (n / p * p + (p - 1))%Z by lia.
      rewrite Z.div_add_l by lia. rewrite (Z.div_small (p - 1)) by lia. lia.
    + apply Z.eqb_neq in Er.
      replace (n + p - 1)%Z with ((n / p + 1) * p + (n mod p - 1))%Z by lia.
      rewrite Z.div_add_l by lia.
      rewrite (Z.div_small (n mod p - 1)) by lia. lia.
Qed.

Lemma getLastPage_empty_rows (st : state) :
  virtual st = [] -> page_size (cfg st) <> 0%Z -> getLastPage st = (-1)%Z.
Proof.
  intros Hv Hp. unfold getLastPage. rewrite Hv. simpl length. simpl Z.of_nat.
  assert ((0 =? page_size (cfg st))%Z = false) as -> by lia.
  assert ((page_size (cfg st) =? 0)%Z = false) as -> by lia.
  rewrite Z.quot_0_l by assumption. rewrite Z.rem_0_l by assumption.
  reflexivity.
Qed.

(** Page size 10 and 25 rows: the last page is page 2. *)
Example getLastPage_25_rows : getLastPage Examples.table_25 = 2%Z.
Proof. reflexivity. Qed.

(** C3 on an empty virtual tier: for every page size other than zero the
    last page is -1, where the claim has 0. *)
Theorem getLastPage_empty_tier (st : state) :
  virtual st = [] -> page_size (cfg st) <> 0%Z -> getLastPage st = (-1)%Z.
Proof.
  intros Hv Hp. unfold getLastPage. rewrite Hv. simpl length. simpl Z.of_nat.
  assert ((0 =? page_size (cfg st))%Z = false) as -> by lia.
  assert ((page_size (cfg st) =? 0)%Z = false) as -> by lia.
  rewrite Z.quot_0_l by assumption. rewrite Z.rem_0_l by assumption.
  reflexivity.
Qed.

(** The table without rows, ten rows to a page. *)
Lemma getLastPage_empty_tier_witness :
  getLastPage (Examples.empty_table None) = (-1)%Z.
Proof.
  apply (getLastPage_empty_tier (Examples.empty_table None)).
  - reflexivity.
  - discriminate.
Defined.

End PageFacts.

(* ================================================================== *)
(** * Clicks on column headers                                          *)
(* ================================================================== *)

Module ClickFacts.
Import Spec DashTable SelectionFacts.

Section Click.
Variables (st : state) (index : nat) (col : column).
Hypothesis Hcol : nth_error (columns_virtual (cfg st)) index = Some col.

(** A column that is in the specification with an order other than desc:
    its first entry gets order desc, at its place. *)
Lemma clickColumn_asc (i : nat) (s : sorter) :
  found st col = Some i -> nth_error (sort_by (cfg st)) i = Some s ->
  order s <> Some "desc" ->
  clicked st index = Some (firstn i (sort_by (cfg st))
                    ++ {| key := key s; order := Some "desc" |}
                    :: skipn (S i) (sort_by (cfg st))).
Proof.
  unfold found, clicked. intros Hf Hs Ho. unfold clickColumn.
  rewrite Hcol, Hf, Hs.
  destruct (order s) as [o|]; [|reflexivity].
  destruct (o =? "desc")%string eqn:E; [|reflexivity].
  apply String.eqb_eq in E. congruence.
Qed.

(** A column that is not in the specification: one ascending entry, alone
    in single-sort mode and appended otherwise. *)
Lemma clickColumn_absent :
  found st col = None ->
  clicked st index = Some ((if (sort_mode (cfg st) =? "single")%string then []
                   else sort_by (cfg st))
                    ++ [{| key := col_name col; order := Some "asc" |}]).
Proof.
  unfold found, clicked. intros Hf. unfold clickColumn. rewrite Hcol, Hf.
  destruct (sort_mode (cfg st) =? "single")%string; simpl; [|reflexivity].
  now rewrite splice_all.
Qed.

(** C4 on a column that is in the specification with order desc: the
    last entry of the specification goes, whichever column it sorts,
    where the claim has the entry of the clicked column go. *)
Theorem clickColumn_desc_drops_last (i : nat) (s : sorter) :
  found st col = Some i -> nth_error (sort_by (cfg st)) i = Some s ->
  order s = Some "desc" ->
  clicked st index = Some (removelast (sort_by (cfg st))).
Proof.
  unfold found, clicked. intros Hf Hs Ho. unfold clickColumn.
  rewrite Hcol, Hf, Hs, Ho. simpl. now rewrite splice_last.
Qed.

End Click.

(** Sorted by A descending and then B ascending, a click on A leaves A
    and drops B. *)
Lemma clickColumn_desc_drops_last_witness :
  clicked Examples.sorted_table 0 = Some [{| key := "A"; order := Some "desc" |}].
Proof.
  apply (clickColumn_desc_drops_last Examples.sorted_table 0
           (Examples.column_named "A") eq_refl 0
           {| key := "A"; order := Some "desc" |});
    reflexivity.
Defined.

End ClickFacts.

(* ================================================================== *)
(** * The default filter routine                                        *)
(* ================================================================== *)

Module FilterFacts.
Import Spec DashTable.

Lemma test_item_unknown (operation : string) (field : Js.value) (value : string) :
  known_operation operation = false -> test_item operation field value = None.
Proof.
  unfold known_operation, test_item. simpl.
  repeat match goal with
    | |- context [(operation =? ?s)%string] => destruct (operation =? s)%string
    end; simpl; congruence.
Qed.

Lemma test_item_known (operation : string) (field : Js.value) (value : string) :
  known_operation operation = true -> test_item operation field value <> None.
Proof.
  unfold known_operation, test_item. simpl.
  repeat match goal with
    | |- context [(operation =? ?s)%string] => destruct (operation =? s)%string
    end; simpl; congruence.
Qed.

(** No token at all: reading the length of [null] throws. *)
Lemma default_no_token (filter : string) (h : store) (data : list ref) :
  match_tokens filter = None -> TABLE_FILTERS_default filter h data = Throws.
Proof. unfold TABLE_FILTERS_default. now intros ->. Qed.

(** A number of tokens other than three throws. *)
Lemma default_token_count (filter : string) (splits : list string)
    (h : store) (data : list ref) :
  match_tokens filter = Some splits -> length splits <> 3%nat ->
  TABLE_FILTERS_default filter h data = Throws.
Proof.
  unfold TABLE_FILTERS_default. intros -> Hlen.
  destruct (length splits <? 3)%nat eqn:E1; [reflexivity|].
  destruct (3 <? length splits)%nat eqn:E2; [reflexivity|].
  apply Nat.ltb_ge in E1, E2. lia.
Qed.

(** Three tokens: the rows are tested one by one against the value
    token, on the field the key token names once its quotes are off. *)
Lemma default_three_tokens (filter k operation value : string)
    (h : store) (data : list ref) :
  match_tokens filter = Some [k; operation; value] ->
  TABLE_FILTERS_default filter h data =
    match Array.filter
            (fun item => test_item operation
                           (Js.get (deref h item) (strip_quotes k)) value)
            data with
    | Some result => Returns h result
    | None => Throws
    end.
Proof. unfold TABLE_FILTERS_default. now intros ->. Qed.

(** An operation outside the grammar throws as soon as there is a row to
    test. *)
Lemma default_unknown_operation (filter k operation value : string)
    (h : store) (item : ref) (data : list ref) :
  match_tokens filter = Some [k; operation; value] ->
  known_operation operation = false ->
  TABLE_FILTERS_default filter h (item :: data) = Throws.
Proof.
  intros Ht Hop. rewrite (default_three_tokens _ _ _ _ _ _ Ht). simpl.
  now rewrite test_item_unknown.
Qed.

(** An operation of the grammar never throws. *)
Lemma default_known_operation (filter k operation value : string)
    (h : store) (data : list ref) :
  match_tokens filter = Some [k; operation; value] ->
  known_operation operation = true ->
  TABLE_FILTERS_default filter h data <> Throws.
Proof.
  intros Ht Hop. rewrite (default_three_tokens _ _ _ _ _ _ Ht).
  induction data as [|item rest IH]; simpl; [discriminate|].
  destruct (test_item operation _ value) as [b|] eqn:E.
  - destruct (Array.filter _ rest); [discriminate|]. apply IH.
  - exfalso. revert E. now apply test_item_known.
Qed.

(** Scenario A: of the two rows, the filter keeps row b, untouched. *)
Example default_percentage_above :
  TABLE_FILTERS_default "Percentage > .6" Examples.dataset [0; 1]%nat
  = Returns Examples.dataset [1%nat]
  /\ rows Examples.dataset [1%nat] = [Examples.row_b].
Proof. split; vm_compute; reflexivity. Qed.

(** Four tokens, and three tokens with an operation outside the grammar,
    on the two rows. *)
Example default_garbage :
  TABLE_FILTERS_default "garbage token count x" Examples.dataset [0; 1]%nat = Throws
  /\ TABLE_FILTERS_default "garbage token count" Examples.dataset [0; 1]%nat = Throws.
Proof. split; vm_compute; reflexivity. Qed.

(** C6 on a dataset without rows: three tokens never throw there,
    whatever the operation token is, where the claim has an operation
    outside the grammar fail. *)
Theorem default_empty_dataset (filter k operation value : string) (h : store) :
  match_tokens filter = Some [k; operation; value] ->
  TABLE_FILTERS_default filter h [] = Returns h [].
Proof. intros Ht. now rewrite (default_three_tokens _ _ _ _ _ _ Ht). Qed.

(** The operation [~] on no rows. *)
Lemma default_empty_dataset_witness :
  known_operation "~" = false
  /\ TABLE_FILTERS_default "Name ~ a" [] [] = Returns [] [].
Proof.
  split; [reflexivity|].
  apply (default_empty_dataset "Name ~ a" "Name" "~" "a" []). reflexivity.
Defined.

End FilterFacts.

(* ================================================================== *)
(** * The order of rows                                                 *)
(* ================================================================== *)

Module RowOrder.
Import Spec DashTable SelectionFacts.

Lemma compare_rows_nil (a b : Js.object) : compare_rows [] a b = 0%Z.
Proof. reflexivity. Qed.

(** The first key decides when the rows differ on it, by its order; the
    next keys are asked when they do not. *)
Lemma compare_rows_cons (s : sorter) (rest : list sorter) (a b : Js.object) :
  compare_rows (s :: rest) a b =
    if Js.lt (Js.get a (key s)) (Js.get b (key s))
    then (if ascending s then -1 else 1)%Z
    else if Js.gt (Js.get a (key s)) (Js.get b (key s))
    then (if ascending s then 1 else -1)%Z
    else compare_rows rest a b.
Proof.
  unfold ascending. simpl.
  destruct (order s) as [[|c o]|]; reflexivity.
Qed.

Lemma compare_rows_antisym (sortBy : list sorter) (a b : Js.object) :
  compare_rows sortBy b a = (- compare_rows sortBy a b)%Z.
Proof.
  induction sortBy as [|s rest IH]; [reflexivity|].
  rewrite !compare_rows_cons. unfold Js.gt.
  destruct (Js.lt (Js.get a (key s)) (Js.get b (key s))) eqn:E1.
  - rewrite (JsFacts.lt_asym _ _ E1). destruct (ascending s); reflexivity.
  - destruct (Js.lt (Js.get b (key s)) (Js.get a (key s))) eqn:E2.
    + destruct (ascending s); reflexivity.
    + exact IH.
Qed.

Lemma compare_refs_asym (sortBy : list sorter) (h : store) (a b : ref) :
  (0 <? compare_rows sortBy (deref h a) (deref h b))%Z = true ->
  (0 <? compare_rows sortBy (deref h b) (deref h a))%Z = false.
Proof. rewrite (compare_rows_antisym sortBy (deref h a)). lia. Qed.

(** ** Values that compare *)

Lemma lt_number (x y : Js.value) :
  is_number x = true -> is_number y = true ->
  Js.lt x y = (Js.ToNumber x <? Js.ToNumber y)%float.
Proof.
  unfold is_number, Js.lt, Js.IsLessThan.
  destruct x, y; try discriminate; intros Hx Hy;
    apply negb_true_iff in Hx, Hy; rewrite ?Hx, ?Hy; simpl orb;
    cbv iota; now destruct (_ <? _)%float.
Qed.

Lemma number_nlt_trans (x y z : Js.value) :
  is_number x = true -> is_number y = true -> is_number z = true ->
  Js.lt y x = false -> Js.lt z y = false -> Js.lt z x = false.
Proof.
  intros Hx Hy Hz. rewrite !lt_number by assumption.
  unfold is_number in *.
  apply JsFacts.float_nlt_trans.
  - destruct x; try discriminate; now apply negb_true_iff in Hx.
  - destruct y; try discriminate; now apply negb_true_iff in Hy.
  - destruct z; try discriminate; now apply negb_true_iff in Hz.
Qed.

Lemma string_nlt_trans (x y z : Js.value) :
  is_string x = true -> is_string y = true -> is_string z = true ->
  Js.lt y x = false -> Js.lt z y = false -> Js.lt z x = false.
Proof.
  destruct x as [| |bx|fx|a], y as [| |by'|fy|b], z as [| |bz|fz|c];
    try discriminate.
  intros _ _ _. unfold Js.lt, Js.IsLessThan.
  assert (Hb : forall u v, match Some (String.ltb u v) with
                           | Some true => true | _ => false end
                           = String.ltb u v)
    by (intros u v; now destruct (String.ltb u v)).
  rewrite !Hb, !SelectionFacts.string_ltb_false.
  intros [H1|H1] [H2|H2]; try (rewrite H1 in *); try (rewrite <- H2 in *); auto.
  left. now transitivity b.
Qed.

(** Under a key that all rows carry strings or all carry numbers, the
    values of three rows are in order when they are so two by two. *)
Lemma column_nlt_trans (h : store) (tier : list ref) (k : string) (a b c : ref) :
  comparable_column h tier k = true -> In a tier -> In b tier -> In c tier ->
  Js.lt (Js.get (deref h b) k) (Js.get (deref h a) k) = false ->
  Js.lt (Js.get (deref h c) k) (Js.get (deref h b) k) = false ->
  Js.lt (Js.get (deref h c) k) (Js.get (deref h a) k) = false.
Proof.
  unfold comparable_column. intros H Ha Hb Hc.
  apply orb_true_iff in H. destruct H as [H|H]; rewrite forallb_forall in H.
  - apply string_nlt_trans; now apply H.
  - apply number_nlt_trans; now apply H.
Qed.

(** ** The comparator on comparable columns *)

Ltac by_order :=
  match goal with
  | T : false = false -> false = false -> true = false |- _ =>
      discriminate (T eq_refl eq_refl)
  | E1 : Js.lt ?x ?y = true, E2 : Js.lt ?y ?x = true |- _ =>
      rewrite (JsFacts.lt_asym _ _ E1) in E2; discriminate E2
  end.

(** The comparator of a sort specification never puts a third row after
    the first when it puts neither the second after the first nor the
    third after the second, on rows whose columns compare. *)
Lemma compare_refs_trans (h : store) (tier : list ref) (sortBy : list sorter)
    (a b c : ref) :
  comparable_columns h tier sortBy = true ->
  In a tier -> In b tier -> In c tier ->
  not_after (compare_refs sortBy h) a b ->
  not_after (compare_refs sortBy h) b c ->
  not_after (compare_refs sortBy h) a c.
Proof.
  unfold not_after, compare_refs. intros Hcols Ha Hb Hc.
  induction sortBy as [|s rest IH]; [reflexivity|].
  simpl in Hcols. apply andb_true_iff in Hcols. destruct Hcols as [Hcol Hrest].
  specialize (IH Hrest).
  rewrite !compare_rows_cons. unfold Js.gt.
  pose proof (column_nlt_trans h tier (key s) a b c Hcol Ha Hb Hc) as T1.
  pose proof (column_nlt_trans h tier (key s) a c b Hcol Ha Hc Hb) as T2.
  pose proof (column_nlt_trans h tier (key s) b a c Hcol Hb Ha Hc) as T3.
  pose proof (column_nlt_trans h tier (key s) b c a Hcol Hb Hc Ha) as T4.
  pose proof (column_nlt_trans h tier (key s) c a b Hcol Hc Ha Hb) as T5.
  pose proof (column_nlt_trans h tier (key s) c b a Hcol Hc Hb Ha) as T6.
  set (va := Js.get (deref h a) (key s)) in *.
  set (vb := Js.get (deref h b) (key s)) in *.
  set (vc := Js.get (deref h c) (key s)) in *.
  destruct (Js.lt va vb) eqn:Eab; destruct (Js.lt vb va) eqn:Eba;
    destruct (Js.lt vb vc) eqn:Ebc; destruct (Js.lt vc vb) eqn:Ecb;
    destruct (Js.lt va vc) eqn:Eac; destruct (Js.lt vc va) eqn:Eca;
    try by_order; destruct (ascending s); simpl;
    intros H1 H2; try discriminate H1; try discriminate H2;
    try reflexivity; try by_order; auto.
Qed.

(** On such rows the comparator is consistent. *)
Lemma comparable_consistent (h : store) (tier : list ref) (sortBy : list sorter) :
  comparable_columns h tier sortBy = true ->
  consistent (compare_refs sortBy h) tier.
Proof.
  intros Hcols. apply SortFacts.transitive_consistent.
  - intros a b. apply compare_rows_antisym.
  - intros a b c. now apply compare_refs_trans.
Qed.

(** Names c, a, b sorted by name, descending: rows c, b, a. *)
Example sort_by_name_desc :
  virtual (updateData TABLE_FILTERS Examples.table_by_name_desc) = [0; 2; 1]%nat.
Proof. reflexivity. Qed.

End RowOrder.

(* ================================================================== *)
(** * The recompute cycle                                               *)
(* ================================================================== *)

Module PipelineFacts.
Import Spec DashTable.

Ltac open_updateColumns :=
  unfold updateColumns; cbn [negb fst snd];
  repeat match goal with
    | |- context [let '(_, _) := ?e in _] => destruct e as [? ?]
    | |- context [if ?b then _ else _] => destruct b
    end; simpl.

(** What [updateColumns] leaves alone. *)
Lemma updateColumns_frame (b : bool) (st : state) :
  let st' := updateColumns b st in
  original st' = original st /\ filtered st' = filtered st
  /\ virtual st' = virtual st /\ invalid st' = invalid st
  /\ lastVirtualization st' = lastVirtualization st
  /\ page (cfg st') = page (cfg st) /\ sort_by (cfg st') = sort_by (cfg st)
  /\ config_filter (cfg st') = config_filter (cfg st)
  /\ row_index_key (cfg st') = row_index_key (cfg st).
Proof. destruct b; open_updateColumns; repeat split; reflexivity. Qed.

(** On the unfiltered path identity counts as preserved: the store and
    the selected rows stay, and the configuration is not marked. *)
Lemma updateColumns_original (st : state) :
  let st' := updateColumns true st in
  heap st' = heap st /\ selected_rows (cfg st') = selected_rows (cfg st)
  /\ pendingConfigChange st' = pendingConfigChange st.
Proof. open_updateColumns; repeat split; reflexivity. Qed.

Lemma scan_filtered_not_preserved (h : store) (k : string) (tier : list ref) :
  first_row_lacks_identity h k tier ->
  snd (fst (scan_filtered h k tier)) = false.
Proof.
  destruct tier as [|item rest]; simpl; [reflexivity|].
  intros ->. reflexivity.
Qed.

(** On the filtered path, a first row without the identity key empties
    the selected rows and marks the configuration. *)
Lemma updateColumns_not_preserved (st : state) :
  first_row_lacks_identity (heap st) (row_index_key (cfg st)) (filtered st) ->
  let st' := updateColumns false st in
  selected_rows (cfg st') = [] /\ pendingConfigChange st' = true.
Proof.
  intros H. apply scan_filtered_not_preserved in H.
  unfold updateColumns.
  destruct (scan_filtered (heap st) (row_index_key (cfg st)) (filtered st))
    as [[newColumns preserved] h]. simpl in H. subst preserved.
  cbn [negb].
  repeat match goal with
    | |- context [let '(_, _) := ?e in _] => destruct e as [? ?]
    | |- context [if ?b then _ else _] => destruct b
    end; simpl; split; reflexivity.
Qed.

Local Arguments updateColumns : simpl never.

Section Recompute.
Variable reg : registry.

Ltac frame b s :=
  let H := fresh "Hframe" in
  pose proof (updateColumns_frame b s) as H; cbv zeta in H;
  destruct H as (? & ? & ? & ? & ? & ? & ? & ? & ?).

(** The page reset at the end of the filter stage. *)
Lemma filter_pass_page (filter newFilter : string)
    (newSort : list (string * option string)) (st : state) :
  let st' := filter_pass reg filter newFilter newSort st in
  (length (filtered st') <> length (filtered st) ->
     page (cfg st') = 0%Z /\ pendingConfigChange st' = true)
  /\ (length (filtered st') = length (filtered st) ->
     page (cfg st') = page (cfg st)).
Proof.
  cbv zeta. unfold filter_pass.
  destruct (if (filter =? "")%string then _ else _)
    as [[st1 useOriginal] nf] eqn:E.
  assert (Hpage : page (cfg st1) = page (cfg st)).
  { destruct (filter =? "")%string.
    - injection E as <- _ _. reflexivity.
    - destruct (resolve_filter _ _ _ _ _ _); injection E as <- _ _; reflexivity. }
  frame useOriginal st1.
  destruct (negb (length (filtered st)
                  =? length (filtered (updateColumns useOriginal st1)))%nat) eqn:C;
    simpl.
  - split; [auto|]. intros Hlen. rewrite Hlen, Nat.eqb_refl in C. discriminate.
  - split.
    + intros Hlen. apply negb_false_iff, Nat.eqb_eq in C. congruence.
    + intros _. congruence.
Qed.

(** Empty text: the filtered tier is a copy of the original one, the
    store and the selected rows stay, and the input is not marked. *)
Lemma filter_pass_empty (newFilter : string)
    (newSort : list (string * option string)) (st : state) :
  let st' := filter_pass reg "" newFilter newSort st in
  filtered st' = original st /\ original st' = original st
  /\ heap st' = heap st /\ invalid st' = false
  /\ selected_rows (cfg st') = selected_rows (cfg st)
  /\ row_index_key (cfg st') = row_index_key (cfg st).
Proof.
  cbv zeta. unfold filter_pass. simpl (("" =? "")%string). cbv iota beta.
  set (st1 := with_invalid false (with_filtered (original st) st)).
  frame true st1.
  destruct (updateColumns_original st1) as (Hh & Hs & _).
  unfold st1 in *. simpl in *.
  destruct (negb _); simpl; repeat split; congruence.
Qed.

(** The routine throws: the same copy, and the input is marked. *)
Lemma filter_pass_throws (filter newFilter : string)
    (newSort : list (string * option string)) (st : state) :
  filter <> "" ->
  configured reg st filter (heap st) (original st) = Throws ->
  let st' := filter_pass reg filter newFilter newSort st in
  filtered st' = original st /\ original st' = original st
  /\ heap st' = heap st /\ invalid st' = true
  /\ selected_rows (cfg st') = selected_rows (cfg st)
  /\ lastVirtualization st' = Some ("", newSort).
Proof.
  intros Hne Hthrow. cbv zeta. unfold filter_pass.
  apply String.eqb_neq in Hne. rewrite Hne.
  unfold configured in Hthrow. rewrite Hthrow.
  set (st1 := with_invalid true (with_filtered (original st) st)).
  frame true st1.
  destruct (updateColumns_original st1) as (Hh & Hs & _).
  unfold st1 in *. simpl in *.
  destruct (negb _); simpl; repeat split; congruence.
Qed.

(** The routine returns: its result is the filtered tier, and when the
    first row does not carry the identity key the selected rows go. *)
Lemma filter_pass_returns (filter newFilter : string)
    (newSort : list (string * option string)) (st : state)
    (h : store) (result : list ref) :
  filter <> "" ->
  configured reg st filter (heap st) (original st) = Returns h result ->
  let st' := filter_pass reg filter newFilter newSort st in
  filtered st' = result /\ invalid st' = false
  /\ lastVirtualization st' = Some (filter, newSort)
  /\ (first_row_lacks_identity h (row_index_key (cfg st)) result ->
      selected_rows (cfg st') = [] /\ pendingConfigChange st' = true).
Proof.
  intros Hne Hret. cbv zeta. unfold filter_pass.
  apply String.eqb_neq in Hne. rewrite Hne.
  unfold configured in Hret. rewrite Hret.
  set (st1 := with_invalid false (with_filtered result (with_heap h st))).
  frame false st1.
  pose proof (updateColumns_not_preserved st1) as Hnp. cbv zeta in Hnp.
  unfold st1 in *. simpl in *.
  destruct (negb _); simpl;
    (split; [congruence|]); (split; [congruence|]); (split; [congruence|]);
    intros Hl; apply Hnp in Hl; destruct Hl as [Hl1 Hl2];
    (split; [exact Hl1 | try reflexivity; exact Hl2]).
Qed.

(** The sort stage touches the virtual tier only, which becomes the
    filtered tier, sorted when there is a sort specification. *)
Lemma updateData_stages (st : state) :
  let mid := after_filter reg st in
  let st' := updateData reg st in
  cfg st' = cfg mid /\ heap st' = heap mid /\ original st' = original mid
  /\ filtered st' = filtered mid /\ invalid st' = invalid mid
  /\ pendingConfigChange st' = pendingConfigChange mid
  /\ virtual st' =
       if negb (length (sort_by (cfg mid)) =? 0)%nat
       then Array.sort
              (fun a b => compare_rows (sort_by (cfg mid))
                            (deref (heap mid) a) (deref (heap mid) b))
              (filtered mid)
       else filtered mid.
Proof.
  cbv zeta. unfold updateData. fold (filter_text st). fold (trimmed st).
  fold (after_filter reg st). set (mid := after_filter reg st).
  destruct (negb (length (sort_by (cfg (with_virtual (filtered mid) mid))) =? 0)%nat)
    eqn:E; simpl in E; rewrite E; repeat split; reflexivity.
Qed.

End Recompute.
End PipelineFacts.

(* ================================================================== *)
(** * Properties of the recompute cycle                                 *)
(* ================================================================== *)

Module Recompute.
Import Spec DashTable PipelineFacts.

Section Cycle.
Variable reg : registry.

(** C10.  A recompute that changes the length of the filtered tier shows
    page 0 and marks the configuration; one that keeps the length keeps
    the page. *)
Theorem page_reset_on_length_change (st : state) :
  let st' := updateData reg st in
  (length (filtered st') <> length (filtered st) ->
     page (cfg st') = 0%Z /\ pendingConfigChange st' = true)
  /\ (length (filtered st') = length (filtered st) ->
     page (cfg st') = page (cfg st)).
Proof.
  cbv zeta.
  destruct (updateData_stages reg st) as (Hc & _ & _ & Hf & _ & Hp & _).
  rewrite Hc, Hf, Hp. unfold after_filter.
  destruct (filter_changed st (trimmed st)).
  - apply filter_pass_page.
  - split; [intros H; now contradiction H|reflexivity].
Qed.

(** C7, as amended.  On a filter pass in which the configured routine
    returned the filtered tier, and the first row of what it returned
    does not carry the identity key (or it returned no row), the selected
    rows are empty after the recompute, whatever they were, and the
    configuration is marked.  On a pass with a blank text, and on a pass
    in which the routine threw, identity counts as preserved and the
    selected rows stay as they were, whether or not the first filtered
    row carries the key. *)
Theorem selection_cleared_when_identity_lost (st : state) :
  filter_changed st (trimmed st) = true ->
  let st' := updateData reg st in
  (forall h result,
      trimmed st <> "" ->
      configured reg st (trimmed st) (heap st) (original st) = Returns h result ->
      first_row_lacks_identity h (row_index_key (cfg st)) result ->
      selected_rows (cfg st') = [] /\ pendingConfigChange st' = true)
  /\ (trimmed st = "" -> selected_rows (cfg st') = selected_rows (cfg st))
  /\ (trimmed st <> "" ->
      configured reg st (trimmed st) (heap st) (original st) = Throws ->
      selected_rows (cfg st') = selected_rows (cfg st)).
Proof.
  intros Hgate. cbv zeta.
  destruct (updateData_stages reg st) as (Hc & _ & _ & _ & _ & Hp & _).
  rewrite Hc, Hp. unfold after_filter. rewrite Hgate.
  repeat apply conj.
  - intros h result Hne Hret Hlack.
    now apply (filter_pass_returns reg _ _ _ _ h result Hne Hret).
  - intros ->.
    now destruct (filter_pass_empty reg (filter_text st)
                    (map (fun s => (key s, order s)) (sort_by (cfg st))) st)
      as (_ & _ & _ & _ & H & _).
  - intros Hne Hthrow.
    now destruct (filter_pass_throws reg (trimmed st) (filter_text st)
                    (map (fun s => (key s, order s)) (sort_by (cfg st))) st
                    Hne Hthrow)
      as (_ & _ & _ & _ & H & _).
Qed.

(** X24.  When the text is not empty once trimmed, the filter stage runs
    and the configured routine throws on the text, the recompute takes
    the exception for an answer: it ends with the filtered tier a copy of
    the original one over an unchanged store, the selected rows as they
    were, and the input marked invalid. *)
Theorem fallback_when_filter_throws (st : state) :
  trimmed st <> "" ->
  filter_changed st (trimmed st) = true ->
  configured reg st (trimmed st) (heap st) (original st) = Throws ->
  let st' := updateData reg st in
  filtered st' = original st
  /\ heap st' = heap st
  /\ rows (heap st') (filtered st') = rows (heap st) (original st)
  /\ original st' = original st
  /\ selected_rows (cfg st') = selected_rows (cfg st)
  /\ invalid st' = true.
Proof.
  intros Hne Hgate Hthrow. cbv zeta.
  destruct (updateData_stages reg st) as (Hc & Hh & Ho & Hf & Hi & _).
  rewrite Hc, Hh, Ho, Hf, Hi. unfold after_filter. rewrite Hgate.
  destruct (filter_pass_throws reg (trimmed st) (filter_text st)
              (map (fun s => (key s, order s)) (sort_by (cfg st))) st Hne Hthrow)
    as (H1 & H2 & H3 & H4 & H5 & _).
  rewrite H1, H2, H3, H4, H5. repeat split; reflexivity.
Qed.

(** C2, as amended.  When the text is empty once trimmed and the filter
    stage runs, the filtered tier is a copy of the original one over an
    unchanged store: the rows are equal by value and every row keeps the
    identity it has in the dataset, which is its position when the
    dataset came with positions as identities. *)
Theorem unfiltered_copy_keeps_identity (st : state) :
  trimmed st = "" ->
  filter_changed st (trimmed st) = true ->
  let st' := updateData reg st in
  filtered st' = original st
  /\ heap st' = heap st
  /\ rows (heap st') (filtered st') = rows (heap st) (original st)
  /\ (forall r, identity st' r = identity st r)
  /\ ((forall i r, nth_error (original st) i = Some r ->
         identity st r = Js.Num (Js.of_Z (Z.of_nat i))) ->
      forall i r, nth_error (filtered st') i = Some r ->
         identity st' r = Js.Num (Js.of_Z (Z.of_nat i))).
Proof.
  intros Hempty Hgate. cbv zeta.
  destruct (updateData_stages reg st) as (Hc & Hh & _ & Hf & _).
  unfold identity. rewrite Hc, Hh, Hf. unfold after_filter.
  rewrite Hgate, Hempty.
  destruct (filter_pass_empty reg (filter_text st)
              (map (fun s => (key s, order s)) (sort_by (cfg st))) st)
    as (H1 & _ & H3 & _ & _ & H6).
  rewrite H1, H3, H6. repeat split; auto.
Qed.

(** The default routine throws on a text that does not parse, as long
    as there is a row for the operation to be looked at. *)
Lemma default_throws_unparsed (filter : string) (h : store) (data : list ref) :
  match match_tokens filter with
  | Some [k; operation; value] =>
      known_operation operation = false /\ data <> []
  | _ => True
  end ->
  TABLE_FILTERS_default filter h data = Throws.
Proof.
  destruct (match_tokens filter) as [splits|] eqn:E;
    [|intros _; now apply FilterFacts.default_no_token].
  destruct splits as [|k [|operation [|value [|extra more]]]];
    try (intros _; apply (FilterFacts.default_token_count _ _ _ _ E);
         simpl; lia).
  intros [Hop Hdata]. destruct data as [|item rest]; [congruence|].
  now apply (FilterFacts.default_unknown_operation _ _ _ _ _ _ _ E).
Qed.

(** X25.  With the default routine configured, a text that is not blank
    and does not parse under its grammar (the tokens are not three, or
    the middle one is no operation and the dataset has a row) is answered
    by the fallback: the filtered tier is a copy of the original one over
    an unchanged store, the selected rows stay, and the input is marked
    invalid. *)
Theorem unparsed_text_falls_back (st : state) :
  configured reg st = TABLE_FILTERS_default ->
  trimmed st <> "" ->
  filter_changed st (trimmed st) = true ->
  match match_tokens (trimmed st) with
  | Some [k; operation; value] =>
      known_operation operation = false /\ original st <> []
  | _ => True
  end ->
  let st' := updateData reg st in
  filtered st' = original st
  /\ heap st' = heap st
  /\ selected_rows (cfg st') = selected_rows (cfg st)
  /\ invalid st' = true.
Proof.
  intros Hdef Hne Hgate Hbad. cbv zeta.
  assert (Hthrow : configured reg st (trimmed st) (heap st) (original st) = Throws)
    by (rewrite Hdef; now apply default_throws_unparsed).
  destruct (updateData_stages reg st) as (Hc & Hh & _ & Hf & Hi & _).
  rewrite Hc, Hh, Hf, Hi. unfold after_filter. rewrite Hgate.
  destruct (filter_pass_throws reg (trimmed st) (filter_text st)
              (map (fun s => (key s, order s)) (sort_by (cfg st))) st Hne Hthrow)
    as (H1 & _ & H3 & H4 & H5 & _).
  repeat split; assumption.
Qed.

(** C1 on a dataset without rows.  With the default routine configured,
    a text of three tokens whose middle token is no operation of the
    grammar does not parse, but the routine looks at the operation only
    when it tests a row (the defect of C6): without rows it returns, and
    the recompute takes the empty result for an answer.  The input is
    not marked invalid, and identity does not count as preserved: the
    selected rows go and the configuration is marked. *)
Theorem unparsed_text_unmarked_without_rows
    (st : state) (k operation value : string) :
  configured reg st = TABLE_FILTERS_default ->
  filter_changed st (trimmed st) = true ->
  match_tokens (trimmed st) = Some [k; operation; value] ->
  known_operation operation = false ->
  original st = [] ->
  let st' := updateData reg st in
  invalid st' = false
  /\ filtered st' = []
  /\ selected_rows (cfg st') = []
  /\ pendingConfigChange st' = true.
Proof.
  intros Hdef Hgate Htok _ Hdata. cbv zeta.
  assert (Hne : trimmed st <> "").
  { intros E. rewrite E in Htok. discriminate Htok. }
  assert (Hret : configured reg st (trimmed st) (heap st) (original st)
                 = Returns (heap st) []).
  { rewrite Hdef, Hdata.
    now rewrite (FilterFacts.default_three_tokens _ _ _ _ _ _ Htok). }
  destruct (updateData_stages reg st) as (Hc & _ & _ & Hf & Hi & Hp & _).
  rewrite Hc, Hf, Hi, Hp. unfold after_filter. rewrite Hgate.
  destruct (filter_pass_returns reg (trimmed st) (filter_text st)
              (map (fun s => (key s, order s)) (sort_by (cfg st))) st
              (heap st) [] Hne Hret) as (H1 & H2 & _ & H4).
  destruct (H4 I) as [H5 H6]. repeat split; assumption.
Qed.

End Cycle.

(** The first filter brings the filtered tier from no row to one row:
    page 3 gives way to page 0.  The second filter keeps the one row,
    and page 5 stays. *)
Example page_reset_by_first_filter :
  length (filtered Examples.table_filtered) = 1%nat
  /\ page (cfg Examples.table_filtered) = 0%Z
  /\ pendingConfigChange Examples.table_filtered = true.
Proof. repeat split. Qed.

Example page_kept_by_second_filter :
  length (filtered (updateData TABLE_FILTERS Examples.table_refiltered)) = 1%nat
  /\ page (cfg (updateData TABLE_FILTERS Examples.table_refiltered)) = 5%Z.
Proof. split; vm_compute; reflexivity. Qed.

(** The routine hands back the row objects of the original tier, so the
    identity written on the filtered row shows through the original
    tier as well. *)
Example identity_reaches_original_tier :
  rows (heap Examples.table_filtered) (original Examples.table_filtered)
  = [Examples.row_a; Examples.row_b ++ [("row_index", Js.Num (Js.of_Z 0))]].
Proof. vm_compute. reflexivity. Qed.

(** The two rows filtered by percentage: row b alone is left, it carries
    no identity yet, and the selection of row 1 goes. *)
Lemma selection_cleared_when_identity_lost_witness :
  selected_rows (cfg (updateData TABLE_FILTERS (Examples.table (Some "Percentage > .6")))) = []
  /\ pendingConfigChange (updateData TABLE_FILTERS (Examples.table (Some "Percentage > .6"))) = true.
Proof.
  destruct (selection_cleared_when_identity_lost TABLE_FILTERS
              (Examples.table (Some "Percentage > .6")) eq_refl)
    as (Hreturned & _ & _).
  apply (Hreturned Examples.dataset [1%nat]).
  - discriminate.
  - vm_compute. reflexivity.
  - reflexivity.
Defined.

(** C7 as stated fails on the passes that take the original rows.  With
    an empty text, and with a text the routine throws on, the filter
    stage runs and the first filtered row carries no identity; the
    selection of row 1 stays. *)
Lemma selection_kept_without_identity :
  let blank := updateData TABLE_FILTERS (Examples.table (Some "")) in
  let failed :=
    updateData TABLE_FILTERS (Examples.table (Some "garbage token count")) in
  filter_changed (Examples.table (Some "")) "" = true
  /\ first_row_lacks_identity (heap blank) "row_index" (filtered blank)
  /\ selected_rows (cfg blank) = [1%N]
  /\ filter_changed (Examples.table (Some "garbage token count"))
       "garbage token count" = true
  /\ first_row_lacks_identity (heap failed) "row_index" (filtered failed)
  /\ selected_rows (cfg failed) = [1%N]
  /\ selected_rows (cfg blank) <> [] /\ selected_rows (cfg failed) <> [].
Proof. cbv zeta. repeat split; discriminate. Qed.

(** Scenario B on the two rows: three tokens, the middle one no
    operation of the grammar. *)
Lemma fallback_when_filter_throws_witness :
  let st' := updateData TABLE_FILTERS (Examples.table (Some "garbage token count")) in
  filtered st' = [0; 1]%nat
  /\ heap st' = Examples.dataset
  /\ rows (heap st') (filtered st') = [Examples.row_a; Examples.row_b]
  /\ original st' = [0; 1]%nat
  /\ selected_rows (cfg st') = [1%N]
  /\ invalid st' = true.
Proof.
  apply (fallback_when_filter_throws TABLE_FILTERS
           (Examples.table (Some "garbage token count"))).
  - discriminate.
  - reflexivity.
  - vm_compute. reflexivity.
Defined.

(** A text of spaces is no filter: it has no token, and the default
    routine would throw on it, but the recompute does not ask the
    routine and leaves the input unmarked. *)
Example blank_filter_is_not_marked_invalid :
  match_tokens "   " = None
  /\ TABLE_FILTERS_default "   " Examples.dataset [0; 1]%nat = Throws
  /\ TABLE_FILTERS_default (Js.trim "   ") Examples.dataset [0; 1]%nat = Throws
  /\ invalid (updateData TABLE_FILTERS (Examples.table (Some "   "))) = false.
Proof. repeat split. Qed.

(** The text [garbage token], of two tokens, on the two rows. *)
Lemma unparsed_text_falls_back_witness :
  let st' := updateData TABLE_FILTERS (Examples.table (Some "garbage token")) in
  filtered st' = [0; 1]%nat
  /\ heap st' = Examples.dataset
  /\ selected_rows (cfg st') = [1%N]
  /\ invalid st' = true.
Proof.
  apply (unparsed_text_falls_back TABLE_FILTERS
           (Examples.table (Some "garbage token"))).
  - reflexivity.
  - discriminate.
  - reflexivity.
  - exact I.
Defined.

(** The text [Name ~ a] typed into the table without rows. *)
Lemma unparsed_text_unmarked_without_rows_witness :
  let st' := updateData TABLE_FILTERS (Examples.empty_table (Some "Name ~ a")) in
  invalid st' = false
  /\ filtered st' = []
  /\ selected_rows (cfg st') = []
  /\ pendingConfigChange st' = true.
Proof.
  apply (unparsed_text_unmarked_without_rows TABLE_FILTERS
           (Examples.empty_table (Some "Name ~ a")) "Name" "~" "a").
  - reflexivity.
  - reflexivity.
  - reflexivity.
  - reflexivity.
  - reflexivity.
Defined.

(** The two rows under an empty filter text. *)
Lemma unfiltered_copy_keeps_identity_witness :
  let st := Examples.table (Some "") in
  let st' := updateData TABLE_FILTERS st in
  filtered st' = original st
  /\ heap st' = heap st
  /\ rows (heap st') (filtered st') = rows (heap st) (original st)
  /\ (forall r, identity st' r = identity st r)
  /\ ((forall i r, nth_error (original st) i = Some r ->
         identity st r = Js.Num (Js.of_Z (Z.of_nat i))) ->
      forall i r, nth_error (filtered st') i = Some r ->
         identity st' r = Js.Num (Js.of_Z (Z.of_nat i))).
Proof.
  apply (unfiltered_copy_keeps_identity TABLE_FILTERS (Examples.table (Some ""))).
  - reflexivity.
  - reflexivity.
Defined.

(** C2 as stated fails on the two rows: after the recompute with an
    empty text the rows are those of the dataset, and their identities
    are [undefined], not their positions 0 and 1. *)
Lemma unfiltered_rows_get_no_identity :
  let st' := updateData TABLE_FILTERS (Examples.table (Some "")) in
  rows (heap st') (filtered st') = [Examples.row_a; Examples.row_b]
  /\ map (identity st') (filtered st') = [Js.Undefined; Js.Undefined]
  /\ map (identity st') (filtered st')
     <> [Js.Num (Js.of_Z 0); Js.Num (Js.of_Z 1)].
Proof. repeat split. discriminate. Qed.

End Recompute.

(* ================================================================== *)
(** * The sort stage                                                    *)
(* ================================================================== *)

Module SortStage.
Import Spec DashTable SortFacts RowOrder PipelineFacts.

(** The comparator [sortData] hands to [sort], on references. *)
Lemma sortData_virtual (sortBy : list sorter) (st : state) :
  virtual (sortData sortBy st)
  = Array.sort
      (fun a b => compare_rows sortBy (deref (heap st) a) (deref (heap st) b))
      (virtual st).
Proof. reflexivity. Qed.

Lemma sortData_twice (sortBy : list sorter) (st : state) :
  sortData sortBy (sortData sortBy st) = sortData sortBy st.
Proof.
  unfold sortData, with_virtual. simpl. f_equal.
  apply sort_idempotent. intros a b. apply compare_refs_asym.
Qed.

(** After a recompute the sort stage has nothing left to do. *)
Lemma updateData_sorted (reg : registry) (st : state) :
  virtual (sortData (sort_by (cfg (updateData reg st))) (updateData reg st))
  = virtual (updateData reg st).
Proof.
  rewrite sortData_virtual.
  destruct (updateData_stages reg st) as (Hc & Hh & _ & _ & _ & _ & Hv).
  rewrite Hv, Hc, Hh.
  destruct (sort_by (cfg (after_filter reg st))) as [|s rest] eqn:E; simpl negb;
    cbv iota.
  - apply sort_indifferent. intros a b. reflexivity.
  - apply sort_idempotent. intros a b. apply compare_refs_asym.
Qed.

(** What the sort stage of a recompute leaves in the virtual tier. *)
Lemma updateData_virtual (reg : registry) (st : state) :
  let st' := updateData reg st in
  virtual st' =
    if negb (length (sort_by (cfg st')) =? 0)%nat
    then Array.sort
           (fun a b => compare_rows (sort_by (cfg st'))
                         (deref (heap st') a) (deref (heap st') b))
           (filtered st')
    else filtered st'.
Proof.
  cbv zeta.
  destruct (updateData_stages reg st) as (Hc & Hh & _ & Hf & _ & _ & Hv).
  now rewrite Hv, Hc, Hh, Hf.
Qed.

(** In every case the virtual tier is what the sort makes of the
    filtered tier: without a sort specification the comparator answers 0
    throughout and the sort moves nothing. *)
Lemma updateData_virtual_sort (reg : registry) (st : state) :
  let st' := updateData reg st in
  virtual st'
  = Array.sort (compare_refs (sort_by (cfg st')) (heap st')) (filtered st').
Proof.
  cbv zeta. rewrite updateData_virtual.
  destruct (sort_by (cfg (updateData reg st))) as [|s rest]; [|reflexivity].
  simpl negb. cbv iota. symmetry. apply sort_indifferent.
  intros a b. reflexivity.
Qed.

(** C5, as amended.  After a recompute the virtual tier is a permutation
    of the filtered tier, which is as the filter stage left it and which
    the sort does not reorder.  When the
    comparator of the specification is consistent on the filtered rows,
    the virtual tier is ordered by it, rows that compare equal keep the
    order they have in the filtered tier, sorting again by the same
    specification changes nothing, and, the filtered tier holding no row
    twice, no other permutation of it is ordered and keeps that order:
    whatever sorts stably returns this array.  The comparator is
    consistent when under every key of the specification the filtered
    rows all carry strings or all carry numbers.  It answers 0 when no
    key is left, and otherwise lets the first key decide by its order
    when the rows differ on it and asks the next keys when they do
    not. *)
Theorem sort_stage_orders_consistent_rows (reg : registry) (st : state) :
  let st' := updateData reg st in
  let spec := sort_by (cfg st') in
  let cmp := compare_refs spec (heap st') in
  Permutation (virtual st') (filtered st')
  /\ filtered st' = filtered (after_filter reg st)
  /\ filtered (sortData spec st') = filtered st'
  /\ (consistent cmp (filtered st') ->
      ordered cmp (virtual st')
      /\ stable cmp (filtered st') (virtual st')
      /\ virtual (sortData spec st') = virtual st'
      /\ (NoDup (filtered st') ->
          forall l, Permutation l (filtered st') -> ordered cmp l ->
                    stable cmp (filtered st') l -> l = virtual st'))
  /\ (comparable_columns (heap st') (filtered st') spec = true ->
      consistent cmp (filtered st'))
  /\ (forall a b, compare_rows [] a b = 0%Z)
  /\ (forall s rest a b,
        compare_rows (s :: rest) a b =
          if Js.lt (Js.get a (key s)) (Js.get b (key s))
          then (if ascending s then -1 else 1)%Z
          else if Js.gt (Js.get a (key s)) (Js.get b (key s))
          then (if ascending s then 1 else -1)%Z
          else compare_rows rest a b).
Proof.
  cbv zeta.
  pose proof (updateData_virtual_sort reg st) as Hv. cbv zeta in Hv.
  assert (Hanti : forall a b,
             compare_refs (sort_by (cfg (updateData reg st)))
               (heap (updateData reg st)) b a
             = (- compare_refs (sort_by (cfg (updateData reg st)))
                    (heap (updateData reg st)) a b)%Z)
    by (intros a b; apply compare_rows_antisym).
  repeat apply conj.
  - rewrite Hv. apply sort_perm.
  - now destruct (updateData_stages reg st) as (_ & _ & _ & Hf & _).
  - reflexivity.
  - intros Hc. repeat apply conj.
    + rewrite Hv. now apply sort_ordered.
    + rewrite Hv. apply sort_is_stable.
    + apply updateData_sorted.
    + intros Hnd l Hp Ho Hs. rewrite Hv.
      apply (stable_ordered_unique _ Hanti (filtered (updateData reg st)));
        auto.
      * apply sort_perm.
      * now apply sort_ordered.
      * apply sort_is_stable.
  - apply comparable_consistent.
  - apply compare_rows_nil.
  - apply compare_rows_cons.
Qed.

(** The names c, a and b sorted by name, descending: the rows all carry
    a string, and the virtual tier holds them as c, b, a. *)
Lemma sort_stage_orders_consistent_rows_witness :
  let st' := updateData TABLE_FILTERS Examples.table_by_name_desc in
  let cmp := compare_refs (sort_by (cfg st')) (heap st') in
  virtual st' = [0; 2; 1]%nat
  /\ ordered cmp (virtual st')
  /\ stable cmp (filtered st') (virtual st').
Proof.
  cbv zeta.
  destruct (sort_stage_orders_consistent_rows TABLE_FILTERS
              Examples.table_by_name_desc) as (_ & _ & _ & Hsorted & Hcols & _).
  destruct (Hsorted (Hcols eq_refl)) as (Ho & Hs & _).
  repeat split; assumption.
Defined.

(** C5 as stated fails on a row without the key.  Sorted by name, the
    rows b, nameless, a stay as they are, since the nameless row compares
    equal to both its neighbours; yet the name decides between row a and
    row b, and puts row a first.  No arrangement of the three rows at
    all is ordered by the comparator and keeps the rows that compare
    equal in their order. *)
Lemma row_without_key_breaks_order :
  let st' := updateData TABLE_FILTERS Examples.table_with_gap in
  let cmp := compare_refs (sort_by (cfg st')) (heap st') in
  virtual st' = [0; 1; 2]%nat
  /\ cmp 2%nat 0%nat = (-1)%Z
  /\ cmp 0%nat 1%nat = 0%Z /\ cmp 1%nat 2%nat = 0%Z
  /\ ~ ordered cmp (virtual st')
  /\ ~ consistent cmp (filtered st')
  /\ ~ (exists l, Permutation l (filtered st') /\ ordered cmp l
                  /\ stable cmp (filtered st') l).
Proof.
  cbv zeta. repeat apply conj; try reflexivity.
  - intros H. inversion H as [|x l _ Hall]; subst.
    inversion Hall as [|y l' _ Hall']; subst.
    inversion Hall' as [|z l'' Hz _]; subst.
    discriminate Hz.
  - intros H.
    destruct (H 0%nat 1%nat 2%nat) as (_ & _ & Heq & _); simpl; auto.
    discriminate (Heq eq_refl eq_refl).
  - intros (l & Hp & Ho & Hs).
    change (filtered (updateData TABLE_FILTERS Examples.table_with_gap))
      with [0; 1; 2]%nat in Hp, Hs.
    assert (Hnd : NoDup l).
    { apply (Permutation_NoDup (Permutation_sym Hp)).
      repeat constructor; simpl; intuition discriminate. }
    assert (H01 : before 0%nat 1%nat l).
    { apply Hs; [|reflexivity]. apply before_here. now left. }
    assert (H12 : before 1%nat 2%nat l).
    { apply Hs; [|reflexivity]. apply before_later, before_here. now left. }
    pose proof (ordered_before _ _ _ _ Ho (before_trans _ _ _ _ Hnd H01 H12)) as Hna.
    discriminate Hna.
Qed.

End SortStage.

(* ================================================================== *)
(** * Pages                                                             *)
(* ================================================================== *)

Module PagingFacts.
Import DashTable Controller.

Lemma slice_window {A : Type} (a b : nat) (l : list A) :
  slice (Z.of_nat a) (Z.of_nat a + Z.of_nat b) l = firstn b (skipn a l).
Proof.
  unfold slice.
  assert ((Z.of_nat a <? 0)%Z = false) as -> by (apply Z.ltb_ge; lia).
  assert ((Z.of_nat a + Z.of_nat b <? 0)%Z = false) as ->
    by (apply Z.ltb_ge; lia).
  destruct (Nat.le_gt_cases (length l) a) as [Hge|Hlt].
  - rewrite !Z.min_r by lia. rewrite Z.sub_diag. simpl.
    rewrite skipn_all2 by lia. now rewrite firstn_nil.
  - rewrite (Z.min_l (Z.of_nat a)) by lia. rewrite Nat2Z.id.
    destruct (Nat.le_gt_cases (length l) (a + b)) as [Hge|Hlt'].
    + rewrite Z.min_r by lia.
      replace (Z.to_nat (Z.max (Z.of_nat (length l) - Z.of_nat a) 0))
        with (length l - a)%nat by lia.
      rewrite <- (length_skipn a l).
      rewrite firstn_all. symmetry. apply firstn_all2.
      rewrite length_skipn. lia.
    + rewrite Z.min_l by lia.
      replace (Z.to_nat (Z.max (Z.of_nat a + Z.of_nat b - Z.of_nat a) 0))
        with b by lia.
      reflexivity.
Qed.

(** The rows of a page that is not negative, for a positive page size:
    the page size in rows, or what is left, from the first row of the
    page on. *)
Lemma viewableData_window (st : state) :
  (0 < page_size (cfg st))%Z -> (0 <= page (cfg st))%Z ->
  viewableData st
  = firstn (Z.to_nat (page_size (cfg st)))
      (skipn (Z.to_nat (page (cfg st) * page_size (cfg st))) (virtual st)).
Proof.
  intros Hp Hk. unfold viewableData.
  assert ((page_size (cfg st) =? 0)%Z = false) as -> by (apply Z.eqb_neq; lia).
  rewrite <- slice_window. f_equal; lia.
Qed.

Lemma firstn_plus {A : Type} (a b : nat) (l : list A) :
  firstn (a + b) l = firstn a l ++ firstn b (skipn a l).
Proof.
  revert l. induction a as [|a IH]; intros l; simpl; [reflexivity|].
  destruct l; simpl; [now rewrite firstn_nil|]. now rewrite IH.
Qed.

Lemma windows_concat {A : Type} (p m : nat) (l : list A) :
  concat (map (fun k => firstn p (skipn (k * p) l)) (seq 0 m))
  = firstn (m * p) l.
Proof.
  induction m as [|m IH]; [reflexivity|].
  rewrite seq_S, map_app, concat_app, IH. simpl.
  rewrite app_nil_r. rewrite (Nat.add_comm p), firstn_plus. reflexivity.
Qed.

(** X1.  A positive page size cuts the virtual tier into the pages from
    page 0 to the last page: their rows, one page after the other, are
    the virtual tier, each row once and in order. *)
Theorem pages_partition_virtual (st : state) :
  (0 < page_size (cfg st))%Z ->
  (Z.of_nat (length (virtual st)) / page_size (cfg st) < 2 ^ 31)%Z ->
  concat (map (fun k => viewableData (at_page k st)) (pages st)) = virtual st.
Proof.
  intros Hp Hq. unfold pages. rewrite map_map.
  set (p := page_size (cfg st)) in *.
  set (l := virtual st).
  set (m := Z.to_nat (getLastPage st + 1)).
  rewrite (map_ext _ (fun k => firstn (Z.to_nat p) (skipn (k * Z.to_nat p) l))).
  - rewrite windows_concat. apply firstn_all2.
    unfold m. destruct (virtual st) as [|r rest] eqn:E.
    + simpl. lia.
    + rewrite PageFacts.getLastPage_nonempty; fold p; try lia.
      * fold l. rewrite E.
        set (n := Z.of_nat (length (r :: rest))).
        assert (Hn : (0 < n)%Z) by (unfold n; simpl; lia).
        assert (Hc : (n <= ((n + p - 1) / p) * p)%Z).
        { pose proof (Z.div_mod (n + p - 1) p ltac:(lia)).
          pose proof (Z.mod_pos_bound (n + p - 1) p Hp). nia. }
        fold n in Hc |- *.
        replace ((n + p - 1) / p - 1 + 1)%Z with ((n + p - 1) / p)%Z by lia.
        assert (0 <= (n + p - 1) / p)%Z by (apply Z.div_pos; lia).
        apply Nat2Z.inj_le. rewrite Nat2Z.inj_mul, !Z2Nat.id by lia.
        unfold n in Hc. exact Hc.
      * rewrite E. simpl length. lia.
      * rewrite E. exact Hq.
  - intros k. rewrite viewableData_window.
    + simpl. fold p. f_equal. f_equal. rewrite Z2Nat.inj_mul by lia.
      now rewrite Nat2Z.id.
    + exact Hp.
    + simpl. lia.
Qed.

(** Ten rows to a page and 25 rows. *)
Lemma pages_partition_virtual_witness :
  concat (map (fun k => viewableData (at_page k Examples.table_25))
            (pages Examples.table_25))
  = virtual Examples.table_25.
Proof.
  apply (pages_partition_virtual Examples.table_25).
  - reflexivity.
  - reflexivity.
Defined.

(** X2.  For a positive page size and a page that is not negative, the
    item a row checkbox stands for is the row rendered at its position on
    the page. *)
Theorem paginated_item_is_rendered_row (st : state) (i : nat) :
  (0 < page_size (cfg st))%Z -> (0 <= page (cfg st))%Z ->
  (Z.of_nat i < page_size (cfg st))%Z ->
  getPaginatedItem st (Z.of_nat i) = nth_error (viewableData st) i.
Proof.
  intros Hp Hk Hi. rewrite viewableData_window by assumption.
  unfold getPaginatedItem.
  set (p := page_size (cfg st)) in *. set (k := page (cfg st)) in *.
  assert ((k * p + Z.of_nat i <? 0)%Z = false) as -> by (apply Z.ltb_ge; nia).
  rewrite nth_error_firstn.
  assert ((i <? Z.to_nat p)%nat = true) as -> by (apply Nat.ltb_lt; lia).
  rewrite nth_error_skipn. f_equal. nia.
Qed.

Lemma paginated_item_is_rendered_row_witness :
  getPaginatedItem (at_page 2 Examples.table_25) 4
  = nth_error (viewableData (at_page 2 Examples.table_25)) 4.
Proof.
  apply (paginated_item_is_rendered_row (at_page 2 Examples.table_25) 4).
  - reflexivity.
  - vm_compute. discriminate.
  - reflexivity.
Defined.

End PagingFacts.

(* ================================================================== *)
(** * Buttons, the page indicator and the page in range                 *)
(* ================================================================== *)

Module ButtonFacts.
Import Spec DashTable Controller PipelineFacts.

Lemma getLastPage_ext (a b : state) :
  length (virtual a) = length (virtual b) ->
  page_size (cfg a) = page_size (cfg b) ->
  getLastPage a = getLastPage b.
Proof. unfold getLastPage. now intros -> ->. Qed.

(** X3.  A click on a button moves the page by one at most and keeps it
    in range; it marks the configuration when the page moves and leaves
    the state as it is when the page stays, as on Previous at page 0 and
    on Next at the last page. *)
Theorem clickButton_keeps_page_in_range (isPrev isNext : bool) (st : state) :
  page_in_range st ->
  let st' := clickButton isPrev isNext st in
  page_in_range st'
  /\ (page (cfg st') = page (cfg st)
      \/ page (cfg st') = (page (cfg st) - 1)%Z
      \/ page (cfg st') = (page (cfg st) + 1)%Z)
  /\ virtual st' = virtual st
  /\ (page (cfg st') <> page (cfg st) -> pendingConfigChange st' = true)
  /\ (page (cfg st') = page (cfg st) -> st' = st)
  /\ (page (cfg st) = 0%Z -> isNext = false -> st' = st)
  /\ (page (cfg st) = getLastPage st -> isPrev = false -> st' = st).
Proof.
  unfold page_in_range. intros Hr. cbv zeta. unfold clickButton.
  set (k := page (cfg st)) in *. set (last := getLastPage st) in *.
  assert (Hlast : forall v, getLastPage
            (with_pendingConfigChange true (with_cfg (with_page v (cfg st)) st))
            = last) by reflexivity.
  destruct isPrev, isNext; simpl andb;
    destruct (0 <? k)%Z eqn:E1; destruct (k <? last)%Z eqn:E2;
    try apply Z.ltb_lt in E1; try apply Z.ltb_ge in E1;
    try apply Z.ltb_lt in E2; try apply Z.ltb_ge in E2;
    cbv iota;
    repeat match goal with
      | |- context [negb (?a =? ?b)%Z] =>
          let E := fresh "E" in
          destruct (a =? b)%Z eqn:E;
          [apply Z.eqb_eq in E | apply Z.eqb_neq in E]; simpl negb; cbv iota
      end;
    try rewrite Hlast; simpl page; fold k;
    repeat split; try reflexivity; try tauto; try lia;
    try (intros; exfalso; lia); try (intros; discriminate).
Qed.

(** Page 2 of the table of 25 rows, and a click on Next. *)
Lemma clickButton_keeps_page_in_range_witness :
  clickButton false true (at_page 2 Examples.table_25)
  = at_page 2 Examples.table_25.
Proof.
  apply (clickButton_keeps_page_in_range false true (at_page 2 Examples.table_25)).
  - vm_compute. split; discriminate.
  - reflexivity.
  - reflexivity.
Defined.

(** X4.  On a page of the table, for a positive page size, the indicator
    shows the range of the rows that are rendered: it starts one after
    the rows of the pages before and spans as many rows as the page has,
    at least one and at most the page size; the total is the length of
    the virtual tier. *)
Theorem indicator_counts_rendered_rows (st : state) :
  (0 < page_size (cfg st))%Z ->
  (Z.of_nat (length (virtual st)) / page_size (cfg st) < 2 ^ 31)%Z ->
  (0 <= page (cfg st) <= getLastPage st)%Z ->
  let shown := updatePageIndicator st in
  let rendered := Z.of_nat (length (viewableData st)) in
  first_shown shown = (page (cfg st) * page_size (cfg st) + 1)%Z
  /\ (last_shown shown - first_shown shown + 1 = rendered)%Z
  /\ (1 <= rendered <= page_size (cfg st))%Z
  /\ total shown = Z.of_nat (length (virtual st)).
Proof.
  intros Hp Hq Hk. cbv zeta.
  rewrite PagingFacts.viewableData_window by lia.
  unfold updatePageIndicator. simpl.
  set (p := page_size (cfg st)) in *. set (k := page (cfg st)) in *.
  set (n := Z.of_nat (length (virtual st))) in *.
  assert (Hn : (0 < n)%Z).
  { destruct (virtual st) eqn:E; [|unfold n; simpl; lia].
    rewrite PageFacts.getLastPage_empty_rows in Hk by (auto; fold p; lia). lia. }
  rewrite PageFacts.getLastPage_nonempty in Hk by assumption.
  fold p n in Hk.
  assert (Hkp : (k * p < n)%Z).
  { pose proof (Z.div_mod (n + p - 1) p ltac:(lia)).
    pose proof (Z.mod_pos_bound (n + p - 1) p Hp). nia. }
  rewrite length_firstn, length_skipn. fold n.
  assert (Z.of_nat (length (virtual st)) = n) by reflexivity.
  repeat split; nia.
Qed.

Lemma indicator_counts_rendered_rows_witness :
  let shown := updatePageIndicator (at_page 2 Examples.table_25) in
  first_shown shown = 21%Z /\ last_shown shown = 25%Z /\ total shown = 25%Z.
Proof.
  destruct (indicator_counts_rendered_rows (at_page 2 Examples.table_25))
    as (H1 & _ & _ & H4).
  - reflexivity.
  - reflexivity.
  - vm_compute. split; discriminate.
  - cbv zeta. rewrite H1, H4. repeat split.
Defined.

End ButtonFacts.

(* ================================================================== *)
(** * Event handlers                                                    *)
(* ================================================================== *)

Module HandlerFacts.
Import Spec DashTable Controller PipelineFacts ButtonFacts.

Lemma updateColumns_page_size (b : bool) (st : state) :
  page_size (cfg (updateColumns b st)) = page_size (cfg st).
Proof. destruct b; open_updateColumns; reflexivity. Qed.

Section Handlers.
Variable reg : registry.

Lemma filter_pass_page_size (filter newFilter : string)
    (newSort : list (string * option string)) (st : state) :
  page_size (cfg (filter_pass reg filter newFilter newSort st))
  = page_size (cfg st).
Proof.
  unfold filter_pass.
  destruct (if (filter =? "")%string then _ else _)
    as [[st1 useOriginal] nf] eqn:E.
  assert (Hsize : page_size (cfg st1) = page_size (cfg st)).
  { destruct (filter =? "")%string.
    - injection E as <- _ _. reflexivity.
    - destruct (resolve_filter _ _ _ _ _ _); injection E as <- _ _; reflexivity. }
  pose proof (updateColumns_page_size useOriginal st1) as Hu.
  destruct (negb _); simpl; congruence.
Qed.

(** After a recompute the two derived tiers have the same length, the
    page size is what it was, and the page is 0 or what it was, the
    latter when the filtered tier kept its length. *)
Lemma updateData_view (st : state) :
  let st' := updateData reg st in
  tiers_aligned st'
  /\ page_size (cfg st') = page_size (cfg st)
  /\ (page (cfg st') = 0%Z
      \/ (page (cfg st') = page (cfg st)
          /\ length (filtered st') = length (filtered st))).
Proof.
  cbv zeta.
  destruct (updateData_stages reg st) as (Hc & _ & _ & Hf & _ & _ & Hv).
  unfold tiers_aligned. rewrite Hv, Hc, Hf. split; [|split].
  - destruct (negb _); [|reflexivity].
    apply Permutation_length, SortFacts.sort_perm.
  - unfold after_filter. destruct (filter_changed st (trimmed st));
      [apply filter_pass_page_size|reflexivity].
  - unfold after_filter. destruct (filter_changed st (trimmed st)); [|now right].
    pose proof (filter_pass_page reg (trimmed st) (filter_text st)
                  (map (fun s => (key s, order s)) (sort_by (cfg st))) st) as Hp.
    cbv zeta in Hp. destruct Hp as [Hdiff Hsame].
    destruct (Nat.eq_dec
                (length (filtered (filter_pass reg (trimmed st) (filter_text st)
                   (map (fun s => (key s, order s)) (sort_by (cfg st))) st)))
                (length (filtered st))) as [E|E].
    + right. split; [now apply Hsame|exact E].
    + left. now apply Hdiff.
Qed.

(** The page stays in range over a recompute of a state whose derived
    tiers have the same length. *)
Lemma updateData_keeps_view (st : state) :
  tiers_aligned st -> page_in_range st ->
  tiers_aligned (updateData reg st) /\ page_in_range (updateData reg st).
Proof.
  intros Ha Hr. destruct (updateData_view st) as (Ha' & Hs & Hp).
  split; [exact Ha'|]. unfold page_in_range in *.
  destruct Hp as [-> | [-> Hlen]]; [lia|].
  rewrite (getLastPage_ext (updateData reg st) st); [exact Hr| |exact Hs].
  unfold tiers_aligned in *. congruence.
Qed.

Lemma update_view (st : state) :
  virtual (update reg st) = virtual (updateData reg st)
  /\ filtered (update reg st) = filtered (updateData reg st)
  /\ cfg (update reg st) = cfg (updateData reg st).
Proof.
  unfold update.
  destruct (pendingConfigChange (updateData reg st));
    [destruct (pendingHeaderChange (with_pendingConfigChange false _))
    |destruct (pendingHeaderChange (updateData reg st))];
    repeat split; reflexivity.
Qed.

Lemma update_keeps_view (st : state) :
  tiers_aligned st -> page_in_range st ->
  tiers_aligned (update reg st) /\ page_in_range (update reg st).
Proof.
  intros Ha Hr. destruct (updateData_keeps_view st Ha Hr) as [Ha' Hr'].
  destruct (update_view st) as (Hv & Hf & Hc).
  unfold tiers_aligned, page_in_range in *.
  rewrite (getLastPage_ext (update reg st) (updateData reg st));
    rewrite ?Hv, ?Hf, ?Hc; auto.
Qed.

(** X5.  Once the virtual tier has the length of the filtered tier and
    the page is in range, they stay so over every event: a new filter
    text, a click on a button, a click on a column header. *)
Theorem handlers_keep_page_in_range (st : state) :
  tiers_aligned st -> page_in_range st ->
  (forall value,
      tiers_aligned (onFilterChange reg value st)
      /\ page_in_range (onFilterChange reg value st))
  /\ (forall isPrev isNext,
      tiers_aligned (onClick_button reg isPrev isNext st)
      /\ page_in_range (onClick_button reg isPrev isNext st))
  /\ (forall id_index st',
      onClick_column reg id_index st = Some st' ->
      tiers_aligned st' /\ page_in_range st').
Proof.
  intros Ha Hr. repeat apply conj.
  - intros value. unfold onFilterChange. now apply update_keeps_view.
  - intros isPrev isNext. unfold onClick_button.
    pose proof (clickButton_keeps_page_in_range isPrev isNext st Hr) as Hb.
    cbv zeta in Hb. destruct Hb as (Hr' & _ & Hv & _).
    assert (Ha' : tiers_aligned (clickButton isPrev isNext st)).
    { unfold tiers_aligned in *. rewrite Hv.
      unfold clickButton. destruct (negb _); [|exact Ha].
      destruct (_ && _); [exact Ha|]. destruct (_ && _); exact Ha. }
    destruct (_ || _); [now apply update_keeps_view|now split].
  - intros id_index st'. unfold onClick_column, clickColumn_event.
    destruct (event_index id_index) as [i|]; [|discriminate].
    destruct (i <? 0)%Z; [discriminate|].
    unfold clickColumn.
    destruct (nth_error (columns_virtual (cfg st)) (Z.to_nat i)); [|discriminate].
    simpl. intros H. injection H as <-.
    apply update_keeps_view; [exact Ha|exact Hr].
Qed.

End Handlers.

(** The table of 25 rows at page 2, and the text of a filter that keeps
    no row typed in: the page goes back to 0. *)
Lemma handlers_keep_page_in_range_witness :
  page_in_range (onFilterChange TABLE_FILTERS "Name = z" table_25_at_page_2).
Proof.
  destruct (handlers_keep_page_in_range TABLE_FILTERS table_25_at_page_2)
    as (Hfilter & _ & _).
  - vm_compute. reflexivity.
  - vm_compute. split; discriminate.
  - apply Hfilter.
Defined.

End HandlerFacts.

(* ================================================================== *)
(** * One toggle, by mode                                               *)
(* ================================================================== *)

Module ToggleFacts.
Import Spec DashTable SortFacts SelectionFacts.

(** X6.  Toggling an index that is selected takes it out and keeps the
    others, in every mode, the modes that disable selection included. *)
Theorem toggle_off_in_every_mode (sel : list N) (i : N) (mode : option string) :
  NoDup sel -> In i sel ->
  NoDup (updateSelections sel i mode)
  /\ forall j, In j (updateSelections sel i mode) <-> j <> i /\ In j sel.
Proof.
  intros Hnd Hin.
  destruct (Array.indexOf i sel) as [k|] eqn:E;
    [|apply indexOf_None in E; contradiction].
  rewrite (toggle_present _ _ _ _ E).
  apply indexOf_Some in E. destruct E as (_ & Hsel & _).
  set (rest := firstn k sel ++ skipn (S k) sel).
  assert (Hperm : Permutation (i :: rest) sel).
  { unfold rest. rewrite Permutation_middle, <- Hsel. reflexivity. }
  assert (Hnd' : NoDup (i :: rest))
    by (apply (Permutation_NoDup (Permutation_sym Hperm)); exact Hnd).
  inversion Hnd' as [|? ? Hnot Hrest]; subst.
  split.
  - apply (Permutation_NoDup (Permutation_sym (default_sort_perm rest))).
    exact Hrest.
  - intros j. split.
    + intros Hj. apply (Permutation_in _ (default_sort_perm rest)) in Hj.
      split; [intros ->; contradiction|].
      apply (Permutation_in _ Hperm). now right.
    + intros [Hne Hj].
      apply (Permutation_in _ (Permutation_sym (default_sort_perm rest))).
      apply (Permutation_in _ (Permutation_sym Hperm)) in Hj.
      destruct Hj as [->|Hj]; [contradiction|exact Hj].
Qed.

(** Rows 1, 10 and 2 are selected and selection is disabled: row 10 goes. *)
Lemma toggle_off_in_every_mode_witness :
  NoDup (updateSelections [1; 10; 2]%N 10%N (Some ""))
  /\ (In 2%N (updateSelections [1; 10; 2]%N 10%N (Some ""))
      <-> 2%N <> 10%N /\ In 2%N [1; 10; 2]%N).
Proof.
  destruct (toggle_off_in_every_mode [1; 10; 2]%N 10%N (Some "")) as [Hnd Hin].
  - repeat constructor; simpl; intuition discriminate.
  - simpl. tauto.
  - split; [exact Hnd|apply Hin].
Defined.

(** X7.  Toggling an index that is not selected: mode multi adds it to
    the others, mode single leaves it alone, and any other mode that is
    given leaves nothing selected. *)
Theorem toggle_on_by_mode (sel : list N) (i : N) (mode : option string) :
  ~ In i sel ->
  (multi_mode mode -> Permutation (updateSelections sel i mode) (i :: sel))
  /\ (single_mode mode -> updateSelections sel i mode = [i])
  /\ (forall m, mode = Some m -> m <> "multi" -> m <> "single" ->
        updateSelections sel i mode = []).
Proof.
  intros Hnot. repeat apply conj.
  - intros Hm. rewrite (toggle_absent_multi _ _ _ Hm Hnot).
    rewrite default_sort_perm. symmetry. apply Permutation_cons_append.
  - intros ->. now apply toggle_absent_single.
  - intros m -> Hm Hs. apply indexOf_None in Hnot.
    unfold updateSelections. rewrite Hnot.
    apply String.eqb_neq in Hm. rewrite Hm. simpl negb. cbv iota.
    rewrite splice_all. unfold Array.includes. simpl.
    apply String.eqb_neq in Hs. now rewrite Hs, Hm.
Qed.

(** Row 1 is selected and row 2 is clicked, selection disabled. *)
Lemma toggle_on_by_mode_witness :
  updateSelections [1%N] 2%N (Some "") = [].
Proof.
  apply (toggle_on_by_mode [1%N] 2%N (Some "")) with (m := "").
  - simpl. intuition discriminate.
  - reflexivity.
  - discriminate.
  - discriminate.
Defined.

End ToggleFacts.

(* ================================================================== *)
(** * Clicks on headers, again                                          *)
(* ================================================================== *)

Module HeaderFacts.
Import Spec DashTable Controller SelectionFacts.

(** ** The index read from an id *)

Lemma last_field_app (field s1 s2 : string) :
  last_field field (s1 ++ s2) = last_field (last_field field s1) s2.
Proof.
  revert field. induction s1 as [|c r IH]; intros field; simpl; [reflexivity|].
  destruct (is_decimal_digit c); apply IH.
Qed.

Lemma last_field_digits (field s : string) :
  all_digits s = true -> last_field field s = (field ++ s)%string.
Proof.
  revert field. induction s as [|c r IH]; intros field; simpl.
  - intros _. clear. induction field; simpl; congruence.
  - intros H. apply andb_prop in H. destruct H as [Hc Hr]. rewrite Hc.
    rewrite (IH _ Hr). clear. induction field; simpl; congruence.
Qed.

Lemma string_of_uint_digits (d : Decimal.uint) :
  all_digits (NilEmpty.string_of_uint d) = true.
Proof. induction d; simpl; auto. Qed.


Ltac eval_digit :=
  match goal with
  | |- context [Js.digit_value 10 ?c] =>
      let v := eval vm_compute in (Js.digit_value 10 c) in
      change (Js.digit_value 10 c) with v; cbv iota beta
  end.

Lemma read_digits_acc (d : Decimal.uint) (acc : positive) (count : nat) :
  Js.read_digits 10 (Zpos acc) count (NilEmpty.string_of_uint d)
  = (Zpos (Pos.of_uint_acc d acc), (count + Decimal.nb_digits d)%nat, EmptyString).
Proof.
  revert acc count.
  induction d; intros acc count; cbn [NilEmpty.string_of_uint Js.read_digits];
    [cbn; now rewrite Nat.add_0_r|..];
    eval_digit; cbn [Pos.of_uint_acc Decimal.nb_digits];
    match goal with
    | |- Js.read_digits 10 ?z _ _ = (Zpos (Pos.of_uint_acc _ ?a), _, _) =>
        replace z with (Zpos a) by lia
    end;
    rewrite IHd; f_equal; f_equal; lia.
Qed.

Lemma read_digits_uint (d : Decimal.uint) (count : nat) :
  Js.read_digits 10 0 count (NilEmpty.string_of_uint d)
  = (Z.of_N (Pos.of_uint d), (count + Decimal.nb_digits d)%nat, EmptyString).
Proof.
  revert count.
  induction d; intros count; cbn [NilEmpty.string_of_uint Js.read_digits];
    [cbn; now rewrite Nat.add_0_r|..];
    eval_digit; cbn [Z.mul Z.add Pos.of_uint Decimal.nb_digits];
    [rewrite IHd; f_equal; f_equal; lia|..];
    rewrite read_digits_acc; cbn [Z.of_N]; f_equal; f_equal; lia.
Qed.

Lemma digit_cases (c : ascii) :
  is_decimal_digit c = true ->
  In c ["0"; "1"; "2"; "3"; "4"; "5"; "6"; "7"; "8"; "9"]%char.
Proof.
  destruct c as [[] [] [] [] [] [] [] []]; vm_compute; intros H;
    try discriminate H; tauto.
Qed.

Lemma read_digits_count (base acc : Z) (count : nat) (s : string) :
  (count <= snd (fst (Js.read_digits base acc count s)))%nat.
Proof.
  revert acc count. induction s as [|c r IH]; intros acc count; simpl; [lia|].
  destruct (Js.digit_value base c); simpl; [|lia].
  specialize (IH (acc * base + z)%Z (S count)). lia.
Qed.

Lemma parseInt_digits (s : string) :
  s <> EmptyString -> all_digits s = true ->
  parseInt s = Some (fst (fst (Js.read_digits 10 0 0 s))).
Proof.
  destruct s as [|c r]; [congruence|]. intros _ H. simpl in H.
  apply andb_prop in H. destruct H as [Hc Hr].
  assert (Hcount : (1 <= snd (fst (Js.read_digits 10 0 0 (String c r))))%nat).
  { apply digit_cases in Hc. simpl in Hc.
    repeat (destruct Hc as [<-|Hc];
            [cbn [Js.read_digits]; eval_digit; apply read_digits_count|]).
    contradiction. }
  assert (Hparse : parseInt (String c r)
                   = match Js.read_digits 10 0 0 (String c r) with
                     | (_, O, _) => None
                     | (v, _, _) => Some v
                     end).
  { apply digit_cases in Hc. simpl in Hc.
    repeat (destruct Hc as [<-|Hc]; [try reflexivity|]); try contradiction.
    destruct r as [|c2 r2]; [reflexivity|]. simpl in Hr.
    apply andb_prop in Hr. destruct Hr as [Hc2 _].
    apply digit_cases in Hc2. simpl in Hc2.
    repeat (destruct Hc2 as [<-|Hc2]; [reflexivity|]). contradiction. }
  rewrite Hparse.
  destruct (Js.read_digits 10 0 0 (String c r)) as [[v n] rest].
  simpl in *. destruct n; [lia|reflexivity].
Qed.

(** The index written into an id is the index read from it. *)
Lemma event_index_make_index (tableIndex : string) (position : N) :
  event_index (make_index tableIndex position) = Some (Z.of_N position).
Proof.
  unfold event_index, make_index.
  rewrite last_field_app. simpl last_field at 1.
  assert (Hd : all_digits (Array.index_to_string position) = true)
    by apply string_of_uint_digits.
  change (last_field _ ("-" ++ Array.index_to_string position))
    with (last_field EmptyString (Array.index_to_string position)).
  rewrite (last_field_digits _ _ Hd). simpl append.
  rewrite parseInt_digits; [|  |exact Hd].
  - unfold Array.index_to_string. rewrite read_digits_uint. simpl.
    f_equal. f_equal. apply Unsigned.of_to.
  - unfold Array.index_to_string. destruct position as [|p]; [discriminate|].
    simpl. pose proof (DecimalPos.Unsigned.to_uint_nonnil p) as Hn.
    destruct (Pos.to_uint p); [congruence|..]; discriminate.
Qed.

(** X8.  The index [getColumns] writes into the id of a header is the
    index [clickColumn] reads back from it, whatever the index of the
    table is: the click lands on the column the header was made for. *)
Theorem click_lands_on_rendered_column
    (tableIndex : string) (position : N) (st : state) :
  clickColumn_event (make_index tableIndex position) st
  = clickColumn (N.to_nat position) st.
Proof.
  unfold clickColumn_event. rewrite event_index_make_index.
  assert ((Z.of_N position <? 0)%Z = false) as -> by (apply Z.ltb_ge; lia).
  f_equal. lia.
Qed.

(** ** Three clicks *)

Lemma findIndex_app_last {A : Type} (p : A -> bool) (l : list A) (x : A) :
  (forall y, In y l -> p y = false) -> p x = true ->
  Array.findIndex p (l ++ [x]) = Some (length l).
Proof.
  intros Hl Hx. induction l as [|a r IH]; simpl.
  - now rewrite Hx.
  - rewrite (Hl a) by (now left). rewrite IH; [reflexivity|].
    intros y Hy. apply Hl. now right.
Qed.

Lemma nth_error_app_last {A : Type} (l : list A) (x : A) :
  nth_error (l ++ [x]) (length l) = Some x.
Proof. induction l; simpl; auto. Qed.

Lemma firstn_app_last {A : Type} (l : list A) (x : A) :
  firstn (length l) (l ++ [x]) = l /\ skipn (S (length l)) (l ++ [x]) = [].
Proof. induction l as [|a r [IH1 IH2]]; simpl; split; auto. now rewrite IH1. Qed.

(** X9.  Three clicks on the header of a column that is not in the sort
    specification sort by it ascending, then descending, then not at
    all; the entries of the other columns are dropped by the first click
    in single-sort mode and stay throughout otherwise. *)
Theorem three_clicks_cycle (st : state) (index : nat) (col : column) :
  nth_error (columns_virtual (cfg st)) index = Some col ->
  found st col = None ->
  let others := if (sort_mode (cfg st) =? "single")%string then []
                else sort_by (cfg st) in
  spec_of (clicks 1 index st)
    = Some (others ++ [{| key := col_name col; order := Some "asc" |}])
  /\ spec_of (clicks 2 index st)
    = Some (others ++ [{| key := col_name col; order := Some "desc" |}])
  /\ spec_of (clicks 3 index st) = Some others.
Proof.
  intros Hcol Hfound. cbv zeta.
  set (others := if (sort_mode (cfg st) =? "single")%string then []
                 else sort_by (cfg st)).
  assert (Hothers : forall y, In y others -> (key y =? col_name col)%string = false).
  { unfold found in Hfound. rewrite findIndex_None in Hfound.
    unfold others. destruct (_ =? _)%string; [intros y []|exact Hfound]. }
  set (asc := {| key := col_name col; order := Some "asc" |}).
  set (desc := {| key := col_name col; order := Some "desc" |}).
  assert (H1 : clickColumn index st
               = Some (with_pendingHeaderChange true
                         (with_pendingConfigChange true
                            (with_cfg (with_sort_by (others ++ [asc]) (cfg st)) st)))).
  { unfold clickColumn. rewrite Hcol. unfold found in Hfound. rewrite Hfound.
    unfold others. destruct (sort_mode (cfg st) =? "single")%string;
      [now rewrite splice_all|reflexivity]. }
  set (st1 := with_pendingHeaderChange true
                (with_pendingConfigChange true
                   (with_cfg (with_sort_by (others ++ [asc]) (cfg st)) st))) in *.
  assert (H2 : clickColumn index st1
               = Some (with_pendingHeaderChange true
                         (with_pendingConfigChange true
                            (with_cfg (with_sort_by (others ++ [desc]) (cfg st1)) st1)))).
  { unfold clickColumn. change (columns_virtual (cfg st1)) with (columns_virtual (cfg st)).
    rewrite Hcol. change (sort_by (cfg st1)) with (others ++ [asc]).
    rewrite (findIndex_app_last _ others asc Hothers)
      by (simpl; apply String.eqb_refl).
    rewrite nth_error_app_last. cbv beta iota.
    change (match order asc with Some o => (o =? "desc")%string | None => false end)
      with false. cbv iota.
    destruct (firstn_app_last others asc) as [-> ->]. reflexivity. }
  set (st2 := with_pendingHeaderChange true
                (with_pendingConfigChange true
                   (with_cfg (with_sort_by (others ++ [desc]) (cfg st1)) st1))) in *.
  assert (H3 : spec_of (clickColumn index st2) = Some others).
  { unfold clickColumn. change (columns_virtual (cfg st2)) with (columns_virtual (cfg st)).
    rewrite Hcol. change (sort_by (cfg st2)) with (others ++ [desc]).
    rewrite (findIndex_app_last _ others desc Hothers)
      by (simpl; apply String.eqb_refl).
    rewrite nth_error_app_last. cbv beta iota.
    change (match order desc with Some o => (o =? "desc")%string | None => false end)
      with true. cbv iota.
    change (Array.index_number None) with (-1)%Z.
    rewrite splice_last, removelast_last. reflexivity. }
  repeat apply conj.
  - simpl. rewrite H1. reflexivity.
  - simpl. rewrite H1, H2. reflexivity.
  - simpl. rewrite H1, H2.
    destruct (clickColumn index st2); [exact H3|discriminate H3].
Qed.

(** Three clicks on the header of column A of the table that is not
    sorted. *)
Lemma three_clicks_cycle_witness :
  spec_of (clicks 1 0 unsorted_table) = Some [{| key := "A"; order := Some "asc" |}]
  /\ spec_of (clicks 2 0 unsorted_table) = Some [{| key := "A"; order := Some "desc" |}]
  /\ spec_of (clicks 3 0 unsorted_table) = Some [].
Proof.
  apply (three_clicks_cycle unsorted_table 0 (Examples.column_named "A"));
    reflexivity.
Defined.

End HeaderFacts.

(* ================================================================== *)
(** * The default filter routine, again                                 *)
(* ================================================================== *)

Module GrammarFacts.
Import Spec DashTable Controller FilterFacts.

(** ** When it throws *)

(** X10.  The default routine throws exactly on a text that has not
    three tokens and, when there is a row to test, on a text whose middle
    token is no operation of the grammar. *)
Theorem default_throws_exactly (filter : string) (h : store) (data : list ref) :
  TABLE_FILTERS_default filter h data = Throws
  <-> match match_tokens filter with
      | Some [k; operation; value] =>
          known_operation operation = false /\ data <> []
      | _ => True
      end.
Proof.
  destruct (match_tokens filter) as [splits|] eqn:E;
    [|split; [trivial|intros _; now apply default_no_token]].
  destruct splits as [|k [|operation [|value [|extra more]]]];
    try (split; [trivial|intros _;
                 apply (default_token_count _ _ _ _ E); simpl; lia]).
  destruct (known_operation operation) eqn:Hop.
  - split.
    + intros H. exfalso. revert H. now apply (default_known_operation _ _ _ _ _ _ E).
    + intros [H _]. discriminate.
  - destruct data as [|item rest].
    + rewrite (default_three_tokens _ _ _ _ _ _ E). simpl.
      split; [discriminate|]. intros [_ H]. congruence.
    + rewrite (default_unknown_operation _ _ _ _ _ _ _ E Hop).
      split; [|reflexivity]. intros _. split; [reflexivity|discriminate].
Qed.

(** ** What it returns *)

Lemma filter_as_list_filter {A : Type} (p : A -> option bool) (l r : list A) :
  Array.filter p l = Some r ->
  r = List.filter (fun x => match p x with Some true => true | _ => false end) l.
Proof.
  revert r. induction l as [|x rest IH]; simpl; intros r H.
  - now injection H as <-.
  - destruct (p x) as [b|]; [|discriminate].
    destruct (Array.filter p rest) as [r'|]; [|discriminate].
    injection H as <-. rewrite (IH r' eq_refl). now destruct b.
Qed.

Lemma filter_all_pass {A : Type} (p : A -> option bool) (l : list A) :
  (forall x, In x l -> p x = Some true) -> Array.filter p l = Some l.
Proof.
  induction l as [|x rest IH]; intros H; simpl; [reflexivity|].
  rewrite (H x) by (now left).
  rewrite IH; [reflexivity|]. intros y Hy. apply H. now right.
Qed.

(** X11.  For a key that is not the name of a property every object
    inherits: what the default routine returns is the rows that pass the
    test, in the order of the dataset, each one decided by its own field
    alone; the store is the one it was given; and the routine returns
    its result unchanged when it is given the result to filter. *)
Theorem default_returns_matching_rows
    (filter k operation value : string) (h h' : store) (data result : list ref) :
  match_tokens filter = Some [k; operation; value] ->
  own_names [strip_quotes k] ->
  TABLE_FILTERS_default filter h data = Returns h' result ->
  h' = h
  /\ result = List.filter (keeps k operation value h) data
  /\ TABLE_FILTERS_default filter h result = Returns h result.
Proof.
  intros Ht _. rewrite !(default_three_tokens _ _ _ _ _ _ Ht).
  destruct (Array.filter _ data) as [r|] eqn:E; [|discriminate].
  intros H. injection H as <- <-.
  apply filter_as_list_filter in E. split; [reflexivity|]. split; [exact E|].
  rewrite filter_all_pass; [reflexivity|].
  intros x Hx. rewrite E in Hx. apply filter_In in Hx. destruct Hx as [_ Hx].
  unfold keeps in Hx.
  destruct (test_item operation _ value) as [[|]|]; congruence.
Qed.

Lemma default_returns_matching_rows_witness :
  Examples.dataset = Examples.dataset
  /\ [1%nat] = List.filter (keeps "Percentage" ">" ".6" Examples.dataset) [0; 1]%nat
  /\ TABLE_FILTERS_default "Percentage > .6" Examples.dataset [1%nat]
     = Returns Examples.dataset [1%nat].
Proof.
  apply (default_returns_matching_rows "Percentage > .6" "Percentage" ">" ".6"
           Examples.dataset Examples.dataset [0; 1]%nat [1%nat]).
  - reflexivity.
  - repeat constructor.
  - vm_compute. reflexivity.
Defined.

(** X12.  With [=] or [==] the default routine keeps the rows whose
    field is a string, the very text of the value token; a field that is
    a number, a boolean, [null] or missing never passes. *)
Theorem default_equality_is_strict
    (filter k operation value : string) (h : store) (data : list ref) :
  match_tokens filter = Some [k; operation; value] ->
  operation = "=" \/ operation = "==" ->
  TABLE_FILTERS_default filter h data
  = Returns h
      (List.filter
         (fun item => match Js.get (deref h item) (strip_quotes k) with
                      | Js.Str s => (s =? value)%string
                      | _ => false
                      end)
         data).
Proof.
  intros Ht Hop. rewrite (default_three_tokens _ _ _ _ _ _ Ht).
  assert (Htest : forall field,
             test_item operation field value
             = Some (match field with
                     | Js.Str s => (s =? value)%string
                     | _ => false
                     end)).
  { intros field. destruct Hop as [-> | ->]; destruct field; reflexivity. }
  induction data as [|item rest IH]; simpl; [reflexivity|].
  rewrite Htest.
  destruct (Array.filter _ rest) as [r|]; [|discriminate IH].
  injection IH as <-. reflexivity.
Qed.

(** The percentage 0.5 of row a is a number: the text does not match it. *)
Lemma default_equality_is_strict_witness :
  TABLE_FILTERS_default "Percentage = 0.5" Examples.dataset [0; 1]%nat
  = Returns Examples.dataset [].
Proof.
  apply (default_equality_is_strict "Percentage = 0.5" "Percentage" "=" "0.5"
           Examples.dataset [0; 1]%nat).
  - reflexivity.
  - now left.
Defined.

(** ** Tokens *)

Lemma quoted_body_found (s rest : string) :
  quote_free s = true ->
  quoted_body (s ++ String dquote rest) = Some s.
Proof.
  induction s as [|c r IH]; cbn [quoted_body append quote_free].
  - intros _. now rewrite Ascii.eqb_refl.
  - intros H. apply andb_prop in H. destruct H as [Hc Hr].
    apply negb_true_iff in Hc. rewrite Hc. now rewrite (IH Hr).
Qed.

Lemma nonspace_run_word (w rest : string) :
  space_free w = true ->
  nonspace_run (w ++ String " " rest) = w.
Proof.
  induction w as [|c r IH]; simpl; [reflexivity|].
  intros H. apply andb_prop in H. destruct H as [Hc Hr].
  apply negb_true_iff in Hc. rewrite Hc. now rewrite (IH Hr).
Qed.

Lemma nonspace_run_last (w : string) :
  space_free w = true -> nonspace_run w = w.
Proof.
  induction w as [|c r IH]; simpl; [reflexivity|].
  intros H. apply andb_prop in H. destruct H as [Hc Hr].
  apply negb_true_iff in Hc. rewrite Hc. now rewrite (IH Hr).
Qed.

Lemma scan_skip (s rest : string) :
  scan (String.length s) (s ++ rest) = scan 0 rest.
Proof. induction s as [|c r IH]; simpl; [destruct rest|]; auto. Qed.

Lemma scan_skip_all (s : string) : scan (String.length s) s = [].
Proof. induction s as [|c r IH]; simpl; auto. Qed.

Lemma length_append (a b : string) :
  String.length (a ++ b) = (String.length a + String.length b)%nat.
Proof. induction a; simpl; auto. Qed.

Lemma append_assoc (a b c : string) : ((a ++ b) ++ c = a ++ (b ++ c))%string.
Proof. induction a; simpl; congruence. Qed.

(** A plain word and the space after it. *)
Lemma scan_word (w rest : string) :
  plain_word w = true ->
  scan 0 (w ++ String " " rest) = w :: scan 0 rest.
Proof.
  destruct w as [|c r]; [discriminate|]. simpl plain_word.
  intros H. apply andb_prop in H. destruct H as [Hq Hs].
  pose proof Hs as Hs'. simpl in Hs'. apply andb_prop in Hs'.
  destruct Hs' as [Hc Hr]. apply negb_true_iff in Hc, Hq.
  change ((String c r ++ String " " rest)%string)
    with (String c (r ++ String " " rest)).
  cbn [scan]. rewrite Hc.
  assert (Htok : match_at (String c (r ++ String " " rest)) = String c r).
  { unfold match_at. rewrite Hq.
    change (String c (r ++ String " " rest)) with ((String c r ++ String " " rest)%string).
    now apply nonspace_run_word. }
  rewrite Htok. f_equal. cbn [String.length]. rewrite Nat.sub_succ, Nat.sub_0_r.
  rewrite scan_skip. reflexivity.
Qed.

Lemma scan_last_word (w : string) :
  plain_word w = true -> scan 0 w = [w].
Proof.
  destruct w as [|c r]; [discriminate|]. simpl plain_word.
  intros H. apply andb_prop in H. destruct H as [Hq Hs].
  pose proof Hs as Hs'. simpl in Hs'. apply andb_prop in Hs'.
  destruct Hs' as [Hc Hr]. apply negb_true_iff in Hc, Hq.
  cbn [scan]. rewrite Hc.
  assert (Htok : match_at (String c r) = String c r).
  { unfold match_at. rewrite Hq. now apply nonspace_run_last. }
  rewrite Htok. f_equal. cbn [String.length]. rewrite Nat.sub_succ, Nat.sub_0_r.
  apply scan_skip_all.
Qed.

(** A quoted text and what follows it. *)
Lemma scan_quoted (s rest : string) :
  quote_free s = true ->
  scan 0 (quoted s ++ rest) = quoted s :: scan 0 rest.
Proof.
  intros Hs. unfold quoted.
  change ((String dquote (s ++ String dquote "") ++ rest)%string)
    with (String dquote ((s ++ String dquote "") ++ rest)).
  cbn [scan]. change (Js.is_space dquote) with false. cbv iota.
  assert (Htok : match_at (String dquote ((s ++ String dquote "") ++ rest))
                 = String dquote (s ++ String dquote "")).
  { unfold match_at. rewrite Ascii.eqb_refl.
    rewrite append_assoc. simpl append at 2.
    now rewrite (quoted_body_found _ _ Hs). }
  rewrite Htok. f_equal. cbn [String.length]. rewrite Nat.sub_succ, Nat.sub_0_r.
  apply scan_skip.
Qed.

Lemma drop_last_quote_end (s : string) (c : ascii) :
  is_quote c = true -> drop_last_quote (s ++ String c "") = s.
Proof.
  intros Hc. induction s as [|a r IH]; simpl.
  - now rewrite Hc.
  - destruct (r ++ String c "")%string eqn:E.
    + destruct r; discriminate E.
    + now rewrite IH.
Qed.

(** X13.  A filter text of three words separated by one space has these
    words as its tokens.  The key may be put between double quotes, and
    then hold spaces: the token is the quoted text, and the field asked
    for is the text without the quotes. *)
Theorem tokens_of_filter_text (k operation value : string) :
  plain_word operation = true -> plain_word value = true ->
  (plain_word k = true ->
     match_tokens (filter_of k operation value) = Some [k; operation; value])
  /\ (quote_free k = true ->
     match_tokens (filter_of (quoted k) operation value)
       = Some [quoted k; operation; value]
     /\ strip_quotes (quoted k) = k).
Proof.
  intros Hop Hv.
  assert (Hrest : scan 0 (operation ++ String " " value) = [operation; value]).
  { rewrite (scan_word _ _ Hop). now rewrite (scan_last_word _ Hv). }
  split.
  - intros Hk. unfold match_tokens, filter_of.
    change (" " ++ operation ++ " " ++ value)%string
      with (String " " (operation ++ String " " value)).
    rewrite (scan_word _ _ Hk), Hrest. reflexivity.
  - intros Hk. split.
    + unfold match_tokens, filter_of.
      rewrite (scan_quoted _ _ Hk).
      change (" " ++ operation ++ " " ++ value)%string
        with (String " " (operation ++ String " " value)).
      cbn [scan]. change (Js.is_space " ") with true. cbv iota.
      rewrite Hrest. reflexivity.
    + unfold quoted, strip_quotes. change (is_quote dquote) with true.
      cbv iota. now apply drop_last_quote_end.
Qed.

(** The key [my key], with its space, in double quotes. *)
Lemma tokens_of_filter_text_witness :
  match_tokens (filter_of (quoted "my key") ">=" "5")
    = Some [quoted "my key"; ">="; "5"]
  /\ strip_quotes (quoted "my key") = "my key".
Proof.
  apply (tokens_of_filter_text "my key" ">=" "5"); reflexivity.
Defined.

End GrammarFacts.

(* ================================================================== *)
(** * Columns and identities                                            *)
(* ================================================================== *)

Module ColumnFacts.
Import Spec DashTable Controller SelectionFacts PipelineFacts.

(** ** The selected columns *)

Lemma findIndex_after {A : Type} (p : A -> bool) (pre rest : list A) (x : A) :
  (forall y, In y pre -> p y = false) -> p x = true ->
  Array.findIndex p (pre ++ x :: rest) = Some (length pre).
Proof.
  intros Hpre Hx. induction pre as [|a r IH]; simpl.
  - now rewrite Hx.
  - rewrite (Hpre a) by (now left).
    rewrite IH; [reflexivity|]. intros y Hy. apply Hpre. now right.
Qed.

Lemma prune_columns_filter (o f : list string) (rest pre : list N) (p : bool) :
  forallb (survives o f) pre = true ->
  prune_columns o f rest (pre ++ rest) p
  = (pre ++ List.filter (survives o f) rest,
     p || negb (forallb (survives o f) rest)).
Proof.
  revert pre p. induction rest as [|x rest IH]; intros pre p Hpre.
  - simpl. now rewrite !app_nil_r, orb_false_r.
  - cbn [prune_columns List.filter forallb].
    change (match nth_error o (N.to_nat x) with
            | Some name => Array.includes name f
            | None => false
            end) with (survives o f x).
    destruct (survives o f x) eqn:E.
    + replace (pre ++ x :: rest) with ((pre ++ [x]) ++ rest)
        by (now rewrite <- app_assoc).
      rewrite IH.
      * now rewrite <- app_assoc.
      * rewrite forallb_app, Hpre. simpl. now rewrite E.
    + assert (Hidx : Array.indexOf x (pre ++ x :: rest) = Some (length pre)).
      { apply findIndex_after; [|apply N.eqb_refl].
        intros y Hy. apply N.eqb_neq. intros <-.
        rewrite forallb_forall in Hpre. rewrite (Hpre x Hy) in E. discriminate. }
      rewrite Hidx. cbn [Array.index_number].
      rewrite splice_at by (rewrite length_app; simpl; lia).
      rewrite firstn_app, Nat.sub_diag, firstn_all. simpl firstn.
      rewrite app_nil_r.
      replace (skipn (S (length pre)) (pre ++ x :: rest)) with rest.
      * rewrite IH by assumption. simpl. now rewrite orb_true_r.
      * rewrite skipn_app, skipn_all2 by lia.
        replace (S (length pre) - length pre)%nat with 1%nat by lia.
        reflexivity.
Qed.

(** X14.  [updateColumns] keeps of the selected column indices those
    whose column, as the columns were before, has a name that is still
    the name of a column; the indices stay in their order and are not
    renumbered.  The header is marked when an index went or when the
    names changed. *)
Theorem selected_columns_pruned (useOriginal : bool) (st : state) :
  let st' := updateColumns useOriginal st in
  let originalColumns := map col_name (columns_virtual (cfg st)) in
  let finalColumns := map col_name (columns_virtual (cfg st')) in
  selected_columns (cfg st')
  = List.filter (survives originalColumns finalColumns) (selected_columns (cfg st))
  /\ pendingHeaderChange st'
     = pendingHeaderChange st
       || negb (forallb (survives originalColumns finalColumns)
                  (selected_columns (cfg st)))
       || negb (Array.toString originalColumns =? Array.toString finalColumns)%string.
Proof.
  cbv zeta. unfold updateColumns.
  destruct (if useOriginal then _ else _) as [[vc ip] h] eqn:E. clear E.
  rewrite (prune_columns_filter _ _ (selected_columns (cfg st)) [] _ eq_refl).
  cbn [app].
  destruct (negb (Array.toString _ =? Array.toString (map col_name vc))%string) eqn:Hn;
    destruct ip; simpl; rewrite ?Hn, ?orb_true_r, ?orb_false_r; split; reflexivity.
Qed.

(** ** The columns of the filtered path *)

Lemma columnsByName_name (columns : list column) (columnName : string) (col : column) :
  columnsByName columns columnName = Some col -> col_name col = columnName.
Proof.
  unfold columnsByName. intros H. apply find_some in H.
  now apply String.eqb_eq.
Qed.

Lemma made_columns_names (c : config) (k : string) (names : list string) :
  map col_name
    (flat_map
       (fun columnName =>
          if (columnName =? k)%string then []
          else [match columnsByName (columns_original c) columnName with
                | Some col => col
                | None => default_column c columnName
                end])
       names)
  = List.filter (fun columnName => negb (columnName =? k)%string) names.
Proof.
  induction names as [|n rest IH]; [reflexivity|].
  cbn [flat_map List.filter]. destruct (n =? k)%string; simpl; [exact IH|].
  rewrite IH. f_equal.
  destruct (columnsByName (columns_original c) n) as [col|] eqn:E; [|reflexivity].
  now apply columnsByName_name in E.
Qed.

Lemma scan_filtered_keys (st : state) :
  (let newColumns :=
     fst (fst (scan_filtered (heap st) (row_index_key (cfg st)) (filtered st))) in
   match newColumns with
   | [] => map col_name (columns_original (cfg st))
   | _ => newColumns
   end) = first_row_keys st.
Proof.
  unfold first_row_keys, scan_filtered.
  destruct (filtered st) as [|item rest]; [reflexivity|].
  destruct (negb _); reflexivity.
Qed.

(** X15.  After a filter the columns are named after the keys of the
    first filtered row, in the order of the keys and without the
    identity key; when there is no row, or the row has no key, they are
    named after the configured columns, again without the identity key.
    Keys that name an inherited property are left aside: the table of the
    configured columns by name is an object, and would answer for them
    with what it inherits. *)
Theorem columns_named_after_first_row (st : state) :
  own_names (first_row_keys st) ->
  map col_name (columns_virtual (cfg (updateColumns false st)))
  = List.filter (fun columnName => negb (columnName =? row_index_key (cfg st))%string)
      (first_row_keys st).
Proof.
  intros _. rewrite <- scan_filtered_keys. unfold updateColumns.
  destruct (scan_filtered _ _ _) as [[newColumns ip] h]. cbn [fst]. cbv zeta.
  destruct (prune_columns _ _ _ _ _) as [sel ph].
  destruct (negb (Array.toString _ =? _)%string); destruct ip; simpl;
    apply made_columns_names.
Qed.

(** The table whose first filtered row is row b: its keys name the
    columns. *)
Lemma columns_named_after_first_row_witness :
  map col_name (columns_virtual (cfg (updateColumns false table_swapped)))
  = ["Name"; "Percentage"].
Proof.
  apply (columns_named_after_first_row table_swapped).
  repeat constructor.
Defined.

(** ** The identities *)

Lemma get_set_same (o : Js.object) (k : string) (v : Js.value) :
  Js.get (Js.set o k v) k = v.
Proof.
  induction o as [|[k' v'] r IH]; simpl.
  - now rewrite String.eqb_refl.
  - destruct (k' =? k)%string eqn:E; simpl; now rewrite E.
Qed.

Lemma get_set_other (o : Js.object) (k k' : string) (v : Js.value) :
  k' <> k -> Js.get (Js.set o k v) k' = Js.get o k'.
Proof.
  intros Hne. induction o as [|[k0 v0] r IH]; simpl.
  - apply String.eqb_neq in Hne. rewrite String.eqb_sym in Hne. now rewrite Hne.
  - destruct (k0 =? k)%string eqn:E; simpl.
    + apply String.eqb_eq in E. subst k0.
      assert ((k =? k')%string = false) as -> by (apply String.eqb_neq; congruence).
      reflexivity.
    + now rewrite IH.
Qed.

Lemma length_store_set (h : store) (r : ref) (o : Js.object) :
  length (store_set h r o) = length h.
Proof.
  revert r. induction h as [|x t IH]; intros [|r]; simpl; auto.
Qed.

Lemma deref_store_set_same (h : store) (r : ref) (o : Js.object) :
  (r < length h)%nat -> deref (store_set h r o) r = o.
Proof.
  unfold deref. revert r. induction h as [|x t IH]; intros [|r] H; simpl in *;
    try lia; auto. apply IH. lia.
Qed.

Lemma deref_store_set_other (h : store) (r r' : ref) (o : Js.object) :
  r' <> r -> deref (store_set h r o) r' = deref h r'.
Proof.
  unfold deref. revert r r'.
  induction h as [|x t IH]; intros [|r] [|r'] H; simpl; auto; try congruence.
Qed.

Lemma assign_get (h : store) (r r' : ref) (k k' : string) (v : Js.value) :
  r' <> r \/ k' <> k ->
  Js.get (deref (assign h r k v) r') k' = Js.get (deref h r') k'.
Proof.
  unfold assign. intros H.
  destruct (Nat.eq_dec r' r) as [->|Hr];
    [|now rewrite deref_store_set_other].
  destruct H as [H|H]; [congruence|].
  destruct (Nat.lt_ge_cases r (length h)) as [Hlt|Hge].
  - rewrite deref_store_set_same by assumption. now apply get_set_other.
  - f_equal. unfold deref. clear -Hge. revert r Hge.
    induction h as [|x t IH]; intros [|r] Hge; simpl in *; auto; try lia.
    apply IH. lia.
Qed.

Lemma assign_indexes_frame (k : string) (items : list ref) (h : store)
    (n : nat) (r : ref) (k' : string) :
  ~ In r items \/ k' <> k ->
  Js.get (deref (assign_indexes h k n items) r) k' = Js.get (deref h r) k'.
Proof.
  revert h n. induction items as [|item rest IH]; intros h n H; simpl;
    [reflexivity|].
  rewrite IH.
  - apply assign_get. destruct H as [H|H]; [left|now right].
    intros ->. apply H. now left.
  - destruct H as [H|H]; [left|now right]. intros Hin. apply H. now right.
Qed.

Lemma length_assign_indexes (k : string) (items : list ref) (h : store) (n : nat) :
  length (assign_indexes h k n items) = length h.
Proof.
  revert h n. induction items as [|item rest IH]; intros h n; simpl;
    [reflexivity|].
  rewrite IH. unfold assign. apply length_store_set.
Qed.

Lemma assign_indexes_position (k : string) (items : list ref) (h : store)
    (n i : nat) (item : ref) :
  NoDup items -> in_store h items -> nth_error items i = Some item ->
  Js.get (deref (assign_indexes h k n items) item) k
  = Js.Num (Js.of_Z (Z.of_nat (n + i))).
Proof.
  revert h n i. induction items as [|x rest IH]; intros h n i Hnd Hin Hi.
  - destruct i; discriminate.
  - inversion Hnd as [|? ? Hx Hrest]; subst.
    inversion Hin as [|? ? Hlt Hin']; subst.
    destruct i as [|i]; simpl in Hi |- *.
    + injection Hi as ->.
      rewrite assign_indexes_frame by (now left).
      unfold assign. rewrite deref_store_set_same by assumption.
      rewrite get_set_same. now rewrite Nat.add_0_r.
    + rewrite (IH _ (S n) i Hrest); [do 3 f_equal; lia| |exact Hi].
      unfold in_store in *. rewrite Forall_forall in *. intros r Hr.
      unfold assign. rewrite length_store_set. now apply Hin'.
Qed.

(** The store after [updateColumns] on the filtered path. *)
Lemma updateColumns_heap (st : state) :
  heap (updateColumns false st)
  = snd (scan_filtered (heap st) (row_index_key (cfg st)) (filtered st)).
Proof.
  unfold updateColumns.
  destruct (scan_filtered _ _ _) as [[newColumns ip] h]. cbn [snd].
  destruct (prune_columns _ _ _ _ _) as [sel ph].
  destruct (negb (Array.toString _ =? _)%string); destruct ip; reflexivity.
Qed.

(** X16.  When the first row of the filter result has no identity, every
    row of the result gets its position in the result as its identity,
    provided the result holds no row twice. *)
Theorem identities_are_positions (st : state) (i : nat) (item : ref) :
  first_row_lacks_identity (heap st) (row_index_key (cfg st)) (filtered st) ->
  NoDup (filtered st) -> in_store (heap st) (filtered st) ->
  nth_error (filtered st) i = Some item ->
  identity (updateColumns false st) item = Js.Num (Js.of_Z (Z.of_nat i)).
Proof.
  intros Hlack Hnd Hin Hi. unfold identity.
  destruct (updateColumns_frame false st) as (_ & _ & _ & _ & _ & _ & _ & _ & Hk).
  rewrite Hk, updateColumns_heap. unfold scan_filtered.
  destruct (filtered st) as [|first rest] eqn:Ef; [destruct i; discriminate|].
  simpl in Hlack. rewrite Hlack. simpl negb. cbv iota. cbn [snd].
  now rewrite (assign_indexes_position _ _ _ 0 i item Hnd Hin Hi).
Qed.

Lemma identities_are_positions_witness :
  identity (updateColumns false table_swapped) 0%nat = Js.Num (Js.of_Z 1).
Proof.
  apply (identities_are_positions table_swapped 1 0%nat).
  - reflexivity.
  - repeat constructor; simpl; intuition discriminate.
  - repeat constructor.
  - reflexivity.
Defined.

(** X17.  [updateColumns] writes nothing but identities of filtered
    rows: a property other than the identity key, and every property of
    a row that is not in the filtered tier, reads as before. *)
Theorem identities_touch_nothing_else (useOriginal : bool) (st : state)
    (r : ref) (k : string) :
  ~ In r (filtered st) \/ k <> row_index_key (cfg st) ->
  Js.get (deref (heap (updateColumns useOriginal st)) r) k
  = Js.get (deref (heap st) r) k.
Proof.
  intros H. destruct useOriginal.
  - now destruct (updateColumns_original st) as (-> & _ & _).
  - rewrite updateColumns_heap. unfold scan_filtered.
    destruct (filtered st) as [|first rest] eqn:Ef; [reflexivity|].
    destruct (negb _); [reflexivity|]. cbn [snd].
    now apply assign_indexes_frame.
Qed.

Lemma identities_touch_nothing_else_witness :
  Js.get (deref (heap (updateColumns false table_swapped)) 0%nat) "Name"
  = Js.get (deref (heap table_swapped) 0%nat) "Name".
Proof.
  apply (identities_touch_nothing_else false table_swapped 0%nat "Name").
  right. discriminate.
Defined.

End ColumnFacts.

(* ================================================================== *)
(** * The memo of the recompute                                         *)
(* ================================================================== *)

Module MemoFacts.
Import Spec DashTable Controller PipelineFacts.

Local Arguments updateColumns : simpl never.

Lemma updateData_sort_stage (reg : registry) (st : state) :
  updateData reg st = sort_stage (after_filter reg st).
Proof. reflexivity. Qed.

Lemma sort_stage_frame (st : state) :
  cfg (sort_stage st) = cfg st /\ heap (sort_stage st) = heap st
  /\ filtered (sort_stage st) = filtered st
  /\ invalid (sort_stage st) = invalid st
  /\ lastVirtualization (sort_stage st) = lastVirtualization st.
Proof.
  unfold sort_stage. cbv zeta. destruct (negb _); repeat split; reflexivity.
Qed.

Lemma sort_stage_twice (st : state) : sort_stage (sort_stage st) = sort_stage st.
Proof.
  destruct st as [c h o f v l pc ph inv]. unfold sort_stage. simpl.
  destruct (sort_by c) as [|s rest] eqn:E; simpl; rewrite ?E; reflexivity.
Qed.

Lemma update_frame (reg : registry) (st : state) :
  cfg (update reg st) = cfg (updateData reg st)
  /\ heap (update reg st) = heap (updateData reg st)
  /\ filtered (update reg st) = filtered (updateData reg st)
  /\ invalid (update reg st) = invalid (updateData reg st)
  /\ lastVirtualization (update reg st) = lastVirtualization (updateData reg st).
Proof.
  unfold update.
  destruct (pendingConfigChange (updateData reg st));
    [destruct (pendingHeaderChange (with_pendingConfigChange false _))
    |destruct (pendingHeaderChange (updateData reg st))];
    repeat split; reflexivity.
Qed.

Section Memo.
Variable reg : registry.

Lemma filter_pass_keeps_text (filter newFilter : string)
    (newSort : list (string * option string)) (st : state) :
  config_filter (cfg (filter_pass reg filter newFilter newSort st))
  = config_filter (cfg st).
Proof.
  unfold filter_pass.
  destruct (if (filter =? "")%string then _ else _)
    as [[st1 useOriginal] nf] eqn:E.
  assert (Htext : config_filter (cfg st1) = config_filter (cfg st)).
  { destruct (filter =? "")%string.
    - injection E as <- _ _. reflexivity.
    - destruct (resolve_filter _ _ _ _ _ _); injection E as <- _ _; reflexivity. }
  destruct (updateColumns_frame useOriginal st1)
    as (_ & _ & _ & _ & _ & _ & _ & Hu & _).
  destruct (negb _); simpl; congruence.
Qed.

Lemma after_filter_closed (st : state) :
  filter_changed st (trimmed st) = false -> after_filter reg st = st.
Proof. unfold after_filter. now intros ->. Qed.

End Memo.

(** X18.  Once the routine has returned for the text, a second recompute
    changes nothing and does not call a routine: whatever the registry
    holds by then, the state is the same. *)
Theorem recompute_memoised (reg reg' : registry) (st : state) :
  trimmed st <> "" ->
  configured reg st (trimmed st) (heap st) (original st) <> Throws ->
  updateData reg' (updateData reg st) = updateData reg st.
Proof.
  intros Hne Hok. rewrite !updateData_sort_stage.
  set (mid := after_filter reg st).
  assert (Hgate : filter_changed mid (trimmed mid) = false).
  { unfold mid, after_filter.
    destruct (filter_changed st (trimmed st)) eqn:G; [|exact G].
    destruct (configured reg st (trimmed st) (heap st) (original st))
      as [|h result] eqn:Hc; [congruence|].
    destruct (filter_pass_returns reg (trimmed st) (filter_text st)
                (map (fun s => (key s, order s)) (sort_by (cfg st))) st h result
                Hne Hc) as (_ & _ & Hmemo & _).
    set (newSort := map (fun s => (key s, order s)) (sort_by (cfg st))) in *.
    assert (Ht : trimmed (filter_pass reg (trimmed st) (filter_text st) newSort st)
                 = trimmed st).
    { unfold trimmed at 1 3, filter_text at 1 3.
      now rewrite filter_pass_keeps_text. }
    rewrite Ht. unfold filter_changed. rewrite Hmemo.
    now rewrite String.eqb_refl. }
  destruct (sort_stage_frame mid) as (Hc & _ & _ & _ & Hl).
  rewrite after_filter_closed; [apply sort_stage_twice|].
  unfold filter_changed, trimmed, filter_text in *. now rewrite Hl, Hc.
Qed.

(** The second recompute has a registry whose routine throws. *)
Lemma recompute_memoised_witness :
  updateData failing
    (updateData TABLE_FILTERS (Examples.table (Some "Percentage > .6")))
  = updateData TABLE_FILTERS (Examples.table (Some "Percentage > .6")).
Proof.
  apply (recompute_memoised TABLE_FILTERS failing
           (Examples.table (Some "Percentage > .6"))).
  - discriminate.
  - vm_compute. discriminate.
Defined.

(** X19.  Once the routine has thrown for a text, the input stays marked
    invalid when the text is emptied or made blank: the memo holds the
    empty text, and the recompute for the blank text does not enter the
    filter stage that takes the mark away. *)
Theorem invalid_mark_outlives_text (reg reg' : registry) (st : state)
    (value : string) :
  trimmed st <> "" -> filter_changed st (trimmed st) = true ->
  configured reg st (trimmed st) (heap st) (original st) = Throws ->
  Js.trim value = "" ->
  invalid (onFilterChange reg' value (update reg st)) = true.
Proof.
  intros Hne Hgate Hthrow Hblank.
  destruct (update_frame reg st) as (_ & _ & _ & Hi & Hl).
  rewrite updateData_sort_stage in Hi, Hl.
  destruct (sort_stage_frame (after_filter reg st)) as (_ & _ & _ & Hi' & Hl').
  rewrite Hi' in Hi. rewrite Hl' in Hl. clear Hi' Hl'.
  unfold after_filter in Hi, Hl. rewrite Hgate in Hi, Hl.
  destruct (filter_pass_throws reg (trimmed st) (filter_text st)
              (map (fun s => (key s, order s)) (sort_by (cfg st))) st
              Hne Hthrow) as (_ & _ & _ & Hinv & _ & Hmemo).
  rewrite Hinv in Hi. rewrite Hmemo in Hl.
  unfold onFilterChange.
  set (st2 := with_pendingConfigChange true _).
  destruct (update_frame reg' st2) as (_ & _ & _ & -> & _).
  rewrite updateData_sort_stage.
  destruct (sort_stage_frame (after_filter reg' st2)) as (_ & _ & _ & -> & _).
  rewrite after_filter_closed; [exact Hi|].
  unfold filter_changed, trimmed, filter_text, st2. simpl.
  rewrite Hl, Hblank. reflexivity.
Qed.

(** A text of one token, and then no text. *)
Lemma invalid_mark_outlives_text_witness :
  invalid (onFilterChange TABLE_FILTERS ""
             (update TABLE_FILTERS (Examples.table (Some "Percentage"))))
  = true.
Proof.
  apply (invalid_mark_outlives_text TABLE_FILTERS TABLE_FILTERS
           (Examples.table (Some "Percentage")) "").
  - discriminate.
  - reflexivity.
  - reflexivity.
  - reflexivity.
Defined.

(** ** A result that carries identities *)

Lemma updateColumns_preserved (st : state) (item : ref) (rest : list ref) :
  filtered st = item :: rest ->
  Js.get (deref (heap st) item) (row_index_key (cfg st)) <> Js.Undefined ->
  heap (updateColumns false st) = heap st
  /\ selected_rows (cfg (updateColumns false st)) = selected_rows (cfg st).
Proof.
  intros Hf Hid. unfold updateColumns, scan_filtered. rewrite Hf.
  assert (Hp : negb (Js.strict_eq
                       (Js.get (deref (heap st) item) (row_index_key (cfg st)))
                       Js.Undefined) = true).
  { destruct (Js.get _ _); try reflexivity. congruence. }
  rewrite Hp.
  destruct (prune_columns _ _ _ _ _) as [sel ph].
  destruct (negb (Array.toString _ =? _)%string); simpl; split; reflexivity.
Qed.

(** X20.  When the first row the routine returns carries an identity,
    the update takes the rows as they are: the store is the one the
    routine left and the selected rows stay.  The other rows of the
    result are not looked at. *)
Theorem first_row_decides_identity (reg : registry) (st : state) (h : store)
    (item : ref) (rest : list ref) :
  trimmed st <> "" -> filter_changed st (trimmed st) = true ->
  configured reg st (trimmed st) (heap st) (original st) = Returns h (item :: rest) ->
  Js.get (deref h item) (row_index_key (cfg st)) <> Js.Undefined ->
  let st' := update reg st in
  filtered st' = item :: rest /\ heap st' = h
  /\ selected_rows (cfg st') = selected_rows (cfg st).
Proof.
  intros Hne Hgate Hret Hid. cbv zeta.
  destruct (update_frame reg st) as (-> & -> & -> & _ & _).
  rewrite updateData_sort_stage.
  destruct (sort_stage_frame (after_filter reg st)) as (-> & -> & -> & _ & _).
  unfold after_filter. rewrite Hgate. unfold filter_pass.
  apply String.eqb_neq in Hne. rewrite Hne.
  unfold configured in Hret. rewrite Hret.
  set (st1 := with_invalid false (with_filtered (item :: rest) (with_heap h st))).
  destruct (updateColumns_frame false st1) as (_ & Hf & _).
  destruct (updateColumns_preserved st1 item rest eq_refl Hid) as (Hh & Hs).
  destruct (negb _); simpl; rewrite Hf, Hh, Hs; repeat split; reflexivity.
Qed.

(** Row b got identity 0 when it passed the first filter, and is
    selected; it passes the second filter too. *)
Lemma first_row_decides_identity_witness :
  filtered (update TABLE_FILTERS table_reselected) = [1%nat]
  /\ heap (update TABLE_FILTERS table_reselected) = heap table_reselected
  /\ selected_rows (cfg (update TABLE_FILTERS table_reselected)) = [0%N].
Proof.
  apply (first_row_decides_identity TABLE_FILTERS table_reselected
           (heap table_reselected) 1%nat []).
  - discriminate.
  - reflexivity.
  - vm_compute. reflexivity.
  - vm_compute. discriminate.
Defined.

End MemoFacts.

(* ================================================================== *)
(** * The last page                                                     *)
(* ================================================================== *)

Module LastPageFacts.
Import Spec DashTable Controller.

(** X21.  With rows in the virtual tier and a positive page size, the
    last page is the page that holds the last row: its first row is in
    the tier, and the tier ends on it. *)
Theorem last_page_holds_last_row (st : state) :
  let n := Z.of_nat (length (virtual st)) in
  let p := page_size (cfg st) in
  (0 < p)%Z -> (0 < n)%Z -> (n / p < 2 ^ 31)%Z ->
  (getLastPage st * p < n <= (getLastPage st + 1) * p)%Z.
Proof.
  cbv zeta. intros Hp Hn Hq.
  rewrite PageFacts.getLastPage_nonempty by assumption.
  set (n := Z.of_nat (length (virtual st))) in *.
  set (p := page_size (cfg st)) in *.
  pose proof (Z.div_mod (n + p - 1) p ltac:(lia)).
  pose proof (Z.mod_pos_bound (n + p - 1) p Hp). nia.
Qed.

(** 25 rows, ten to a page: page 2 starts before row 25 and ends after
    it. *)
Lemma last_page_holds_last_row_witness :
  (getLastPage Examples.table_25 * 10 < 25
   <= (getLastPage Examples.table_25 + 1) * 10)%Z.
Proof.
  apply (last_page_holds_last_row Examples.table_25); reflexivity.
Defined.

(** X22.  A page size of zero: the rows are rendered ten to a page, but
    the last page is page 0, so that on page 0 the first ten rows are
    shown, the next button does nothing, and the indicator ends at 0. *)
Theorem page_size_zero_shows_ten_rows (st : state) :
  page_size (cfg st) = 0%Z -> page (cfg st) = 0%Z -> virtual st <> [] ->
  getLastPage st = 0%Z
  /\ viewableData st = firstn 10 (virtual st)
  /\ clickButton false true st = st
  /\ last_shown (updatePageIndicator st) = 0%Z.
Proof.
  intros Hp Hk Hv.
  assert (Hlast : getLastPage st = 0%Z).
  { unfold getLastPage. rewrite Hp.
    destruct (virtual st) as [|r rest]; [congruence|].
    change (Z.of_nat (length (r :: rest)))
      with (Z.pos (Pos.of_succ_nat (length rest))).
    reflexivity. }
  repeat apply conj.
  - exact Hlast.
  - unfold viewableData. rewrite Hp, Hk. simpl.
    apply (PagingFacts.slice_window 0 10).
  - unfold clickButton. rewrite Hlast, Hk. reflexivity.
  - unfold updatePageIndicator. rewrite Hp, Hk. simpl. lia.
Qed.

Lemma page_size_zero_shows_ten_rows_witness :
  getLastPage table_25_unpaged = 0%Z
  /\ viewableData table_25_unpaged = firstn 10 (virtual table_25_unpaged)
  /\ clickButton false true table_25_unpaged = table_25_unpaged
  /\ last_shown (updatePageIndicator table_25_unpaged) = 0%Z.
Proof.
  apply (page_size_zero_shows_ten_rows table_25_unpaged).
  - reflexivity.
  - reflexivity.
  - discriminate.
Defined.

End LastPageFacts.

(* ================================================================== *)
(** * The first update                                                  *)
(* ================================================================== *)

Module FirstUpdate.
Import Spec DashTable Controller PipelineFacts MemoFacts.

(** The default of the constructor for [columns] has no lists: a table
    that is given no columns gets no state. *)
Example constructor_without_columns (c : config) (h : store) (rows : list ref) :
  constructor columns_default c h rows = None.
Proof. reflexivity. Qed.

(** X23.  For a table whose configuration gives its columns and whose
    data comes with the original rows only, the update the constructor
    runs shows page 0 as soon as a row is left to show, whatever page the
    configuration asked for: the filtered tier starts empty, so its
    length changes.  (A configuration without columns gets no state
    from the constructor, and is not spoken of.) *)
Theorem first_update_shows_page_0 (reg : registry) (given : columns_given)
    (c : config) (h : store) (rows : list ref) (st : state) :
  constructor given c h rows = Some st ->
  let st' := update reg st in
  filtered st' <> [] -> page (cfg st') = 0%Z.
Proof.
  intros Hst. cbv zeta.
  assert (Hshape : filtered st = [] /\ lastVirtualization st = None).
  { destruct given as [columns|[original|] [virtual|]]; simpl in Hst;
      try discriminate Hst; injection Hst as <-; split; reflexivity. }
  destruct Hshape as [Hempty Hmemo].
  destruct (update_frame reg st) as (-> & _ & -> & _ & _).
  rewrite updateData_sort_stage.
  destruct (sort_stage_frame (after_filter reg st)) as (-> & _ & -> & _ & _).
  unfold after_filter, filter_changed. rewrite Hmemo.
  destruct (filter_pass_page reg (trimmed st) (filter_text st)
              (map (fun s => (key s, order s)) (sort_by (cfg st))) st)
    as [Hdiff _].
  intros Hrows. apply Hdiff. rewrite Hempty. simpl length.
  intros Hlen. apply Hrows. now apply length_zero_iff_nil.
Qed.

(** The table of two rows that asks for page 3, its columns given as an
    empty array. *)
Lemma first_update_shows_page_0_witness :
  page (cfg (update TABLE_FILTERS (Examples.table None))) = 0%Z.
Proof.
  apply (first_update_shows_page_0 TABLE_FILTERS (ColumnsArray [])
           (with_page 3
              (with_selected_rows [1%N]
                 (Examples.with_config_filter None Examples.defaults)))
           Examples.dataset [0; 1]%nat (Examples.table None) eq_refl).
  vm_compute. discriminate.
Defined.

End FirstUpdate.
